(** * sub2api: admission slots, session scheduler and failover budget

    A shallow embedding of the concurrency core of the gateway:

    - [GoInt]: Go's [int] on the 64-bit targets the gateway is built for,
      as [Z] with two's complement wrap-around;
    - [Slots]: [CalculateTotalSlots], [CalculateModelSlotRange],
      [hashToSlotIndex] (service/concurrency_service.go) and
      [GetModelCategory] (the handler's concurrency helper);
    - [Redis]: the key/value store the Lua scripts run against;
    - [Scripts]: the Lua scripts of the repository's concurrency cache
      and the Go methods that run them;
    - [Service]: [AcquireSessionSlot] written against the
      [ConcurrencyCache] interface;
    - [Handler]: [WaitForRPMSlot], the failover loop of
      [GatewayHandler.Messages] and [mapUpstreamError]. *)

From Stdlib Require Import ZArith Lia Bool List Ascii String.
From stdpp Require Import base decidable option numbers list strings pretty gmap fin_maps.

Local Open Scope Z_scope.

(** ** Go's [int] *)

Module GoInt.

Definition intSize : Z := 64.
Definition MaxInt : Z := 2 ^ (intSize - 1) - 1.
Definition MinInt : Z := - 2 ^ (intSize - 1).

(** Two's complement reduction of a mathematical integer to an [int]. *)
Definition wrap (x : Z) : Z :=
  (x + 2 ^ (intSize - 1)) mod 2 ^ intSize - 2 ^ (intSize - 1).

Definition inRange (x : Z) : Prop := MinInt <= x <= MaxInt.

Definition add (x y : Z) : Z := wrap (x + y).
Definition sub (x y : Z) : Z := wrap (x - y).
Definition mul (x y : Z) : Z := wrap (x * y).
(** [/] and [%] truncate toward zero; the divisors used below are
    positive, so the quotient never leaves the range. *)
Definition div (x y : Z) : Z := wrap (Z.quot x y).
Definition rem (x y : Z) : Z := Z.rem x y.

End GoInt.

(** ** Slot arithmetic *)

Module Slots.
Import GoInt.

(** [CalculateTotalSlots]: [(concurrency*4 + 2) / 3], zero for a
    non-positive concurrency. *)
Definition CalculateTotalSlots (concurrency : Z) : Z :=
  if concurrency <=? 0 then 0
  else div (add (mul concurrency 4) 2) 3.

Record ModelSlotRange := { Start : Z; End : Z }.

(** [CalculateModelSlotRange]: returns the pair (opus, sonnet). *)
Definition CalculateModelSlotRange (totalSlots : Z)
  : ModelSlotRange * ModelSlotRange :=
  if totalSlots <=? 0 then
    ({| Start := 0; End := 0 |}, {| Start := 0; End := 0 |})
  else if totalSlots =? 1 then
    ({| Start := 0; End := 1 |}, {| Start := 0; End := 1 |})
  else
    let opusSlots := div totalSlots 2 in
    let opusSlots := if opusSlots <? 1 then 1 else opusSlots in
    let opusSlots :=
      if totalSlots <=? opusSlots then sub totalSlots 1 else opusSlots in
    ({| Start := 0; End := opusSlots |},
     {| Start := opusSlots; End := totalSlots |}).

(** The bytes of a Go string. *)
Definition bytes (s : string) : list Z :=
  map (fun c => Z.of_N (N_of_ascii c)) (list_ascii_of_string s).

(** The running [sum += int(b)] of [hashToSlotIndex]. *)
Definition byteSum (s : string) : Z :=
  fold_left (fun sum b => add sum b) (bytes s) 0.

Definition hashToSlotIndex (sessionHash : string) (maxConcurrency : Z) : Z :=
  if maxConcurrency <=? 0 then 0
  else rem (byteSum sessionHash) maxConcurrency.

(** [containsSubstring]: the window scan, written as the loop is. *)
Fixpoint prefixb (p s : list ascii) : bool :=
  match p, s with
  | [], _ => true
  | _ :: _, [] => false
  | a :: p', b :: s' => if Ascii.eqb a b then prefixb p' s' else false
  end.

Fixpoint scanWindows (s substr : list ascii) (windows : nat) {struct windows}
  : bool :=
  match windows with
  | O => false
  | S w =>
      if prefixb substr s then true
      else match s with
           | [] => false
           | _ :: s' => scanWindows s' substr w
           end
  end.

Definition containsSubstring (s substr : string) : bool :=
  let ls := list_ascii_of_string s in
  let lp := list_ascii_of_string substr in
  if (length ls <? length lp)%nat then false
  else scanWindows ls lp (length ls - length lp + 1).

Definition ModelCategoryOpus : string := "opus".
Definition ModelCategorySonnet : string := "sonnet".
Definition ModelCategoryHaiku : string := "haiku".

Definition GetModelCategory (model : string) : string :=
  if containsSubstring model "opus" then ModelCategoryOpus
  else if containsSubstring model "sonnet" then ModelCategorySonnet
  else if containsSubstring model "haiku" then ModelCategoryHaiku
  else "".

Definition IsHaikuModel (model : string) : bool :=
  String.eqb (GetModelCategory model) ModelCategoryHaiku.

End Slots.

(** ** The key/value store *)

Module Redis.

(** A key carries its value and, when one was set, the instant at which
    it expires.  The server clock is counted in whole seconds, the unit
    of [TIME] and of [EXPIRE]. *)
Record keyed (A : Type) := Keyed { kval : A; kdeadline : option Z }.
Arguments Keyed {A} _ _.
Arguments kval {A} _.
Arguments kdeadline {A} _.

Definition alive {A} (now : Z) (k : keyed A) : bool :=
  match kdeadline k with
  | None => true
  | Some d => now <? d
  end.

Section Keyspace.
Context {A : Type}.
Implicit Types ks : gmap string (keyed A).

(** An expired key reads as absent. *)
Definition kfind (now : Z) (key : string) ks : option (keyed A) :=
  match ks !! key with
  | Some k => if alive now k then Some k else None
  | None => None
  end.

Definition kget (now : Z) (key : string) ks : option A :=
  kval <$> kfind now key ks.

(** Overwrite the value; a live key keeps its time to live. *)
Definition kset (now : Z) (key : string) (v : A) ks : gmap string (keyed A) :=
  <[key := Keyed v (kfind now key ks ≫= kdeadline)]> ks.

(** Write the value together with its deadline ([SET ... EX], or a plain
    [SET] when there is none). *)
Definition kput (key : string) (v : A) (deadline : option Z) ks
  : gmap string (keyed A) :=
  <[key := Keyed v deadline]> ks.

Definition kdel (key : string) ks : gmap string (keyed A) := delete key ks.

(** [EXPIRE key ttl].  A deadline that is not in the future makes the
    key read as absent from then on, which is what [EXPIRE] with a
    non-positive [ttl] does. *)
Definition kexpire (now : Z) (key : string) (ttl : Z) ks
  : gmap string (keyed A) :=
  match kfind now key ks with
  | Some k => <[key := Keyed (kval k) (Some (now + ttl))]> ks
  | None => ks
  end.
End Keyspace.

(** The hash stored under [slot_owner:{account}:{slot}]; a field that was
    never written is [None]. *)
Record ownerHash := OwnerHash
  { owner : option string; count : option Z; expire : option Z }.

Definition noHash : ownerHash :=
  {| owner := None; count := None; expire := None |}.

(** The key families never share a name (their prefixes differ), so
    each family has a keyspace of its own type. *)
Record db := Db
  { zsets : gmap string (keyed (gmap string Z));
    hashes : gmap string (keyed ownerHash);
    ints : gmap string (keyed Z);
    strs : gmap string (keyed string) }.

Definition emptyDb : db :=
  {| zsets := ∅; hashes := ∅; ints := ∅; strs := ∅ |}.

Definition with_zsets (f : gmap string (keyed (gmap string Z)) ->
                           gmap string (keyed (gmap string Z))) (d : db) : db :=
  {| zsets := f (zsets d); hashes := hashes d; ints := ints d; strs := strs d |}.
Definition with_hashes (f : gmap string (keyed ownerHash) ->
                            gmap string (keyed ownerHash)) (d : db) : db :=
  {| zsets := zsets d; hashes := f (hashes d); ints := ints d; strs := strs d |}.
Definition with_ints (f : gmap string (keyed Z) -> gmap string (keyed Z))
  (d : db) : db :=
  {| zsets := zsets d; hashes := hashes d; ints := f (ints d); strs := strs d |}.
Definition with_strs (f : gmap string (keyed string) -> gmap string (keyed string))
  (d : db) : db :=
  {| zsets := zsets d; hashes := hashes d; ints := ints d; strs := f (strs d) |}.

(** A script is a state transformer over the store; it runs atomically. *)
Definition Lua (A : Type) : Type := db -> A * db.

Global Instance Lua_ret : MRet Lua := fun A x d => (x, d).
Global Instance Lua_bind : MBind Lua :=
  fun A B f m d => let (x, d') := m d in f x d'.

(** *** Sorted sets *)

Definition zread (now : Z) (key : string) (d : db) : gmap string Z :=
  default ∅ (kget now key (zsets d)).

(** A sorted set that becomes empty is removed together with its key. *)
Definition zwrite (now : Z) (key : string) (m : gmap string Z) (d : db) : db :=
  if (size m =? 0)%nat then with_zsets (kdel key) d
  else with_zsets (kset now key m) d.

Definition scoreAbove (max : Z) (ms : string * Z) : Prop := max < ms.2.
Global Instance scoreAbove_dec max ms : Decision (scoreAbove max ms).
Proof. unfold scoreAbove. apply _. Defined.

(** [ZREMRANGEBYSCORE key -inf max]: the bound is inclusive. *)
Definition ZREMRANGEBYSCORE (now : Z) (key : string) (max : Z) : Lua Z :=
  fun d =>
    let m := zread now key d in
    let m' := filter (scoreAbove max) m in
    (Z.of_nat (size m) - Z.of_nat (size m'), zwrite now key m' d).

Definition ZSCORE (now : Z) (key member : string) : Lua (option Z) :=
  fun d => (zread now key d !! member, d).

Definition ZADD (now : Z) (key : string) (score : Z) (member : string) : Lua unit :=
  fun d => (tt, zwrite now key (<[member := score]> (zread now key d)) d).

Definition ZCARD (now : Z) (key : string) : Lua Z :=
  fun d => (Z.of_nat (size (zread now key d)), d).

Definition ZREM (now : Z) (key member : string) : Lua unit :=
  fun d => (tt, zwrite now key (delete member (zread now key d)) d).

Definition EXPIRE_zset (now : Z) (key : string) (ttl : Z) : Lua unit :=
  fun d => (tt, with_zsets (kexpire now key ttl) d).

(** *** Hashes *)

Definition hread (now : Z) (key : string) (d : db) : ownerHash :=
  default noHash (kget now key (hashes d)).

Definition HGETALL (now : Z) (key : string) : Lua ownerHash :=
  fun d => (hread now key d, d).

Definition HGET_owner (now : Z) (key : string) : Lua (option string) :=
  fun d => (owner (hread now key d), d).

Definition HSET_owner_count_expire (now : Z) (key : string)
  (o : string) (c e : Z) : Lua unit :=
  fun d => (tt, with_hashes
                  (kset now key {| owner := Some o; count := Some c; expire := Some e |}) d).

Definition HSET_expire (now : Z) (key : string) (e : Z) : Lua unit :=
  fun d =>
    let h := hread now key d in
    (tt, with_hashes
           (kset now key {| owner := owner h; count := count h; expire := Some e |}) d).

Definition HINCRBY_count (now : Z) (key : string) (delta : Z) : Lua Z :=
  fun d =>
    let h := hread now key d in
    let c := default 0 (count h) + delta in
    (c, with_hashes
          (kset now key {| owner := owner h; count := Some c; expire := expire h |}) d).

Definition DEL_hash (key : string) : Lua unit :=
  fun d => (tt, with_hashes (kdel key) d).

Definition EXPIRE_hash (now : Z) (key : string) (ttl : Z) : Lua unit :=
  fun d => (tt, with_hashes (kexpire now key ttl) d).

(** *** Integer and string scalars *)

Definition GET_int (now : Z) (key : string) : Lua (option Z) :=
  fun d => (kget now key (ints d), d).

Definition INCRBY (now : Z) (key : string) (delta : Z) : Lua Z :=
  fun d =>
    let v := default 0 (kget now key (ints d)) + delta in
    (v, with_ints (kset now key v) d).

Definition INCR (now : Z) (key : string) : Lua Z := INCRBY now key 1.
Definition DECR (now : Z) (key : string) : Lua Z := INCRBY now key (-1).

Definition SET_int_EX (now : Z) (key : string) (v ttl : Z) : Lua unit :=
  fun d => (tt, with_ints (kput key v (Some (now + ttl))) d).

Definition EXPIRE_int (now : Z) (key : string) (ttl : Z) : Lua unit :=
  fun d => (tt, with_ints (kexpire now key ttl) d).

Definition GET_str (now : Z) (key : string) : Lua (option string) :=
  fun d => (kget now key (strs d), d).

(** [SET key v NX EX ttl]: true when the key was set. *)
Definition SET_str_NX_EX (now : Z) (key v : string) (ttl : Z) : Lua bool :=
  fun d =>
    match kget now key (strs d) with
    | Some _ => (false, d)
    | None => (true, with_strs (kput key v (Some (now + ttl))) d)
    end.

Definition DEL_str (key : string) : Lua unit :=
  fun d => (tt, with_strs (kdel key) d).

End Redis.

(** ** The Lua scripts and the cache methods that run them *)

Module Scripts.
Import GoInt Redis.

Definition accountSlotKeyPrefix : string := "concurrency:account:".
Definition userSlotKeyPrefix : string := "concurrency:user:".
Definition waitQueueKeyPrefix : string := "concurrency:wait:".
Definition accountWaitKeyPrefix : string := "wait:account:".
Definition sessionMutexKeyPrefix : string := "session_mutex:".
Definition slotOwnerKeyPrefix : string := "slot_owner:".
Definition defaultSlotTTLMinutes : Z := 15.
Definition sessionMutexTTLSeconds : Z := 300.
Definition haikuMaxParallel : Z := 3.

Definition accountSlotKey (accountID : Z) : string :=
  accountSlotKeyPrefix +:+ pretty accountID.
Definition userSlotKey (userID : Z) : string :=
  userSlotKeyPrefix +:+ pretty userID.
Definition waitQueueKey (userID : Z) : string :=
  waitQueueKeyPrefix +:+ pretty userID.
Definition accountWaitKey (accountID : Z) : string :=
  accountWaitKeyPrefix +:+ pretty accountID.
Definition sessionMutexKey (accountID : Z) (sessionHash : string) : string :=
  sessionMutexKeyPrefix +:+ pretty accountID +:+ ":" +:+ sessionHash.
Definition slotOwnerKey (accountID slotIndex : Z) : string :=
  slotOwnerKeyPrefix +:+ pretty accountID +:+ ":" +:+ pretty slotIndex.

(** ['slot_' .. slotIndex] *)
Definition slotID (slotIndex : Z) : string := "slot_" +:+ pretty slotIndex.

(** In every script [now] is the first component of [redis.call('TIME')]. *)

Definition acquireScript (key : string) (maxConcurrency ttl : Z)
  (requestID : string) (now : Z) : Lua Z :=
  let expireBefore := now - ttl in
  ZREMRANGEBYSCORE now key expireBefore;;
  exists_ ← ZSCORE now key requestID;
  match exists_ with
  | Some _ =>
      ZADD now key now requestID;;
      EXPIRE_zset now key ttl;;
      mret 1
  | None =>
      count ← ZCARD now key;
      if count <? maxConcurrency then
        ZADD now key now requestID;;
        EXPIRE_zset now key ttl;;
        mret 1
      else mret 0
  end.

Definition getCountScript (key : string) (ttl : Z) (now : Z) : Lua Z :=
  let expireBefore := now - ttl in
  ZREMRANGEBYSCORE now key expireBefore;;
  ZCARD now key.

(** [incrementWaitScript] and [incrementAccountWaitScript] have the same
    body. *)
Definition incrementWaitScript (key : string) (maxWait ttl : Z) (now : Z)
  : Lua Z :=
  current ← GET_int now key;
  let current := match current with None => 0 | Some v => v end in
  if maxWait <=? current then mret 0
  else
    newVal ← INCR now key;
    (if newVal =? 1 then EXPIRE_int now key ttl else mret tt);;
    mret 1.

Definition incrementAccountWaitScript := incrementWaitScript.

Definition decrementWaitScript (key : string) (now : Z) : Lua Z :=
  current ← GET_int now key;
  match current with
  | Some v => (if 0 <? v then DECR now key;; mret tt else mret tt);; mret 1
  | None => mret 1
  end.

Definition acquireSessionMutexScript (key : string) (ttl : Z)
  (requestID : string) (now : Z) : Lua Z :=
  result ← SET_str_NX_EX now key requestID ttl;
  if result : bool then mret 1 else mret 0.

Definition releaseSessionMutexScript (key requestID : string) (now : Z)
  : Lua Z :=
  currentOwner ← GET_str now key;
  if bool_decide (currentOwner = Some requestID) then
    DEL_str key;; mret 1
  else mret 0.

Definition acquireSlotWithSessionScript (ownerKey slotKey : string)
  (ttl slotIndex : Z) (sessionHash : string) (maxParallel : Z)
  (requestID : string) (now : Z) : Lua Z :=
  let slotID := slotID slotIndex in
  ownerData ← HGETALL now ownerKey;
  let currentOwner := owner ownerData in
  let currentCount := default 0 (count ownerData) in
  let expireAt := default 0 (expire ownerData) in
  oc ← (if (0 <? expireAt) && (expireAt <? now) then
          DEL_hash ownerKey;;
          ZREM now slotKey slotID;;
          mret (None, 0)
        else mret (currentOwner, currentCount));
  let currentOwner : option string := oc.1 in
  let currentCount : Z := oc.2 in
  if bool_decide (currentOwner = None) || (currentCount =? 0) then
    zsetScore ← ZSCORE now slotKey slotID;
    match zsetScore with
    | Some _ => mret 0
    | None =>
        HSET_owner_count_expire now ownerKey sessionHash 1 (now + ttl);;
        EXPIRE_hash now ownerKey ttl;;
        ZADD now slotKey now slotID;;
        EXPIRE_zset now slotKey ttl;;
        mret 1
    end
  else if bool_decide (currentOwner = Some sessionHash) then
    if currentCount <? maxParallel then
      HINCRBY_count now ownerKey 1;;
      HSET_expire now ownerKey (now + ttl);;
      EXPIRE_hash now ownerKey ttl;;
      ZADD now slotKey now slotID;;
      EXPIRE_zset now slotKey ttl;;
      mret 1
    else mret 0
  else mret 0.

Definition releaseSlotWithSessionScript (ownerKey slotKey : string)
  (slotIndex : Z) (sessionHash : string) (now : Z) : Lua Z :=
  let slotID := slotID slotIndex in
  currentOwner ← HGET_owner now ownerKey;
  if bool_decide (currentOwner = Some sessionHash) then
    newCount ← HINCRBY_count now ownerKey (-1);
    (if newCount <=? 0 then
       DEL_hash ownerKey;;
       ZREM now slotKey slotID
     else mret tt);;
    mret 1
  else mret 0.

(** *** The cache *)

Record concurrencyCache := ConcurrencyCacheOf
  { slotTTLSeconds : Z; waitQueueTTLSeconds : Z }.

Definition NewConcurrencyCache (slotTTLMinutes waitQueueTTLSeconds : Z)
  : concurrencyCache :=
  let slotTTLMinutes :=
    if slotTTLMinutes <=? 0 then defaultSlotTTLMinutes else slotTTLMinutes in
  let waitQueueTTLSeconds :=
    if waitQueueTTLSeconds <=? 0 then mul slotTTLMinutes 60
    else waitQueueTTLSeconds in
  {| slotTTLSeconds := mul slotTTLMinutes 60;
     waitQueueTTLSeconds := waitQueueTTLSeconds |}.

Section Methods.
Variable c : concurrencyCache.

Definition AcquireAccountSlot (accountID maxConcurrency : Z)
  (requestID : string) (now : Z) : Lua bool :=
  result ← acquireScript (accountSlotKey accountID) maxConcurrency
             (slotTTLSeconds c) requestID now;
  mret (result =? 1).

Definition ReleaseAccountSlot (accountID : Z) (requestID : string)
  (now : Z) : Lua unit :=
  ZREM now (accountSlotKey accountID) requestID.

Definition GetAccountConcurrency (accountID : Z) (now : Z) : Lua Z :=
  getCountScript (accountSlotKey accountID) (slotTTLSeconds c) now.

Definition AcquireUserSlot (userID maxConcurrency : Z)
  (requestID : string) (now : Z) : Lua bool :=
  result ← acquireScript (userSlotKey userID) maxConcurrency
             (slotTTLSeconds c) requestID now;
  mret (result =? 1).

Definition IncrementWaitCount (userID maxWait : Z) (now : Z) : Lua bool :=
  result ← incrementWaitScript (waitQueueKey userID) maxWait
             (waitQueueTTLSeconds c) now;
  mret (result =? 1).

Definition DecrementWaitCount (userID : Z) (now : Z) : Lua unit :=
  decrementWaitScript (waitQueueKey userID) now;; mret tt.

Definition IncrementAccountWaitCount (accountID maxWait : Z) (now : Z)
  : Lua bool :=
  result ← incrementAccountWaitScript (accountWaitKey accountID) maxWait
             (waitQueueTTLSeconds c) now;
  mret (result =? 1).

Definition DecrementAccountWaitCount (accountID : Z) (now : Z) : Lua unit :=
  decrementWaitScript (accountWaitKey accountID) now;; mret tt.

Definition AcquireSessionMutex (accountID : Z) (sessionHash requestID : string)
  (now : Z) : Lua bool :=
  result ← acquireSessionMutexScript (sessionMutexKey accountID sessionHash)
             sessionMutexTTLSeconds requestID now;
  mret (result =? 1).

Definition ReleaseSessionMutex (accountID : Z) (sessionHash requestID : string)
  (now : Z) : Lua unit :=
  releaseSessionMutexScript (sessionMutexKey accountID sessionHash)
    requestID now;;
  mret tt.

(** The method as the repository has it: the script is always run
    with [haikuMaxParallel]. *)
Definition AcquireSlotWithSession (accountID slotIndex : Z)
  (sessionHash requestID : string) (now : Z) : Lua bool :=
  let ownerKey := slotOwnerKey accountID slotIndex in
  let slotKey := accountSlotKey accountID in
  result ← acquireSlotWithSessionScript ownerKey slotKey (slotTTLSeconds c)
             slotIndex sessionHash haikuMaxParallel requestID now;
  mret (result =? 1).

Definition ReleaseSlotWithSession (accountID slotIndex : Z)
  (sessionHash : string) (now : Z) : Lua unit :=
  let ownerKey := slotOwnerKey accountID slotIndex in
  let slotKey := accountSlotKey accountID in
  releaseSlotWithSessionScript ownerKey slotKey slotIndex sessionHash now;;
  mret tt.
End Methods.

End Scripts.

(** ** The concurrency service *)

Module Service.
Import GoInt Slots.

(** A Go result pair [(value, error)]. *)
Inductive goResult (A : Type) : Type :=
| Ok (a : A)
| Err (e : string).
Arguments Ok {A} a.
Arguments Err {A} e.

(** The methods of the [ConcurrencyCache] interface that
    [AcquireSessionSlot] and its release closures call, over a store of
    type [S].  An implementation may answer anything, and may fail. *)
Class ConcurrencyCache (S : Type) : Type :=
  { GetSessionSlot : Z -> string -> S -> goResult Z * S;
    SetSessionSlot : Z -> string -> Z -> S -> goResult unit * S;
    RefreshSessionSlotTTL : Z -> string -> S -> goResult unit * S;
    AcquireSlotWithSession :
      Z -> Z -> string -> Z -> string -> string -> S -> goResult bool * S;
    ReleaseSlotWithSession :
      Z -> Z -> string -> string -> S -> goResult unit * S }.

(** What a [ReleaseFunc] closure does when called. *)
Inductive releaseFunc : Type :=
| releaseNop
| releaseSession (accountID slot : Z) (sessionHash releaseMC : string).

Record SessionSlotResult := SessionSlotResultOf
  { Acquired : bool; SlotIndex : Z; ReleaseFunc : option releaseFunc }.

Definition noLimit : SessionSlotResult :=
  {| Acquired := true; SlotIndex := -1; ReleaseFunc := Some releaseNop |}.

(** The slot range of a model category (the [switch] of
    [AcquireSessionSlot]). *)
Definition categoryRange (modelCategory : string) (totalSlots : Z) : Z * Z :=
  if String.eqb modelCategory "opus" then
    let opusRange := (CalculateModelSlotRange totalSlots).1 in
    (Start opusRange, End opusRange)
  else if String.eqb modelCategory "sonnet" then
    let sonnetRange := (CalculateModelSlotRange totalSlots).2 in
    (Start sonnetRange, End sonnetRange)
  else (0, totalSlots).

Definition categoryMaxParallel (modelCategory : string) : Z :=
  if String.eqb modelCategory "haiku" || String.eqb modelCategory "" then 9999
  else 1.

Section AcquireSessionSlot.
Context {S : Type} `{ConcurrencyCache S}.

Definition M (A : Type) : Type := S -> A * S.
Global Instance M_ret : MRet M := fun A x s => (x, s).
Global Instance M_bind : MBind M :=
  fun A B f m s => let (x, s') := m s in f x s'.

Variables (accountID : Z) (sessionHash modelCategory requestID : string).
Variables (rangeStart rangeSize maxParallel : Z).

Definition acquired (slot : Z) : SessionSlotResult :=
  {| Acquired := true; SlotIndex := slot;
     ReleaseFunc :=
       Some (releaseSession accountID slot sessionHash modelCategory) |}.

(** [for offset := 1; offset < rangeSize; offset++]: [remaining] counts
    the iterations still to run. *)
Fixpoint fallback (targetSlotInRange targetSlot : Z) (remaining : nat)
  (offset : Z) : M (goResult SessionSlotResult) :=
  match remaining with
  | O =>
      mret (Ok {| Acquired := false; SlotIndex := targetSlot;
                  ReleaseFunc := None |})
  | Datatypes.S remaining' =>
      let fallbackSlotInRange :=
        rem (add targetSlotInRange offset) rangeSize in
      let fallbackSlot := add rangeStart fallbackSlotInRange in
      r ← (AcquireSlotWithSession accountID fallbackSlot sessionHash
             maxParallel requestID modelCategory : M _);
      match r with
      | Err _ =>
          fallback targetSlotInRange targetSlot remaining' (add offset 1)
      | Ok true =>
          (SetSessionSlot accountID sessionHash fallbackSlot : M _);;
          mret (Ok (acquired fallbackSlot))
      | Ok false =>
          fallback targetSlotInRange targetSlot remaining' (add offset 1)
      end
  end.

(** Steps 3 to 6: hash into the range, try the target, then scan. *)
Definition selectInRange : M (goResult SessionSlotResult) :=
  let targetSlotInRange := hashToSlotIndex sessionHash rangeSize in
  let targetSlot := add rangeStart targetSlotInRange in
  r ← (AcquireSlotWithSession accountID targetSlot sessionHash
         maxParallel requestID modelCategory : M _);
  match r with
  | Err e => mret (Err ("acquire target slot failed: " +:+ e))
  | Ok true =>
      (SetSessionSlot accountID sessionHash targetSlot : M _);;
      mret (Ok (acquired targetSlot))
  | Ok false =>
      fallback targetSlotInRange targetSlot (Z.to_nat (rangeSize - 1)) 1
  end.

(** Steps 1 and 2: an existing binding inside the range is tried
    first. *)
Definition tryBound (rangeEnd : Z) : M (goResult SessionSlotResult) :=
  r ← (GetSessionSlot accountID sessionHash : M _);
  let boundSlot := match r with Ok slot => slot | Err _ => -1 end in
  if 0 <=? boundSlot then
    if (rangeStart <=? boundSlot) && (boundSlot <? rangeEnd) then
      a ← (AcquireSlotWithSession accountID boundSlot sessionHash
             maxParallel requestID modelCategory : M _);
      match a with
      | Err e => mret (Err ("acquire bound slot failed: " +:+ e))
      | Ok true =>
          (RefreshSessionSlotTTL accountID sessionHash : M _);;
          mret (Ok (acquired boundSlot))
      | Ok false => selectInRange
      end
    else selectInRange
  else selectInRange.
End AcquireSessionSlot.

(** [cacheIsNil] is [s.cache == nil]; [requestID] is the value drawn by
    [generateRequestID]. *)
Definition AcquireSessionSlot {S : Type} `{ConcurrencyCache S}
  (cacheIsNil : bool) (requestID : string)
  (accountID maxConcurrency : Z) (sessionHash modelCategory : string)
  : M (goResult SessionSlotResult) :=
  if cacheIsNil then mret (Ok noLimit)
  else if maxConcurrency <=? 0 then mret (Ok noLimit)
  else
    let totalSlots := CalculateTotalSlots maxConcurrency in
    let '(rangeStart, rangeEnd) := categoryRange modelCategory totalSlots in
    let rangeSize := sub rangeEnd rangeStart in
    if rangeSize <=? 0 then
      mret (Ok {| Acquired := false; SlotIndex := -1; ReleaseFunc := None |})
    else
      let maxParallel := categoryMaxParallel modelCategory in
      tryBound accountID sessionHash modelCategory requestID
        rangeStart rangeSize maxParallel rangeEnd.

(** Calling a release closure. *)
Definition runRelease {S : Type} `{ConcurrencyCache S} (f : releaseFunc)
  : M unit :=
  match f with
  | releaseNop => mret tt
  | releaseSession accountID slot sessionHash releaseMC =>
      (ReleaseSlotWithSession accountID slot sessionHash releaseMC : M _);;
      mret tt
  end.

End Service.

(** ** The cache over the store, as the service uses it *)

Module RedisCache.
Import Redis Scripts Service.

(** The server: the store and its clock. *)
Record server := Server { sdb : db; sclock : Z }.

Definition run {A} (script : Z -> Lua A) : server -> goResult A * server :=
  fun s =>
    let (r, d) := script (sclock s) (sdb s) in
    (Ok r, {| sdb := d; sclock := sclock s |}).

(** Time passes between two calls. *)
Definition tick (dt : Z) (s : server) : server :=
  {| sdb := sdb s; sclock := sclock s + dt |}.

Record redisCache := RedisCacheOf
  { cfg : concurrencyCache; sessionSlotTTLSeconds : Z }.

Definition sessionSlotKey (accountID : Z) (sessionHash : string) : string :=
  "session_slot:" +:+ pretty accountID +:+ ":" +:+ sessionHash.

Section Methods.
Variable c : redisCache.

(** Modelled from the spec: the binding methods [GetSessionSlot],
    [SetSessionSlot] and [RefreshSessionSlotTTL] of the cache (only
    their declarations in the interface are among the sources): the
    binding is a single integer slot index with a time to live, under
    [session_slot:{accountID}:{sessionHash}]; no binding reads as -1. *)
Definition GetSessionSlot_redis (accountID : Z) (sessionHash : string)
  (now : Z) : Lua Z :=
  v ← GET_int now (sessionSlotKey accountID sessionHash);
  mret (default (-1) v).

Definition SetSessionSlot_redis (accountID : Z) (sessionHash : string)
  (slotIndex : Z) (now : Z) : Lua unit :=
  SET_int_EX now (sessionSlotKey accountID sessionHash) slotIndex
    (sessionSlotTTLSeconds c).

Definition RefreshSessionSlotTTL_redis (accountID : Z)
  (sessionHash : string) (now : Z) : Lua unit :=
  EXPIRE_int now (sessionSlotKey accountID sessionHash)
    (sessionSlotTTLSeconds c).

(** Modelled from the spec: the methods [AcquireSlotWithSession] and
    [ReleaseSlotWithSession] with the [maxParallel] and
    [modelCategory] arguments of the interface (the sources have the
    scripts and the methods of the earlier interface, which fix
    [maxParallel] to [haikuMaxParallel]): the caller's [maxParallel]
    is the script's ARGV[4]. *)
Definition AcquireSlotWithSession_redis (accountID slotIndex : Z)
  (sessionHash : string) (maxParallel : Z)
  (requestID modelCategory : string) (now : Z) : Lua bool :=
  let ownerKey := slotOwnerKey accountID slotIndex in
  let slotKey := accountSlotKey accountID in
  result ← acquireSlotWithSessionScript ownerKey slotKey
             (slotTTLSeconds (cfg c)) slotIndex sessionHash maxParallel
             requestID now;
  mret (result =? 1).

Definition ReleaseSlotWithSession_redis (accountID slotIndex : Z)
  (sessionHash modelCategory : string) (now : Z) : Lua unit :=
  Scripts.ReleaseSlotWithSession accountID slotIndex sessionHash now.

Definition cacheOf : ConcurrencyCache server :=
  {| GetSessionSlot a h := run (GetSessionSlot_redis a h);
     SetSessionSlot a h i := run (SetSessionSlot_redis a h i);
     RefreshSessionSlotTTL a h := run (RefreshSessionSlotTTL_redis a h);
     AcquireSlotWithSession a i h p r m :=
       run (AcquireSlotWithSession_redis a i h p r m);
     ReleaseSlotWithSession a i h m :=
       run (ReleaseSlotWithSession_redis a i h m) |}.
End Methods.

(** [AcquireSessionSlot] of a service built on this cache. *)
Definition AcquireSessionSlotOn (c : redisCache) (requestID : string)
  (accountID maxConcurrency : Z) (sessionHash modelCategory : string)
  : server -> goResult SessionSlotResult * server :=
  @AcquireSessionSlot server (cacheOf c) false requestID accountID
    maxConcurrency sessionHash modelCategory.

(** [occupied]: the number of members of the account's slot set. *)
Definition occupied (accountID : Z) (s : server) : Z :=
  Z.of_nat (size (zread (sclock s) (accountSlotKey accountID) (sdb s))).

End RedisCache.

(** ** The gateway handler *)

Module Handler.
Import GoInt Service.

Definition defaultAccountMaxRPM : Z := 4.
Definition rpmWindowSeconds : Z := 60.

(** What [WaitForRPMSlot] does next: return at once, or block in
    [waitWithPing] for a duration (milliseconds). *)
Inductive rpmWait : Type :=
| returnNow
| waitWithPing (durationMs : Z).

(** [serviceIsNil] is [h.concurrencyService == nil]; [accountRPM] and
    [oldestRequestTime] are the answers of [GetAccountRPM] and
    [GetAccountOldestRequestTime]; [nowMs] is [time.Now().UnixMilli()]. *)
Definition WaitForRPMSlot (serviceIsNil : bool) (maxRPM : Z)
  (accountRPM oldestRequestTime : goResult Z) (nowMs : Z) : rpmWait :=
  if serviceIsNil then returnNow
  else
    let effectiveMaxRPM :=
      if maxRPM <=? 0 then defaultAccountMaxRPM else maxRPM in
    match accountRPM with
    | Err _ => returnNow
    | Ok currentRPM =>
        if currentRPM <? effectiveMaxRPM then returnNow
        else
          match oldestRequestTime with
          | Err _ => waitWithPing 5000
          | Ok oldestTime =>
              if oldestTime =? 0 then waitWithPing 5000
              else
                let expireMs := add oldestTime (rpmWindowSeconds * 1000) in
                let waitMs := sub expireMs nowMs in
                if waitMs <=? 0 then returnNow
                else
                  let waitMs :=
                    if rpmWindowSeconds * 1000 <? waitMs
                    then rpmWindowSeconds * 1000 else waitMs in
                  waitWithPing waitMs
          end
    end.

Definition StatusForbidden : Z := 403.
Definition StatusTooManyRequests : Z := 429.
Definition StatusBadGateway : Z := 502.
Definition StatusServiceUnavailable : Z := 503.

Definition mapUpstreamError (statusCode : Z) : Z * string * string :=
  if statusCode =? 401 then
    (StatusBadGateway, "upstream_error",
     "Upstream authentication failed, please contact administrator")
  else if statusCode =? 403 then
    (StatusBadGateway, "upstream_error",
     "Upstream access forbidden, please contact administrator")
  else if statusCode =? 429 then
    (StatusTooManyRequests, "rate_limit_error",
     "Upstream rate limit exceeded, please retry later")
  else if statusCode =? 529 then
    (StatusServiceUnavailable, "overloaded_error",
     "Upstream service overloaded, please retry later")
  else if (statusCode =? 500) || (statusCode =? 502)
          || (statusCode =? 503) || (statusCode =? 504) then
    (StatusBadGateway, "upstream_error",
     "Upstream service temporarily unavailable")
  else (StatusBadGateway, "upstream_error", "Upstream request failed").

(** What the client receives. *)
Inductive response : Type :=
| jsonError (status : Z) (errType message : string)
| sseError (errType message : string)
| served
| writtenElsewhere.

(** Once the stream has started the status line is gone: the error is
    sent as an SSE event. *)
Definition handleStreamingAwareError (status : Z) (errType message : string)
  (streamStarted : bool) : response :=
  if streamStarted then sseError errType message
  else jsonError status errType message.

Definition handleFailoverExhausted (statusCode : Z) (streamStarted : bool)
  : response :=
  let '(status, errType, errMsg) := mapUpstreamError statusCode in
  handleStreamingAwareError status errType errMsg streamStarted.

Record gatewayConfig := GatewayConfig
  { MaxAccountSwitches : Z; MaxAccountSwitchesGemini : Z }.

Record GatewayHandler := GatewayHandlerOf
  { maxAccountSwitches : Z; maxAccountSwitchesGemini : Z }.

(** The budgets set by [NewGatewayHandler]; [None] is a nil [cfg]. *)
Definition NewGatewayHandler (cfg : option gatewayConfig) : GatewayHandler :=
  let maxAccountSwitches := 10 in
  let maxAccountSwitchesGemini := 3 in
  match cfg with
  | None =>
      {| maxAccountSwitches := maxAccountSwitches;
         maxAccountSwitchesGemini := maxAccountSwitchesGemini |}
  | Some cfg =>
      {| maxAccountSwitches :=
           if 0 <? MaxAccountSwitches cfg then MaxAccountSwitches cfg
           else maxAccountSwitches;
         maxAccountSwitchesGemini :=
           if 0 <? MaxAccountSwitchesGemini cfg
           then MaxAccountSwitchesGemini cfg
           else maxAccountSwitchesGemini |}
  end.

(** The collaborators of the failover loop of [Messages]. *)
Inductive selectResult : Type :=
| selectClaudeCodeOnly
| selectFailed (err : string)
| selected (account : Z).

Inductive forwardResult : Type :=
| forwardOk
| forwardFailover (statusCode : Z)
| forwardOther.

(** One pass from the selection to the forwarder: the request is either
    answered on the way (mutex or slot wait failed, synthetic response,
    client gone) or forwarded. *)
Inductive attempt : Type :=
| answered (r : response)
| forwarded (r : forwardResult).

(** The [n]-th pass of the loop: the selector is given the failed set. *)
Record upstream := Upstream
  { SelectAccountWithLoadAwareness : nat -> gset Z -> selectResult;
    pass : nat -> Z -> attempt;
    streamStarted : nat -> bool }.

Record outcome := Outcome
  { reply : response;
    switchCount : Z;
    failedAccountIDs : gset Z;
    lastFailoverStatus : Z;
    (** every call of the selector: the failed set it was given and what
        it answered *)
    selectorCalls : list (gset Z * selectResult) }.

Section FailoverLoop.
Variable u : upstream.
Variable maxSwitches : Z.

(** The [for] loop of [Messages]; [n] counts the passes made so far. *)
Fixpoint failoverLoop (fuel : nat) (n : nat) (switches : Z)
  (failed : gset Z) (lastStatus : Z) (calls : list (gset Z * selectResult))
  : option outcome :=
  match fuel with
  | O => None
  | S fuel' =>
      let selection := SelectAccountWithLoadAwareness u n failed in
      let calls := calls ++ [(failed, selection)] in
      let finish r :=
        Some {| reply := r; switchCount := switches;
                failedAccountIDs := failed;
                lastFailoverStatus := lastStatus; selectorCalls := calls |} in
      match selection with
      | selectClaudeCodeOnly =>
          finish (handleStreamingAwareError StatusForbidden "access_denied"
                    "This group only allows Claude Code clients. Please use the official Claude Code CLI."
                    (streamStarted u n))
      | selectFailed err =>
          if (size failed =? 0)%nat then
            finish (handleStreamingAwareError StatusServiceUnavailable
                      "api_error" ("No available accounts: " +:+ err)
                      (streamStarted u n))
          else finish (handleFailoverExhausted lastStatus (streamStarted u n))
      | selected account =>
          match pass u n account with
          | answered r => finish r
          | forwarded forwardOk => finish served
          | forwarded forwardOther => finish writtenElsewhere
          | forwarded (forwardFailover statusCode) =>
              let failed := {[account]} ∪ failed in
              let lastStatus := statusCode in
              if maxSwitches <=? switches then
                Some {| reply :=
                          handleFailoverExhausted lastStatus (streamStarted u n);
                        switchCount := switches;
                        failedAccountIDs := failed;
                        lastFailoverStatus := lastStatus;
                        selectorCalls := calls |}
              else
                failoverLoop fuel' (S n) (add switches 1) failed lastStatus
                  calls
          end
      end
  end.

(** The loop as [Messages] starts it. *)
Definition runFailover (fuel : nat) : option outcome :=
  failoverLoop fuel 0%nat 0 ∅ 0 [].
End FailoverLoop.

End Handler.

(** ** Observations

    What the properties below read off the store. *)

Module Observe.
Import GoInt Slots Redis Scripts Handler.

(** The largest concurrency whose [concurrency*4 + 2] fits an [int]. *)
Definition maxSizedConcurrency : Z := 2305843009213693951.

(** The value a wait counter reads as: an absent key counts as 0. *)
Definition waitCount (now : Z) (key : string) (d : db) : Z :=
  default 0 (kget now key (ints d)).

(** The deadline of a live key, if it has one. *)
Definition waitDeadline (now : Z) (key : string) (d : db) : option Z :=
  kfind now key (ints d) ≫= kdeadline.

(** The request holding the mutex of a session, if any. *)
Definition mutexHolder (now accountID : Z) (sessionHash : string) (d : db)
  : option string :=
  kget now (sessionMutexKey accountID sessionHash) (strs d).

(** The owner hash of a slot. *)
Definition slotOwner (now accountID slotIndex : Z) (d : db) : ownerHash :=
  hread now (slotOwnerKey accountID slotIndex) d.

(** The script's test [expireAt > 0 and expireAt < now]. *)
Definition ownerExpired (now : Z) (h : ownerHash) : bool :=
  (0 <? default 0 (expire h)) && (default 0 (expire h) <? now).

(** The session that owns a slot and the number of requests it has
    there, as the acquire script sees them: none when the record is
    absent, expired, without owner or with count 0. *)
Definition ownedBy (now : Z) (h : ownerHash) : option (string * Z) :=
  if ownerExpired now h then None
  else match owner h with
       | Some o =>
           if default 0 (count h) =? 0 then None
           else Some (o, default 0 (count h))
       | None => None
       end.

(** The writes of the script's three branches: dropping an expired
    owner record, claiming a free slot, and joining one's own slot. *)
Definition expiryCleanup (ownerKey slotKey : string) (slotIndex now : Z)
  (d : db) : db :=
  (ZREM now slotKey (slotID slotIndex) (DEL_hash ownerKey d).2).2.

Definition claimWrites (ownerKey slotKey : string) (ttl slotIndex : Z)
  (sessionHash : string) (now : Z) (d : db) : db :=
  (EXPIRE_zset now slotKey ttl
     (ZADD now slotKey now (slotID slotIndex)
        (EXPIRE_hash now ownerKey ttl
           (HSET_owner_count_expire now ownerKey sessionHash 1 (now + ttl) d).2).2).2).2.

Definition joinWrites (ownerKey slotKey : string) (ttl slotIndex now : Z)
  (d : db) : db :=
  (EXPIRE_zset now slotKey ttl
     (ZADD now slotKey now (slotID slotIndex)
        (EXPIRE_hash now ownerKey ttl
           (HSET_expire now ownerKey (now + ttl)
              (HINCRBY_count now ownerKey 1 d).2).2).2).2).2.

(** The sum of the bytes of a string, as a mathematical integer. *)
Definition byteTotal (s : string) : Z := foldr Z.add 0 (bytes s).

(** The slot at [offset] from the session's hash position inside a range:
    offset 0 is the preferred slot. *)
Definition scanSlot (rangeStart rangeSize : Z) (sessionHash : string)
  (offset : Z) : Z :=
  rangeStart + (byteTotal sessionHash mod rangeSize + offset) mod rangeSize.

(** A cache that also records, in call order, the slot of every
    [AcquireSlotWithSession] it is asked for. *)
Definition recording {S : Type} (I : Service.ConcurrencyCache S)
  : Service.ConcurrencyCache (S * list Z) :=
  {| Service.GetSessionSlot a h sl :=
       let (r, s') := Service.GetSessionSlot a h sl.1 in (r, (s', sl.2));
     Service.SetSessionSlot a h i sl :=
       let (r, s') := Service.SetSessionSlot a h i sl.1 in (r, (s', sl.2));
     Service.RefreshSessionSlotTTL a h sl :=
       let (r, s') := Service.RefreshSessionSlotTTL a h sl.1 in (r, (s', sl.2));
     Service.AcquireSlotWithSession a i h p r m sl :=
       let (x, s') := Service.AcquireSlotWithSession a i h p r m sl.1 in
       (x, (s', sl.2 ++ [i]));
     Service.ReleaseSlotWithSession a i h m sl :=
       let (r, s') := Service.ReleaseSlotWithSession a i h m sl.1 in
       (r, (s', sl.2)) |}.

(** [sub] occurs in [model] as a substring. *)
Definition occursIn (sub model : string) : Prop :=
  exists pre post : list ascii,
    list_ascii_of_string model = pre ++ list_ascii_of_string sub ++ post.

(** The slot a session is bound to on the store, if any. *)
Definition boundSlotOf (now accountID : Z) (sessionHash : string) (d : db)
  : option Z :=
  kget now (RedisCache.sessionSlotKey accountID sessionHash) (ints d).

(** The accounts the selector chose in a list of its calls. *)
Definition chosen (calls : list (gset Z * selectResult)) : gset Z :=
  foldr (fun call acc =>
           match call.2 with
           | selected account => {[account]} ∪ acc
           | _ => acc
           end) ∅ calls.

(** What holds of the calls made before a pass of the loop: each chose an
    account, was answered by a failover error, and was given exactly the
    accounts chosen before it. *)
Definition failedSoFar (u : upstream) (maxSwitches : Z) (n : nat) (switches : Z) (failed : gset Z)
  (calls : list (gset Z * selectResult)) : Prop :=
  length calls = n /\ switches = Z.of_nat n /\ switches <= maxSwitches /\
  failed = chosen calls /\
  forall i f r, calls !! i = Some (f, r) ->
    f = chosen (take i calls) /\
    exists account statusCode,
      r = selected account /\
      pass u i account = forwarded (forwardFailover statusCode).

(** What holds of the calls at the end. *)
Definition failoverTrace (u : upstream) (maxSwitches : Z) (o : outcome)
  : Prop :=
  let calls := selectorCalls o in
  0 <= switchCount o <= maxSwitches /\
  length calls = Z.to_nat (switchCount o + 1) /\
  (forall i f r, calls !! i = Some (f, r) -> f = chosen (take i calls)) /\
  (forall i f r, calls !! i = Some (f, r) ->
     (Datatypes.S i < length calls)%nat ->
     exists account statusCode,
       r = selected account /\
       pass u i account = forwarded (forwardFailover statusCode)) /\
  (forall f r, list.last calls = Some (f, r) ->
     let n := Z.to_nat (switchCount o) in
     match r with
     | selectClaudeCodeOnly =>
         reply o = handleStreamingAwareError StatusForbidden "access_denied"
                     "This group only allows Claude Code clients. Please use the official Claude Code CLI."
                     (streamStarted u n)
     | selectFailed err =>
         reply o =
           if (size f =? 0)%nat
           then handleStreamingAwareError StatusServiceUnavailable "api_error"
                  ("No available accounts: " +:+ err) (streamStarted u n)
           else handleFailoverExhausted (lastFailoverStatus o)
                  (streamStarted u n)
     | selected account =>
         match pass u n account with
         | answered r' => reply o = r'
         | forwarded forwardOk => reply o = served
         | forwarded forwardOther => reply o = writtenElsewhere
         | forwarded (forwardFailover statusCode) =>
             switchCount o = maxSwitches /\
             lastFailoverStatus o = statusCode /\
             reply o = handleFailoverExhausted statusCode (streamStarted u n)
         end
     end).

(** The slot a call of [AcquireSessionSlot] was admitted to, if it was. *)
Definition admitted (r : Service.goResult Service.SessionSlotResult) : option Z :=
  match r with
  | Service.Ok x =>
      if Service.Acquired x then Some (Service.SlotIndex x) else None
  | Service.Err _ => None
  end.

(** Whether a slot is marked in the account's slot set. *)
Definition slotMarked (now accountID slotIndex : Z) (d : db) : bool :=
  bool_decide (is_Some (zread now (accountSlotKey accountID) d !! slotID slotIndex)).

(** A slot that is occupied for the heavy and medium categories: a live
    owner holds it with at least one request, or it has no owner but is
    marked in the slot set. *)
Definition slotBusy (now accountID slotIndex : Z) (d : db) : bool :=
  let h := slotOwner now accountID slotIndex d in
  match ownedBy now h with
  | Some (_, n) => 1 <=? n
  | None => negb (ownerExpired now h) && slotMarked now accountID slotIndex d
  end.

End Observe.

(** ** The cache: slots by index, ranges, and the batch query

    The remaining scripts of the repository's concurrency cache.  Lua
    numbers are doubles: the slot indices, counts and times the scripts
    compute with are integers far below 2^53, where the arithmetic is
    exact, and [..] writes such a number in decimal. *)

Module Repository.
Import GoInt Redis Scripts.

Definition acquireSlotByIndexScript (key : string) (ttl slotIndex : Z)
  (now : Z) : Lua Z :=
  let slotID := slotID slotIndex in
  let expireBefore := now - ttl in
  ZREMRANGEBYSCORE now key expireBefore;;
  exists_ ← ZSCORE now key slotID;
  match exists_ with
  | Some _ => mret 0
  | None =>
      ZADD now key now slotID;;
      EXPIRE_zset now key ttl;;
      mret 1
  end.

Definition cleanupExpiredSlotsScript (key : string) (ttl : Z) (now : Z)
  : Lua Z :=
  let expireBefore := now - ttl in
  ZREMRANGEBYSCORE now key expireBefore.

(** [for i = first, last do if i ~= targetSlot then ... end end]:
    [remaining] counts the iterations still to run. *)
Fixpoint scanFreeSlot (key : string) (ttl targetSlot now : Z)
  (remaining : nat) (i : Z) : Lua Z :=
  match remaining with
  | O => mret (-1)
  | S remaining' =>
      if i =? targetSlot then
        scanFreeSlot key ttl targetSlot now remaining' (i + 1)
      else
        slotExists ← ZSCORE now key (slotID i);
        match slotExists with
        | None =>
            ZADD now key now (slotID i);;
            EXPIRE_zset now key ttl;;
            mret i
        | Some _ => scanFreeSlot key ttl targetSlot now remaining' (i + 1)
        end
  end.

Definition acquireSlotWithFallbackScript (key : string)
  (ttl targetSlot maxConcurrency : Z) (now : Z) : Lua Z :=
  let expireBefore := now - ttl in
  ZREMRANGEBYSCORE now key expireBefore;;
  exists_ ← ZSCORE now key (slotID targetSlot);
  match exists_ with
  | None =>
      ZADD now key now (slotID targetSlot);;
      EXPIRE_zset now key ttl;;
      mret targetSlot
  | Some _ =>
      scanFreeSlot key ttl targetSlot now (Z.to_nat maxConcurrency) 0
  end.

Definition acquireSlotInRangeScript (key : string)
  (ttl targetSlot rangeStart rangeEnd : Z) (now : Z) : Lua Z :=
  let expireBefore := now - ttl in
  ZREMRANGEBYSCORE now key expireBefore;;
  let scan :=
    scanFreeSlot key ttl targetSlot now (Z.to_nat (rangeEnd - rangeStart))
      rangeStart in
  if (rangeStart <=? targetSlot) && (targetSlot <? rangeEnd) then
    exists_ ← ZSCORE now key (slotID targetSlot);
    match exists_ with
    | None =>
        ZADD now key now (slotID targetSlot);;
        EXPIRE_zset now key ttl;;
        mret targetSlot
    | Some _ => scan
    end
  else scan.

Record AccountWithConcurrency := AccountWithConcurrencyOf
  { ID : Z; MaxConcurrency : Z }.

Record AccountLoadInfo := AccountLoadInfoOf
  { AccountID : Z; CurrentConcurrency : Z; WaitingCount : Z; LoadRate : Z }.

(** The [while i <= #ARGV] loop over the (accountID, maxConcurrency)
    pairs; the reply is the flat table the script builds. *)
Fixpoint getAccountsLoadBatchScript (slotTTL : Z)
  (args : list AccountWithConcurrency) (now : Z) : Lua (list Z) :=
  match args with
  | [] => mret []
  | acc :: args' =>
      let cutoffTime := now - slotTTL in
      let slotKey := "concurrency:account:" +:+ pretty (ID acc) in
      ZREMRANGEBYSCORE now slotKey cutoffTime;;
      currentConcurrency ← ZCARD now slotKey;
      let waitKey := "wait:account:" +:+ pretty (ID acc) in
      waitingCount ← GET_int now waitKey;
      let waitingCount := default 0 waitingCount in
      let loadRate :=
        if 0 <? MaxConcurrency acc then
          (currentConcurrency + waitingCount) * 100 / MaxConcurrency acc
        else 0 in
      rest ← getAccountsLoadBatchScript slotTTL args' now;
      mret (ID acc :: currentConcurrency :: waitingCount :: loadRate :: rest)
  end.

(** [for i := 0; i < len(result); i += 4], stopping at a short tail.
    The reply's entries are carried as integers: [ParseInt] and [Atoi]
    read back the decimal strings the reply is printed to. *)
Fixpoint loadMapOf (result : list Z) (loadMap : gmap Z AccountLoadInfo)
  {struct result} : gmap Z AccountLoadInfo :=
  match result with
  | accountID :: currentConcurrency :: waitingCount :: loadRate :: result' =>
      loadMapOf result'
        (<[accountID := {| AccountID := accountID;
                           CurrentConcurrency := currentConcurrency;
                           WaitingCount := waitingCount;
                           LoadRate := loadRate |}]> loadMap)
  | _ => loadMap
  end.

Section Methods.
Variable c : concurrencyCache.

Definition AcquireAccountSlotByIndex (accountID slotIndex : Z) (now : Z)
  : Lua bool :=
  result ← acquireSlotByIndexScript (accountSlotKey accountID)
             (slotTTLSeconds c) slotIndex now;
  mret (result =? 1).

Definition ReleaseAccountSlotByIndex (accountID slotIndex : Z) (now : Z)
  : Lua unit :=
  ZREM now (accountSlotKey accountID) (slotID slotIndex).

Definition AcquireSlotWithFallback (accountID targetSlot maxConcurrency : Z)
  (now : Z) : Lua Z :=
  acquireSlotWithFallbackScript (accountSlotKey accountID) (slotTTLSeconds c)
    targetSlot maxConcurrency now.

Definition AcquireSlotInRange (accountID targetSlot rangeStart rangeEnd : Z)
  (now : Z) : Lua Z :=
  acquireSlotInRangeScript (accountSlotKey accountID) (slotTTLSeconds c)
    targetSlot rangeStart rangeEnd now.

Definition ReleaseUserSlot (userID : Z) (requestID : string) (now : Z)
  : Lua unit :=
  ZREM now (userSlotKey userID) requestID.

Definition GetUserConcurrency (userID : Z) (now : Z) : Lua Z :=
  getCountScript (userSlotKey userID) (slotTTLSeconds c) now.

(** A missing key ([redis.Nil]) counts as 0. *)
Definition GetAccountWaitingCount (accountID : Z) (now : Z) : Lua Z :=
  val ← GET_int now (accountWaitKey accountID);
  mret (default 0 val).

Definition CleanupExpiredAccountSlots (accountID : Z) (now : Z) : Lua unit :=
  cleanupExpiredSlotsScript (accountSlotKey accountID) (slotTTLSeconds c) now;;
  mret tt.

Definition GetAccountsLoadBatch (accounts : list AccountWithConcurrency)
  (now : Z) : Lua (gmap Z AccountLoadInfo) :=
  if (length accounts =? 0)%nat then mret ∅
  else
    result ← getAccountsLoadBatchScript (slotTTLSeconds c) accounts now;
    mret (loadMapOf result ∅).
End Methods.

End Repository.

(** ** The cache: request windows and the response end time

    The window methods take the client's clock ([time.Now().UnixMilli()],
    [nowMs]) for the scores and the cutoff; the key's time to live runs on
    the server's clock ([now], in seconds). *)

Module Windows.
Import GoInt Redis Scripts.

Definition slotResponseEndKeyPrefix : string := "slot_response_end:".
Definition slotResponseEndTTLSeconds : Z := 3600.
Definition rpmLimitKeyPrefix : string := "rpm_limit:".
Definition rpmWindowSeconds : Z := 60.
Definition rpmLimitTTL : Z := 120.
Definition rate30mKeyPrefix : string := "rate_30m:".
Definition rate30mWindowSeconds : Z := 1800.
Definition rate30mLimitTTL : Z := 3600.

Definition rpmLimitKey (accountID : Z) : string :=
  rpmLimitKeyPrefix +:+ pretty accountID.
Definition rate30mKey (accountID : Z) : string :=
  rate30mKeyPrefix +:+ pretty accountID.
Definition slotResponseEndKey (accountID slotIndex : Z) : string :=
  slotResponseEndKeyPrefix +:+ pretty accountID +:+ ":" +:+ pretty slotIndex.

(** [ZRANGE key 0 0 WITHSCORES]: the score of the first member in score
    order, if the set has one. *)
Definition lowestScore (m : gmap string Z) : option Z :=
  foldr (fun ms acc =>
           Some (match acc with
                 | None => ms.2
                 | Some low => Z.min ms.2 low
                 end))
        None (map_to_list m).

Definition ZRANGE_first_score (now : Z) (key : string) : Lua (option Z) :=
  fun d => (lowestScore (zread now key d), d).

(** The three commands of the pipeline, in order: the member is the
    timestamp printed in decimal, the score the timestamp. *)
Definition recordInWindow (key : string) (windowSeconds ttl : Z)
  (nowMs now : Z) : Lua unit :=
  let cutoff := sub nowMs (windowSeconds * 1000) in
  ZREMRANGEBYSCORE now key cutoff;;
  ZADD now key nowMs (pretty nowMs);;
  EXPIRE_zset now key ttl.

Definition countInWindow (key : string) (windowSeconds : Z) (nowMs now : Z)
  : Lua Z :=
  let cutoff := sub nowMs (windowSeconds * 1000) in
  ZREMRANGEBYSCORE now key cutoff;;
  ZCARD now key.

Definition RecordAccountRequest (accountID : Z) (nowMs now : Z) : Lua unit :=
  recordInWindow (rpmLimitKey accountID) rpmWindowSeconds rpmLimitTTL
    nowMs now.

Definition GetAccountRPM (accountID : Z) (nowMs now : Z) : Lua Z :=
  countInWindow (rpmLimitKey accountID) rpmWindowSeconds nowMs now.

(** 0 when the window holds no request. *)
Definition GetAccountOldestRequestTime (accountID : Z) (nowMs now : Z)
  : Lua Z :=
  let key := rpmLimitKey accountID in
  let cutoff := sub nowMs (rpmWindowSeconds * 1000) in
  ZREMRANGEBYSCORE now key cutoff;;
  result ← ZRANGE_first_score now key;
  match result with
  | None => mret 0
  | Some score => mret score
  end.

Definition RecordAccountRequest30m (accountID : Z) (nowMs now : Z)
  : Lua unit :=
  recordInWindow (rate30mKey accountID) rate30mWindowSeconds rate30mLimitTTL
    nowMs now.

Definition GetAccountRequestCount30m (accountID : Z) (nowMs now : Z)
  : Lua Z :=
  countInWindow (rate30mKey accountID) rate30mWindowSeconds nowMs now.

Definition SetSlotResponseEndTime (accountID slotIndex timestamp : Z)
  (now : Z) : Lua unit :=
  SET_int_EX now (slotResponseEndKey accountID slotIndex) timestamp
    slotResponseEndTTLSeconds.

(** 0 when there is no record. *)
Definition GetSlotResponseEndTime (accountID slotIndex : Z) (now : Z)
  : Lua Z :=
  result ← GET_int now (slotResponseEndKey accountID slotIndex);
  mret (default 0 result).

End Windows.

(** ** The concurrency service over the cache of the repository

    The service as it is written against the interface the repository's
    cache implements: slots by request, by index with fallback, by model
    pool, and the session-aware slot of the light models. *)

Module SlotService.
Import GoInt Slots Redis Service.

(** The methods of the [ConcurrencyCache] interface the functions below
    call, over a store of type [S]. *)
Module Cache.
Class ConcurrencyCache (S : Type) : Type :=
  { AcquireAccountSlot : Z -> Z -> string -> S -> goResult bool * S;
    ReleaseAccountSlot : Z -> string -> S -> goResult unit * S;
    GetAccountConcurrency : Z -> S -> goResult Z * S;
    ReleaseAccountSlotByIndex : Z -> Z -> S -> goResult unit * S;
    AcquireSlotWithFallback : Z -> Z -> Z -> S -> goResult Z * S;
    AcquireSlotInRange : Z -> Z -> Z -> Z -> S -> goResult Z * S;
    AcquireSessionMutex : Z -> string -> string -> S -> goResult bool * S;
    ReleaseSessionMutex : Z -> string -> string -> S -> goResult unit * S;
    AcquireSlotWithSession :
      Z -> Z -> string -> string -> S -> goResult bool * S;
    ReleaseSlotWithSession : Z -> Z -> string -> S -> goResult unit * S;
    AcquireUserSlot : Z -> Z -> string -> S -> goResult bool * S;
    ReleaseUserSlot : Z -> string -> S -> goResult unit * S;
    IncrementWaitCount : Z -> Z -> S -> goResult bool * S;
    GetAccountWaitingCount : Z -> S -> goResult Z * S }.
End Cache.

(** What a [ReleaseFunc] closure calls. *)
Inductive release : Type :=
| releaseNothing
| releaseAccountSlot (accountID : Z) (requestID : string)
| releaseUserSlot (userID : Z) (requestID : string)
| releaseSlotByIndex (accountID acquiredSlot : Z)
| releaseMutex (accountID : Z) (sessionHash requestID : string)
| releaseSessionSlot (accountID slot : Z) (sessionHash : string).

Record AcquireResult := AcquireResultOf
  { Acquired : bool; SlotIndex : Z; ReleaseFunc : option release }.

Record SessionMutexResult := SessionMutexResultOf
  { MutexAcquired : bool; RequestID : string;
    MutexReleaseFunc : option release }.

Definition defaultExtraWaitSlots : Z := 20.

Definition CalculateMaxWait (userConcurrency : Z) : Z :=
  let userConcurrency := if userConcurrency <=? 0 then 1 else userConcurrency in
  add userConcurrency defaultExtraWaitSlots.

(** [CalculateModelSlotRange] as this service has it: Opus : Sonnet =
    2 : 3. *)
Definition CalculateModelSlotRange (totalSlots : Z)
  : ModelSlotRange * ModelSlotRange :=
  if totalSlots <=? 0 then
    ({| Start := 0; End := 0 |}, {| Start := 0; End := 0 |})
  else if totalSlots =? 1 then
    ({| Start := 0; End := 1 |}, {| Start := 0; End := 1 |})
  else
    let opusSlots := div (mul totalSlots 2) 5 in
    let opusSlots := if opusSlots <? 1 then 1 else opusSlots in
    let opusSlots :=
      if totalSlots <=? opusSlots then sub totalSlots 1 else opusSlots in
    ({| Start := 0; End := opusSlots |},
     {| Start := opusSlots; End := totalSlots |}).

Definition unlimited : AcquireResult :=
  {| Acquired := true; SlotIndex := -1; ReleaseFunc := Some releaseNothing |}.

Section Service.
Context {S : Type} `{Cache.ConcurrencyCache S}.

(** [requestID] is the value drawn by [generateRequestID]. *)
Definition AcquireAccountSlot (requestID : string)
  (accountID maxConcurrency : Z) : M (goResult AcquireResult) :=
  if maxConcurrency <=? 0 then mret (Ok unlimited)
  else
    r ← (Cache.AcquireAccountSlot accountID maxConcurrency requestID : M _);
    match r with
    | Err e => mret (Err e)
    | Ok true =>
        mret (Ok {| Acquired := true; SlotIndex := -1;
                    ReleaseFunc :=
                      Some (releaseAccountSlot accountID requestID) |})
    | Ok false =>
        mret (Ok {| Acquired := false; SlotIndex := -1;
                    ReleaseFunc := None |})
    end.

Definition AcquireUserSlot (requestID : string) (userID maxConcurrency : Z)
  : M (goResult AcquireResult) :=
  if maxConcurrency <=? 0 then mret (Ok unlimited)
  else
    r ← (Cache.AcquireUserSlot userID maxConcurrency requestID : M _);
    match r with
    | Err e => mret (Err e)
    | Ok true =>
        mret (Ok {| Acquired := true; SlotIndex := -1;
                    ReleaseFunc := Some (releaseUserSlot userID requestID) |})
    | Ok false =>
        mret (Ok {| Acquired := false; SlotIndex := -1;
                    ReleaseFunc := None |})
    end.

Definition AcquireAccountSlotByIndex (accountID maxConcurrency : Z)
  (sessionHash : string) : M (goResult AcquireResult) :=
  if maxConcurrency <=? 0 then mret (Ok unlimited)
  else
    let targetSlot := hashToSlotIndex sessionHash maxConcurrency in
    r ← (Cache.AcquireSlotWithFallback accountID targetSlot maxConcurrency : M _);
    match r with
    | Err e => mret (Err e)
    | Ok acquiredSlot =>
        if 0 <=? acquiredSlot then
          mret (Ok {| Acquired := true; SlotIndex := acquiredSlot;
                      ReleaseFunc :=
                        Some (releaseSlotByIndex accountID acquiredSlot) |})
        else
          mret (Ok {| Acquired := false; SlotIndex := targetSlot;
                      ReleaseFunc := None |})
    end.

Definition AcquireAccountSlotByModel (accountID maxConcurrency : Z)
  (sessionHash modelCategory : string) : M (goResult AcquireResult) :=
  if maxConcurrency <=? 0 then mret (Ok unlimited)
  else
    let '(opusRange, sonnetRange) := CalculateModelSlotRange maxConcurrency in
    let slotRange :=
      if String.eqb modelCategory "opus" then Some opusRange
      else if String.eqb modelCategory "sonnet" then Some sonnetRange
      else None in
    match slotRange with
    | None =>
        mret (Err ("unsupported model category for slot pool: "
                   +:+ modelCategory))
    | Some slotRange =>
        let rangeSize := sub (End slotRange) (Start slotRange) in
        if rangeSize <=? 0 then
          mret (Ok {| Acquired := false; SlotIndex := -1;
                      ReleaseFunc := None |})
        else
          let targetSlotInRange := hashToSlotIndex sessionHash rangeSize in
          let targetSlot := add (Start slotRange) targetSlotInRange in
          r ← (Cache.AcquireSlotInRange accountID targetSlot (Start slotRange)
                 (End slotRange) : M _);
          match r with
          | Err e => mret (Err e)
          | Ok acquiredSlot =>
              if 0 <=? acquiredSlot then
                mret (Ok {| Acquired := true; SlotIndex := acquiredSlot;
                            ReleaseFunc :=
                              Some (releaseSlotByIndex accountID
                                      acquiredSlot) |})
              else
                mret (Ok {| Acquired := false; SlotIndex := targetSlot;
                            ReleaseFunc := None |})
          end
    end.

(** [cacheIsNil] is [s.cache == nil]. *)
Definition AcquireSessionMutex (cacheIsNil : bool) (requestID : string)
  (accountID : Z) (sessionHash : string) : M (goResult SessionMutexResult) :=
  if cacheIsNil || String.eqb sessionHash "" then
    mret (Ok {| MutexAcquired := true; RequestID := "";
                MutexReleaseFunc := Some releaseNothing |})
  else
    r ← (Cache.AcquireSessionMutex accountID sessionHash requestID : M _);
    match r with
    | Err e => mret (Err ("acquire session mutex failed: " +:+ e))
    | Ok false =>
        mret (Ok {| MutexAcquired := false; RequestID := "";
                    MutexReleaseFunc := None |})
    | Ok true =>
        mret (Ok {| MutexAcquired := true; RequestID := requestID;
                    MutexReleaseFunc :=
                      Some (releaseMutex accountID sessionHash requestID) |})
    end.

Definition AcquireSlotForHaiku (cacheIsNil : bool) (requestID : string)
  (accountID maxConcurrency : Z) (sessionHash : string)
  : M (goResult AcquireResult) :=
  if cacheIsNil then mret (Ok unlimited)
  else if maxConcurrency <=? 0 then mret (Ok unlimited)
  else
    let targetSlot := hashToSlotIndex sessionHash maxConcurrency in
    r ← (Cache.AcquireSlotWithSession accountID targetSlot sessionHash requestID
           : M _);
    match r with
    | Err e => mret (Err ("acquire haiku slot failed: " +:+ e))
    | Ok true =>
        mret (Ok {| Acquired := true; SlotIndex := targetSlot;
                    ReleaseFunc :=
                      Some (releaseSessionSlot accountID targetSlot
                              sessionHash) |})
    | Ok false =>
        mret (Ok {| Acquired := false; SlotIndex := targetSlot;
                    ReleaseFunc := None |})
    end.

Definition AcquireSlotForHaikuByIndex (cacheIsNil : bool) (requestID : string)
  (accountID slotIndex : Z) (sessionHash : string)
  : M (goResult AcquireResult) :=
  if cacheIsNil then
    mret (Ok {| Acquired := true; SlotIndex := slotIndex;
                ReleaseFunc := Some releaseNothing |})
  else
    r ← (Cache.AcquireSlotWithSession accountID slotIndex sessionHash requestID
           : M _);
    match r with
    | Err e => mret (Err ("acquire haiku slot by index failed: " +:+ e))
    | Ok true =>
        mret (Ok {| Acquired := true; SlotIndex := slotIndex;
                    ReleaseFunc :=
                      Some (releaseSessionSlot accountID slotIndex
                              sessionHash) |})
    | Ok false =>
        mret (Ok {| Acquired := false; SlotIndex := slotIndex;
                    ReleaseFunc := None |})
    end.

(** The loop of [GetAccountConcurrencyBatch]: an error counts as 0. *)
Fixpoint concurrencyBatchLoop (accountIDs : list Z) (result : gmap Z Z)
  : M (gmap Z Z) :=
  match accountIDs with
  | [] => mret result
  | accountID :: rest =>
      r ← (Cache.GetAccountConcurrency accountID : M _);
      let count := match r with Ok count => count | Err _ => 0 end in
      concurrencyBatchLoop rest (<[accountID := count]> result)
  end.

Definition GetAccountConcurrencyBatch (accountIDs : list Z)
  : M (goResult (gmap Z Z)) :=
  result ← concurrencyBatchLoop accountIDs ∅;
  mret (Ok result).

(** Calling a [ReleaseFunc]: an error of the cache is logged, not
    returned. *)
Definition callRelease (f : release) : M unit :=
  match f with
  | releaseNothing => mret tt
  | releaseAccountSlot accountID requestID =>
      (Cache.ReleaseAccountSlot accountID requestID : M _);; mret tt
  | releaseUserSlot userID requestID =>
      (Cache.ReleaseUserSlot userID requestID : M _);; mret tt
  | releaseSlotByIndex accountID acquiredSlot =>
      (Cache.ReleaseAccountSlotByIndex accountID acquiredSlot : M _);; mret tt
  | releaseMutex accountID sessionHash requestID =>
      (Cache.ReleaseSessionMutex accountID sessionHash requestID : M _);; mret tt
  | releaseSessionSlot accountID slot sessionHash =>
      (Cache.ReleaseSlotWithSession accountID slot sessionHash : M _);; mret tt
  end.
End Service.

(** The cache of the repository as an implementation of the interface. *)
Definition redis (c : Scripts.concurrencyCache)
  : Cache.ConcurrencyCache RedisCache.server :=
  {| Cache.AcquireAccountSlot a m r := RedisCache.run (Scripts.AcquireAccountSlot c a m r);
     Cache.ReleaseAccountSlot a r := RedisCache.run (Scripts.ReleaseAccountSlot a r);
     Cache.GetAccountConcurrency a := RedisCache.run (Scripts.GetAccountConcurrency c a);
     Cache.ReleaseAccountSlotByIndex a i :=
       RedisCache.run (Repository.ReleaseAccountSlotByIndex a i);
     Cache.AcquireSlotWithFallback a t m :=
       RedisCache.run (Repository.AcquireSlotWithFallback c a t m);
     Cache.AcquireSlotInRange a t s e :=
       RedisCache.run (Repository.AcquireSlotInRange c a t s e);
     Cache.AcquireSessionMutex a h r := RedisCache.run (Scripts.AcquireSessionMutex a h r);
     Cache.ReleaseSessionMutex a h r := RedisCache.run (Scripts.ReleaseSessionMutex a h r);
     Cache.AcquireSlotWithSession a i h r :=
       RedisCache.run (Scripts.AcquireSlotWithSession c a i h r);
     Cache.ReleaseSlotWithSession a i h :=
       RedisCache.run (Scripts.ReleaseSlotWithSession a i h);
     Cache.AcquireUserSlot u m r := RedisCache.run (Scripts.AcquireUserSlot c u m r);
     Cache.ReleaseUserSlot u r := RedisCache.run (Repository.ReleaseUserSlot u r);
     Cache.IncrementWaitCount u m := RedisCache.run (Scripts.IncrementWaitCount c u m);
     Cache.GetAccountWaitingCount a :=
       RedisCache.run (Repository.GetAccountWaitingCount a) |}.

End SlotService.

(** ** The handler: model predicates, pacing and the 30-minute limit *)

Module Helper.
Import GoInt Slots Service Handler.

Definition IsOpusModel (model : string) : bool :=
  String.eqb (GetModelCategory model) ModelCategoryOpus.

Definition IsSonnetModel (model : string) : bool :=
  String.eqb (GetModelCategory model) ModelCategorySonnet.

(** [handleConcurrencyError]: always a 429. *)
Definition handleConcurrencyError (slotType : string) (streamStarted : bool)
  : response :=
  handleStreamingAwareError StatusTooManyRequests "rate_limit_error"
    ("Concurrency limit exceeded for " +:+ slotType
     +:+ ", please retry later") streamStarted.

Record RecordAccountRequestResult := RecordAccountRequestResultOf
  { ShouldPause : bool; RequestCount : Z }.

(** [RecordAccountRequest] of the helper, after its two recording calls
    (their errors are only logged): [count30m] is the answer of
    [GetAccountRequestCount30m], asked for only when a limit is set. *)
Definition RecordAccountRequest (serviceIsNil : bool) (max30mRequests : Z)
  (count30m : goResult Z) : RecordAccountRequestResult :=
  if serviceIsNil then {| ShouldPause := false; RequestCount := 0 |}
  else if max30mRequests <=? 0 then
    {| ShouldPause := false; RequestCount := 0 |}
  else
    match count30m with
    | Err _ => {| ShouldPause := false; RequestCount := 0 |}
    | Ok count30m =>
        if max30mRequests <=? count30m then
          {| ShouldPause := true; RequestCount := count30m |}
        else {| ShouldPause := false; RequestCount := count30m |}
    end.

(** [time.Second], in nanoseconds. *)
Definition Second : Z := 1000000000.

(** What [waitForUserInputPacing] does: return at once, or wait on a
    timer of the given duration (nanoseconds). *)
Inductive pacing : Type :=
| noPacing
| pacingTimer (actualWait : Z).

(** [lastResponseEnd] is the answer of [GetSlotResponseEndTime], [intn]
    the value drawn by [rand.Intn(maxWaitSeconds-minWaitSeconds+1)], [now]
    is [time.Now().Unix()]. *)
Definition waitForUserInputPacing (lastResponseEnd : goResult Z)
  (intn now : Z) : pacing :=
  match lastResponseEnd with
  | Err _ => noPacing
  | Ok lastResponseEnd =>
      if lastResponseEnd =? 0 then noPacing
      else
        let minWaitSeconds := 10 in
        let randomWaitSeconds := add minWaitSeconds intn in
        let randomWaitDuration := mul randomWaitSeconds Second in
        let elapsedSeconds := sub now lastResponseEnd in
        let elapsedDuration := mul elapsedSeconds Second in
        let actualWait := sub randomWaitDuration elapsedDuration in
        if actualWait <=? 0 then noPacing else pacingTimer actualWait
  end.

End Helper.

(** ** Groups: the model whitelist and the model mapping *)

Module Group.

Record Group := GroupOf
  { AllowedModels : list string; ModelMapping : gmap string string }.

Fixpoint inWhitelist (models : list string) (model : string) : bool :=
  match models with
  | [] => false
  | m :: models' => if String.eqb m model then true else inWhitelist models' model
  end.

Definition IsModelAllowed (g : Group) (model : string) : bool :=
  if (length (AllowedModels g) =? 0)%nat then true
  else inWhitelist (AllowedModels g) model.

Definition MapModel (g : Group) (model : string) : string :=
  if (size (ModelMapping g) =? 0)%nat then model
  else
    match ModelMapping g !! model with
    | Some mapped => if negb (String.eqb mapped "") then mapped else model
    | None => model
    end.

End Group.

(** * Properties *)

Import GoInt Slots Redis Service Scripts RedisCache Handler Observe.

(** ** Go arithmetic *)

Section GoIntFacts.

Lemma wrap_small x : MinInt <= x <= MaxInt -> wrap x = x.
Proof.
  unfold wrap, MinInt, MaxInt, intSize. intros Hx.
  rewrite Z.mod_small; lia.
Qed.

Lemma wrap_inRange x : inRange (wrap x).
Proof.
  unfold inRange, wrap, MinInt, MaxInt, intSize.
  pose proof (Z.mod_pos_bound (x + 2 ^ (64 - 1)) (2 ^ 64)). lia.
Qed.

Lemma add_small x y : MinInt <= x + y <= MaxInt -> add x y = x + y.
Proof. apply wrap_small. Qed.

Lemma sub_small x y : MinInt <= x - y <= MaxInt -> sub x y = x - y.
Proof. apply wrap_small. Qed.

Lemma div_nonneg x y :
  0 <= x <= MaxInt -> 0 < y -> div x y = x / y.
Proof.
  intros Hx Hy. unfold div. rewrite Z.quot_div_nonneg by lia.
  apply wrap_small. unfold MinInt, MaxInt, intSize in *.
  pose proof (Z.div_pos x y). pose proof (Z.div_le_upper_bound x y x).
  assert (x / y <= x) by (apply Z.div_le_upper_bound; nia). lia.
Qed.

Lemma rem_nonneg x y : 0 <= x -> 0 < y -> rem x y = x mod y.
Proof. intros. unfold rem. apply Z.rem_mod_nonneg; lia. Qed.

Lemma rem_bound x y : 0 <= x -> 0 < y -> 0 <= rem x y < y.
Proof. intros. rewrite rem_nonneg by lia. apply Z.mod_pos_bound. lia. Qed.
End GoIntFacts.

(** ** Slot pool sizing *)

Section SlotFacts.


Lemma CalculateTotalSlots_sized C :
  1 <= C <= maxSizedConcurrency -> CalculateTotalSlots C = (4 * C + 2) / 3.
Proof.
  unfold maxSizedConcurrency. intros HC. unfold CalculateTotalSlots.
  destruct (Z.leb_spec C 0); [lia|].
  unfold mul. rewrite (wrap_small (C * 4)) by (unfold MinInt, MaxInt, intSize; lia).
  rewrite add_small by (unfold MinInt, MaxInt, intSize; lia).
  rewrite div_nonneg by (unfold MaxInt, intSize; lia).
  f_equal. lia.
Qed.

Lemma CalculateTotalSlots_inRange C : inRange (CalculateTotalSlots C).
Proof.
  unfold CalculateTotalSlots. destruct (C <=? 0).
  - unfold inRange, MinInt, MaxInt, intSize. lia.
  - apply wrap_inRange.
Qed.

(** Whatever the concurrency, the pool is smaller than half the range of
    [int]: offsets into it never overflow. *)
Lemma CalculateTotalSlots_upper C : CalculateTotalSlots C <= 2 ^ 62.
Proof.
  unfold CalculateTotalSlots. destruct (C <=? 0); [lia|].
  unfold div. set (x := add (mul C 4) 2).
  assert (Hx : inRange x) by apply wrap_inRange.
  unfold inRange, MinInt, MaxInt, intSize in Hx.
  assert (Hq : - 2 ^ 63 <= Z.quot x 3 <= 2 ^ 62).
  { destruct (Z.le_gt_cases 0 x).
    - rewrite Z.quot_div_nonneg by lia.
      pose proof (Z.div_pos x 3).
      assert (x / 3 <= 2 ^ 62) by (apply Z.div_le_upper_bound; lia). lia.
    - rewrite <- (Z.opp_involutive x), Z.quot_opp_l by lia.
      rewrite Z.quot_div_nonneg by lia.
      pose proof (Z.div_pos (- x) 3).
      assert ((- x) / 3 <= 2 ^ 63) by (apply Z.div_le_upper_bound; lia).
      lia. }
  rewrite wrap_small by (unfold MinInt, MaxInt, intSize; lia). lia.
Qed.

Lemma CalculateModelSlotRange_split T :
  2 <= T <= MaxInt ->
  CalculateModelSlotRange T =
    ({| Start := 0; End := T / 2 |}, {| Start := T / 2; End := T |}).
Proof.
  intros HT. unfold CalculateModelSlotRange.
  destruct (Z.leb_spec T 0); [lia|].
  destruct (Z.eqb_spec T 1); [lia|].
  rewrite div_nonneg by lia.
  assert (1 <= T / 2) by (apply Z.div_le_lower_bound; lia).
  assert (T / 2 < T) by (apply Z.div_lt; lia).
  destruct (Z.ltb_spec (T / 2) 1); [lia|].
  destruct (Z.leb_spec T (T / 2)); [lia|]. reflexivity.
Qed.

Lemma CalculateModelSlotRange_one :
  CalculateModelSlotRange 1 =
    ({| Start := 0; End := 1 |}, {| Start := 0; End := 1 |}).
Proof. reflexivity. Qed.
End SlotFacts.

(** C6, as amended: for every concurrency C with
    1 <= C <= 2305843009213693951 (the values for which 4*C + 2 fits a
    64-bit int), CalculateTotalSlots(C) is the ceiling of 4*C/3; and for
    every total T (an int), CalculateModelSlotRange gives
    heavy = [0, floor(T/2)) and medium = [floor(T/2), T) when T >= 2, the
    single shared range [0, 1) to both when T = 1, and two non-empty
    ranges for every T >= 1. *)
Theorem slot_pool_sizing_and_split (C T : Z) :
  1 <= C <= maxSizedConcurrency ->
  1 <= T <= MaxInt ->
  (4 * C <= 3 * CalculateTotalSlots C < 4 * C + 3) /\
  (2 <= T ->
   CalculateModelSlotRange T =
     ({| Start := 0; End := T / 2 |}, {| Start := T / 2; End := T |})) /\
  (T = 1 ->
   CalculateModelSlotRange T =
     ({| Start := 0; End := 1 |}, {| Start := 0; End := 1 |})) /\
  (Start (CalculateModelSlotRange T).1 < End (CalculateModelSlotRange T).1 /\
   Start (CalculateModelSlotRange T).2 < End (CalculateModelSlotRange T).2).
Proof.
  intros HC HT. repeat split.
  - rewrite CalculateTotalSlots_sized by done.
    pose proof (Z.mul_div_le (4 * C + 2) 3).
    pose proof (Z.mod_pos_bound (4 * C + 2) 3).
    pose proof (Z.div_mod (4 * C + 2) 3).
    assert (Hm : (4 * C + 2) mod 3 <> 2 \/ (4 * C + 2) mod 3 = 2) by lia.
    lia.
  - rewrite CalculateTotalSlots_sized by done.
    pose proof (Z.mod_pos_bound (4 * C + 2) 3).
    pose proof (Z.div_mod (4 * C + 2) 3). lia.
  - intros H2. apply CalculateModelSlotRange_split. lia.
  - intros ->. reflexivity.
  - destruct (Z.eq_dec T 1) as [->|Hne]; [vm_compute; done|].
    rewrite CalculateModelSlotRange_split by lia. simpl.
    apply Z.div_str_pos. lia.
  - destruct (Z.eq_dec T 1) as [->|Hne]; [vm_compute; done|].
    rewrite CalculateModelSlotRange_split by lia. simpl.
    apply Z.div_lt; lia.
Qed.

Lemma slot_pool_sizing_and_split_witness :
  (4 * 6 <= 3 * CalculateTotalSlots 6 < 4 * 6 + 3) /\
  CalculateModelSlotRange 8 =
    ({| Start := 0; End := 4 |}, {| Start := 4; End := 8 |}).
Proof.
  assert (H6 : 1 <= 6 <= maxSizedConcurrency) by (unfold maxSizedConcurrency; lia).
  assert (H8 : 1 <= 8 <= MaxInt) by (vm_compute; split; discriminate).
  destruct (slot_pool_sizing_and_split 6 8 H6 H8) as (Hc & Hsplit & _ & _).
  split; [exact Hc|]. apply Hsplit. lia.
Defined.

(** C6 as stated fails where the multiplication overflows: at
    C = 2^61 the product 4*C wraps and CalculateTotalSlots is negative. *)
Lemma slot_pool_sizing_overflow :
  1 <= 2 ^ 61 /\ inRange (2 ^ 61) /\
  CalculateTotalSlots (2 ^ 61) = -3074457345618258602 /\
  ~ (4 * 2 ^ 61 <= 3 * CalculateTotalSlots (2 ^ 61) < 4 * 2 ^ 61 + 3).
Proof.
  split; [lia|]. split; [vm_compute; split; discriminate|].
  split; [vm_compute; reflexivity|].
  replace (CalculateTotalSlots (2 ^ 61)) with (-3074457345618258602)
    by (vm_compute; reflexivity).
  lia.
Qed.

(** ** The store *)

Section StoreFacts.
Context {A : Type}.
Implicit Types (ks : gmap string (keyed A)) (now later ttl : Z) (key : string).

Lemma kfind_alive now key ks k : kfind now key ks = Some k -> alive now k = true.
Proof.
  unfold kfind. destruct (ks !! key) as [k'|]; [|done].
  destruct (alive now k') eqn:E; [|done]. by intros [= <-].
Qed.

Lemma kfind_lookup now key ks k : kfind now key ks = Some k -> ks !! key = Some k.
Proof.
  unfold kfind. destruct (ks !! key) as [k'|]; [|done].
  destruct (alive now k'); [|done]. by intros [= <-].
Qed.

Lemma kfind_kset_eq now key v ks :
  kfind now key (kset now key v ks) =
    Some (Keyed v (kfind now key ks ≫= kdeadline)).
Proof.
  unfold kset. unfold kfind at 1. rewrite lookup_insert_eq.
  destruct (kfind now key ks) as [k|] eqn:E; simpl; [|done].
  apply kfind_alive in E. unfold alive in *. simpl.
  by destruct (kdeadline k) as [d|]; simpl; [rewrite E|].
Qed.

Lemma kget_kset_eq now key v ks : kget now key (kset now key v ks) = Some v.
Proof. unfold kget. by rewrite kfind_kset_eq. Qed.

Lemma kfind_kset_ne now key (other : string) v ks :
  key <> other -> kfind now other (kset now key v ks) = kfind now other ks.
Proof. intros. unfold kfind, kset. by rewrite lookup_insert_ne. Qed.

Lemma kfind_kdel_eq now key ks : kfind now key (kdel key ks) = None.
Proof. unfold kfind, kdel. by rewrite lookup_delete_eq. Qed.

Lemma kexpire_lookup now key ttl ks k :
  kfind now key ks = Some k ->
  kexpire now key ttl ks !! key = Some (Keyed (kval k) (Some (now + ttl))).
Proof. intros E. unfold kexpire. rewrite E. apply lookup_insert_eq. Qed.

Lemma kfind_later later key ks v d :
  ks !! key = Some (Keyed v (Some d)) -> later < d ->
  kfind later key ks = Some (Keyed v (Some d)).
Proof.
  intros E Hd. unfold kfind. rewrite E. unfold alive. simpl.
  destruct (Z.ltb_spec later d); [done|lia].
Qed.
End StoreFacts.

Lemma size_zero_empty (m : gmap string Z) : (size m =? 0)%nat = true -> m = ∅.
Proof. intros E%Nat.eqb_eq. by apply map_size_empty_iff. Qed.

Lemma zread_zwrite (now : Z) (key : string) m d : zread now key (zwrite now key m d) = m.
Proof.
  unfold zread, zwrite. destruct (size m =? 0)%nat eqn:E; simpl.
  - unfold kget. rewrite kfind_kdel_eq. simpl. symmetry. by apply size_zero_empty.
  - by rewrite kget_kset_eq.
Qed.

(** The raw entry under a sorted-set key after a write of a non-empty set:
    the members, and the deadline a live key had. *)
Lemma zwrite_entry (now : Z) (key : string) m d :
  m <> ∅ ->
  zsets (zwrite now key m d) !! key =
    Some (Keyed m (kfind now key (zsets d) ≫= kdeadline)).
Proof.
  intros Hm. unfold zwrite. destruct (size m =? 0)%nat eqn:E.
  - by apply size_zero_empty in E.
  - simpl. unfold kset. apply lookup_insert_eq.
Qed.

Lemma zwrite_other (now : Z) (key : string) m d :
  hashes (zwrite now key m d) = hashes d /\
  ints (zwrite now key m d) = ints d /\
  strs (zwrite now key m d) = strs d.
Proof. unfold zwrite. by destruct (size m =? 0)%nat. Qed.

Lemma zwrite_find (now : Z) (key : string) m d :
  m <> ∅ ->
  kfind now key (zsets (zwrite now key m d)) =
    Some (Keyed m (kfind now key (zsets d) ≫= kdeadline)).
Proof.
  intros Hm. unfold zwrite. destruct (size m =? 0)%nat eqn:E.
  - by apply size_zero_empty in E.
  - simpl. apply kfind_kset_eq.
Qed.

(** [ZADD] followed by [EXPIRE] on the same sorted set. *)
Lemma zadd_expire_entry (now : Z) (key : string) (score ttl : Z) (member : string) d :
  let d' := (EXPIRE_zset now key ttl (ZADD now key score member d).2).2 in
  zsets d' !! key =
    Some (Keyed (<[member := score]> (zread now key d)) (Some (now + ttl))).
Proof.
  simpl. unfold with_zsets. simpl.
  erewrite kexpire_lookup; [|apply zwrite_find, insert_non_empty]. done.
Qed.

(** ** The slot acquire script *)

(** The script as one case analysis on the cleaned set. *)
Lemma acquireScript_cases (key : string) (maxConc ttl : Z)
  (memberID : string) (now : Z) (d : db) :
  let kept := filter (scoreAbove (now - ttl)) (zread now key d) in
  let d1 := zwrite now key kept d in
  acquireScript key maxConc ttl memberID now d =
    if bool_decide (is_Some (kept !! memberID))
       || (Z.of_nat (size kept) <? maxConc)
    then (1, with_zsets (kexpire now key ttl)
               (zwrite now key (<[memberID := now]> kept) d1))
    else (0, d1).
Proof.
  intros kept d1.
  unfold acquireScript, mbind, Lua_bind, mret, Lua_ret, ZREMRANGEBYSCORE,
    ZSCORE, ZCARD, ZADD, EXPIRE_zset.
  cbv zeta. fold kept. fold d1.
  assert (Hread : zread now key d1 = kept) by apply zread_zwrite.
  rewrite !Hread.
  destruct (kept !! memberID) as [s|] eqn:Hmem.
  - rewrite bool_decide_eq_true_2 by eauto. simpl. by rewrite Hread.
  - rewrite bool_decide_eq_false_2 by (by intros [? [=]]). simpl.
    rewrite Hread. by destruct (Z.of_nat (size kept) <? maxConc); rewrite ?Hread.
Qed.

(** C5: the atomic acquire first drops the members whose score is at most
    now - ttl; when memberID is still a member it gets score now and the
    call succeeds; otherwise the call succeeds, adding memberID with score
    now, exactly when the cardinality after the cleanup is below maxConc,
    and else fails and leaves the cleaned set as it is; every success sets
    the key's time to live to ttl. *)
Theorem acquireScript_semantics (key : string) (maxConc ttl : Z)
  (memberID : string) (now : Z) (d : db) :
  let live := zread now key d in
  let kept := filter (scoreAbove (now - ttl)) live in
  let r := (acquireScript key maxConc ttl memberID now d).1 in
  let d' := (acquireScript key maxConc ttl memberID now d).2 in
  (forall m s, kept !! m = Some s <-> live !! m = Some s /\ now - ttl < s) /\
  (r = 1 <-> is_Some (kept !! memberID) \/ Z.of_nat (size kept) < maxConc) /\
  (r = 1 ->
   zsets d' !! key =
     Some (Keyed (<[memberID := now]> kept) (Some (now + ttl)))) /\
  (r <> 1 -> r = 0 /\ zread now key d' = kept).
Proof.
  intros live kept r d'. split.
  { intros m s. unfold kept. rewrite map_lookup_filter_Some. done. }
  subst r d'. rewrite acquireScript_cases. fold live. fold kept.
  set (d1 := zwrite now key kept d).
  assert (Hread : zread now key d1 = kept) by apply zread_zwrite.
  destruct (bool_decide (is_Some (kept !! memberID))
            || (Z.of_nat (size kept) <? maxConc)) eqn:Hc; simpl.
  - apply orb_true_iff in Hc as [Hc%bool_decide_eq_true|Hc%Z.ltb_lt].
    + split; [by split; [left|]|]. split; [|done]. intros _.
      erewrite kexpire_lookup; [|apply zwrite_find, insert_non_empty]. done.
    + split; [by split; [right|]|]. split; [|done]. intros _.
      erewrite kexpire_lookup; [|apply zwrite_find, insert_non_empty]. done.
  - apply orb_false_iff in Hc as [Hc1%bool_decide_eq_false Hc2%Z.ltb_ge].
    split; [split; [done|intros [?|?]; [done|lia]]|]. split; [done|]. done.
Qed.

(** ** Wait counters *)


Lemma incrementWaitScript_cases (key : string) (maxWait ttl now : Z) (d : db) :
  let cur := waitCount now key d in
  incrementWaitScript key maxWait ttl now d =
    if maxWait <=? cur then (0, d)
    else
      let d1 := with_ints (kset now key (cur + 1)) d in
      (1, if cur + 1 =? 1 then with_ints (kexpire now key ttl) d1 else d1).
Proof.
  intros cur.
  unfold incrementWaitScript, mbind, Lua_bind, mret, Lua_ret, GET_int, INCR,
    INCRBY, EXPIRE_int.
  cbv zeta. fold (waitCount now key d). fold cur.
  replace (match kget now key (ints d) with Some v => v | None => 0 end)
    with cur by (unfold cur, waitCount; by destruct (kget now key (ints d))).
  destruct (maxWait <=? cur); [done|].
  change (default 0 (kget now key (ints d))) with cur.
  by destruct (cur + 1 =? 1).
Qed.

Lemma decrementWaitScript_cases (key : string) (now : Z) (d : db) :
  decrementWaitScript key now d =
    (1, if 0 <? waitCount now key d
        then with_ints (kset now key (waitCount now key d - 1)) d
        else d).
Proof.
  unfold decrementWaitScript, mbind, Lua_bind, mret, Lua_ret, GET_int, DECR,
    INCRBY, waitCount.
  destruct (kget now key (ints d)) as [v|] eqn:E; simpl; [|done].
  destruct (0 <? v); simpl; [|done]. rewrite E. simpl.
  by replace (v - 1) with (v + -1) by lia.
Qed.

Lemma waitCount_kset (now : Z) (key : string) (v : Z) (d : db) :
  waitCount now key (with_ints (kset now key v) d) = v.
Proof. unfold waitCount. simpl. by rewrite kget_kset_eq. Qed.

Lemma waitCount_kexpire (now ttl : Z) (key : string) (d : db) :
  0 < ttl ->
  waitCount now key (with_ints (kexpire now key ttl) d) = waitCount now key d.
Proof.
  intros Httl. unfold waitCount, kget. simpl. unfold kexpire.
  destruct (kfind now key (ints d)) as [k|] eqn:E; [|by rewrite E].
  unfold kfind at 1. rewrite lookup_insert_eq. unfold alive. simpl.
  destruct (Z.ltb_spec now (now + ttl)); [done|lia].
Qed.

(** C7, as amended: incrementWait succeeds exactly when the current value
    is below maxWait and otherwise changes nothing; a successful
    incrementWait followed, while the key is alive, by decrementWait
    returns a non-negative counter to its value; the key's time to live is
    set exactly when the incremented value is 1, that is when the counter
    was absent or had dropped back to 0, and an increment of a non-zero
    counter leaves it untouched; decrementWait changes nothing when the
    counter is absent or 0, so the counter never goes negative. *)
Theorem wait_counter_laws (key : string) (maxWait ttl now later : Z) (d : db) :
  let cur := waitCount now key d in
  let r := (incrementWaitScript key maxWait ttl now d).1 in
  let d1 := (incrementWaitScript key maxWait ttl now d).2 in
  let d2 := (decrementWaitScript key later d1).2 in
  (r = 1 <-> cur < maxWait) /\
  (r <> 1 -> r = 0 /\ d1 = d) /\
  (r = 1 ->
   ints d1 !! key =
     Some (Keyed (cur + 1)
             (if cur =? 0 then Some (now + ttl) else waitDeadline now key d))) /\
  (r = 1 -> 0 <= cur ->
   (forall dl, kdeadline <$> (ints d1 !! key) = Some (Some dl) -> later < dl) ->
   waitCount later key d2 = cur) /\
  (cur <= 0 -> (decrementWaitScript key now d).2 = d) /\
  (0 <= cur ->
   0 <= waitCount now key (decrementWaitScript key now d).2).
Proof.
  intros cur r d1 d2. subst r d1 d2.
  rewrite incrementWaitScript_cases. fold cur. cbv zeta.
  destruct (Z.leb_spec maxWait cur) as [Hfull|Hroom]; simpl.
  - split; [split; [done|lia]|]. split; [done|]. split; [done|].
    split; [done|]. split.
    + intros Hle. rewrite decrementWaitScript_cases. simpl. fold cur.
      by destruct (Z.ltb_spec 0 cur); [lia|].
    + intros Hge. rewrite decrementWaitScript_cases. simpl. fold cur.
      destruct (Z.ltb_spec 0 cur); [|done].
      rewrite waitCount_kset. lia.
  - assert (Hentry :
      ints (if cur + 1 =? 1
            then with_ints (kexpire now key ttl)
                   (with_ints (kset now key (cur + 1)) d)
            else with_ints (kset now key (cur + 1)) d) !! key =
      Some (Keyed (cur + 1)
              (if cur =? 0 then Some (now + ttl) else waitDeadline now key d))).
    { destruct (Z.eqb_spec (cur + 1) 1) as [E1|E1];
        destruct (Z.eqb_spec cur 0) as [E0|E0]; try lia; simpl.
      - erewrite kexpire_lookup; [|apply kfind_kset_eq]. done.
      - unfold kset. by rewrite lookup_insert_eq. }
    split; [split; [lia|done]|]. split; [done|]. split; [done|].
    split; [|split].
    + intros _ Hcur Halive. rewrite decrementWaitScript_cases. simpl.
      set (d1 := if cur + 1 =? 1 then _ else _) in *.
      assert (Hv : waitCount later key d1 = cur + 1).
      { unfold waitCount, kget, kfind. rewrite Hentry. unfold alive. simpl.
        destruct (if cur =? 0 then Some (now + ttl) else waitDeadline now key d)
          as [dl|] eqn:Edl; [|done].
        specialize (Halive dl). rewrite Hentry in Halive. simpl in Halive.
        destruct (Z.ltb_spec later dl) as [|Hge]; [done|].
        specialize (Halive eq_refl). lia. }
      rewrite Hv. destruct (Z.ltb_spec 0 (cur + 1)); [|lia].
      rewrite waitCount_kset. lia.
    + intros Hle. rewrite decrementWaitScript_cases. simpl. fold cur.
      by destruct (Z.ltb_spec 0 cur); [lia|].
    + intros Hge. rewrite decrementWaitScript_cases. simpl. fold cur.
      destruct (Z.ltb_spec 0 cur); [|done].
      rewrite waitCount_kset. lia.
Qed.

Lemma wait_counter_laws_witness :
  let key := waitQueueKey 7 in
  let d1 := (incrementWaitScript key 21 900 0 emptyDb).2 in
  let d2 := (decrementWaitScript key 5 d1).2 in
  ints d1 !! key = Some (Keyed 1 (Some 900)) /\ waitCount 5 key d2 = 0.
Proof.
  intros key d1 d2.
  destruct (wait_counter_laws key 21 900 0 5 emptyDb)
    as (Hr & _ & Hentry & Hround & _ & _).
  assert (H1 : (incrementWaitScript key 21 900 0 emptyDb).1 = 1)
    by (vm_compute; reflexivity).
  split.
  - etrans; [exact (Hentry H1)|]. vm_compute. reflexivity.
  - apply (Hround H1).
    + vm_compute. discriminate.
    + intros dl Hdl.
      assert (Hdl' : Some (Some dl) = Some (Some 900))
        by (rewrite <- Hdl; vm_compute; reflexivity).
      injection Hdl' as ->. reflexivity.
Defined.

(** C7 as stated fails on the time to live: a counter that went back to 0
    still has its key, and the next increment takes it to 1 and sets the
    time to live again, although the value did not come from an absent
    key. *)
Lemma wait_ttl_set_again_from_zero :
  let key := waitQueueKey 7 in
  let d1 := (incrementWaitScript key 21 900 0 emptyDb).2 in
  let d2 := (decrementWaitScript key 5 d1).2 in
  let d3 := (incrementWaitScript key 21 900 100 d2).2 in
  ints d1 !! key = Some (Keyed 1 (Some 900)) /\
  ints d2 !! key = Some (Keyed 0 (Some 900)) /\
  (incrementWaitScript key 21 900 100 d2).1 = 1 /\
  ints d3 !! key = Some (Keyed 1 (Some 1000)).
Proof. vm_compute. repeat split; reflexivity. Qed.

(** ** The session mutex *)


Lemma AcquireSessionMutex_cases (accountID : Z) (sessionHash requestID : string)
  (now : Z) (d : db) :
  AcquireSessionMutex accountID sessionHash requestID now d =
    match mutexHolder now accountID sessionHash d with
    | Some _ => (false, d)
    | None =>
        (true,
         with_strs (kput (sessionMutexKey accountID sessionHash) requestID
                      (Some (now + sessionMutexTTLSeconds))) d)
    end.
Proof.
  unfold AcquireSessionMutex, acquireSessionMutexScript, mbind, Lua_bind, mret,
    Lua_ret, SET_str_NX_EX, mutexHolder.
  by destruct (kget now (sessionMutexKey accountID sessionHash) (strs d)).
Qed.

Lemma ReleaseSessionMutex_cases (accountID : Z) (sessionHash requestID : string)
  (now : Z) (d : db) :
  (ReleaseSessionMutex accountID sessionHash requestID now d).2 =
    if bool_decide (mutexHolder now accountID sessionHash d = Some requestID)
    then with_strs (kdel (sessionMutexKey accountID sessionHash)) d
    else d.
Proof.
  unfold ReleaseSessionMutex, releaseSessionMutexScript, mbind, Lua_bind, mret,
    Lua_ret, GET_str, DEL_str, mutexHolder.
  by destruct (bool_decide
                 (kget now (sessionMutexKey accountID sessionHash) (strs d)
                  = Some requestID)).
Qed.

(** C8: for every (account, sessionHash) pair the acquire is a
    set-if-absent: it succeeds exactly when nobody holds the mutex, the
    caller then being the holder until the 300 s time to live runs out,
    and a failed acquire changes nothing, so there is never more than the
    one holder; the release deletes the key exactly when the stored value
    is the caller's requestID, and a release by anyone else leaves the
    store unchanged. *)
Theorem session_mutex_exclusive (accountID : Z)
  (sessionHash requestID other : string) (now later : Z) (d : db) :
  let key := sessionMutexKey accountID sessionHash in
  let a := AcquireSessionMutex accountID sessionHash requestID now d in
  let rel := (ReleaseSessionMutex accountID sessionHash requestID now d).2 in
  (a.1 = true <-> mutexHolder now accountID sessionHash d = None) /\
  (a.1 = true ->
   strs a.2 !! key = Some (Keyed requestID (Some (now + sessionMutexTTLSeconds)))
   /\ (later < now + sessionMutexTTLSeconds ->
       mutexHolder later accountID sessionHash a.2 = Some requestID
       /\ AcquireSessionMutex accountID sessionHash other later a.2
          = (false, a.2))) /\
  (a.1 = false -> a.2 = d) /\
  (mutexHolder now accountID sessionHash d = Some requestID ->
   strs rel !! key = None /\ mutexHolder later accountID sessionHash rel = None) /\
  (mutexHolder now accountID sessionHash d <> Some requestID -> rel = d).
Proof.
  intros key a rel. subst a rel.
  rewrite AcquireSessionMutex_cases, ReleaseSessionMutex_cases.
  split; [|split; [|split; [|split]]].
  - by destruct (mutexHolder now accountID sessionHash d).
  - destruct (mutexHolder now accountID sessionHash d); [done|]. simpl.
    intros _. fold key. split; [apply lookup_insert_eq|].
    intros Hlater.
    assert (Hh : mutexHolder later accountID sessionHash
                   (with_strs (kput key requestID
                      (Some (now + sessionMutexTTLSeconds))) d)
                 = Some requestID).
    { unfold mutexHolder, kget. simpl. fold key.
      erewrite kfind_later; [done|apply lookup_insert_eq|done]. }
    split; [done|]. rewrite AcquireSessionMutex_cases. by rewrite Hh.
  - by destruct (mutexHolder now accountID sessionHash d).
  - intros Hh. rewrite bool_decide_eq_true_2 by done. simpl. fold key.
    split; [apply lookup_delete_eq|].
    unfold mutexHolder, kget. simpl. fold key. by rewrite kfind_kdel_eq.
  - intros Hh. by rewrite bool_decide_eq_false_2.
Qed.

Lemma session_mutex_exclusive_witness :
  let d1 := (AcquireSessionMutex 7 "S" "req-1" 100 emptyDb).2 in
  mutexHolder 399 7 "S" d1 = Some "req-1" /\
  AcquireSessionMutex 7 "S" "req-2" 399 d1 = (false, d1) /\
  (ReleaseSessionMutex 7 "S" "req-2" 399 d1).2 = d1.
Proof.
  intros d1.
  destruct (session_mutex_exclusive 7 "S" "req-1" "req-2" 100 399 emptyDb)
    as (Hacq & Hheld & _ & _ & _).
  assert (H0 : mutexHolder 100 7 "S" emptyDb = None) by reflexivity.
  destruct (Hheld (proj2 Hacq H0)) as [_ Hlater].
  destruct Hlater as [Hh Hagain]; [vm_compute; reflexivity|].
  split; [exact Hh|]. split; [exact Hagain|].
  destruct (session_mutex_exclusive 7 "S" "req-2" "req-1" 399 399 d1)
    as (_ & _ & _ & _ & Hother).
  apply Hother. fold d1 in Hh. rewrite Hh. discriminate.
Defined.

(** ** The session-aware slot script *)

Lemma hread_kset (now : Z) (key : string) (h : ownerHash) (d : db) :
  hread now key (with_hashes (kset now key h) d) = h.
Proof. unfold hread. simpl. by rewrite kget_kset_eq. Qed.

Lemma zread_with_hashes (now : Z) (key : string) f (d : db) :
  zread now key (with_hashes f d) = zread now key d.
Proof. done. Qed.

Lemma hashes_zwrite (now : Z) (key : string) m f (d : db) :
  hashes (with_zsets f (zwrite now key m d)) = hashes d.
Proof. unfold zwrite. by destruct (size m =? 0)%nat. Qed.

Lemma zsets_zadd_expire (now ttl score : Z) (key member : string) m (d : db) :
  zsets (with_zsets (kexpire now key ttl)
           (zwrite now key (<[member := score]> m) d)) !! key =
    Some (Keyed (<[member := score]> m) (Some (now + ttl))).
Proof.
  simpl. erewrite kexpire_lookup; [|apply zwrite_find, insert_non_empty]. done.
Qed.

Lemma hashes_set_expire (now ttl : Z) (key : string) (h : ownerHash) (d : db) :
  hashes (with_hashes (kexpire now key ttl) (with_hashes (kset now key h) d))
    !! key = Some (Keyed h (Some (now + ttl))).
Proof. simpl. erewrite kexpire_lookup; [|apply kfind_kset_eq]. done. Qed.

Lemma ownedBy_Some (now : Z) (h : ownerHash) (o : string) (n : Z) :
  ownedBy now h = Some (o, n) ->
  ownerExpired now h = false /\ owner h = Some o /\ default 0 (count h) = n /\ n <> 0.
Proof.
  unfold ownedBy. destruct (ownerExpired now h); [done|].
  destruct (owner h) as [o'|]; [|done].
  destruct (Z.eqb_spec (default 0 (count h)) 0); [done|].
  by intros [= -> <-].
Qed.

(** The script as a case analysis on what it reads. *)
Lemma session_script_cases (ownerKey slotKey : string) (ttl slotIndex : Z)
  (sessionHash : string) (maxParallel : Z) (requestID : string) (now : Z)
  (d : db) :
  acquireSlotWithSessionScript ownerKey slotKey ttl slotIndex sessionHash
    maxParallel requestID now d =
  let h := hread now ownerKey d in
  match ownedBy now h with
  | Some (o, n) =>
      if bool_decide (o = sessionHash) && (n <? maxParallel)
      then (1, joinWrites ownerKey slotKey ttl slotIndex now d)
      else (0, d)
  | None =>
      let d0 := if ownerExpired now h
                then expiryCleanup ownerKey slotKey slotIndex now d else d in
      match zread now slotKey d0 !! slotID slotIndex with
      | Some _ => (0, d0)
      | None => (1, claimWrites ownerKey slotKey ttl slotIndex sessionHash now d0)
      end
  end.
Proof.
  unfold acquireSlotWithSessionScript, mbind, Lua_bind, mret, Lua_ret,
    expiryCleanup, claimWrites, joinWrites, ownedBy.
  unfold HGETALL, DEL_hash, ZREM, ZSCORE, HSET_owner_count_expire, EXPIRE_hash,
    ZADD, EXPIRE_zset, HINCRBY_count, HSET_expire.
  cbv beta iota zeta delta [fst snd].
  fold (ownerExpired now (hread now ownerKey d)).
  destruct (ownerExpired now (hread now ownerKey d)) eqn:Hexp.
  - rewrite bool_decide_eq_true_2 by done. cbn [orb].
    by destruct (zread now slotKey _ !! slotID slotIndex).
  - destruct (owner (hread now ownerKey d)) as [o|] eqn:Ho.
    + rewrite bool_decide_eq_false_2 by done. cbn [orb].
      destruct (Z.eqb_spec (default 0 (count (hread now ownerKey d))) 0)
        as [Hz|Hnz].
      * by destruct (zread now slotKey d !! slotID slotIndex).
      * destruct (decide (o = sessionHash)) as [->|Hne].
        -- rewrite !bool_decide_eq_true_2 by done. cbn [andb].
           destruct (default 0 (count (hread now ownerKey d)) <? maxParallel);
             [|done]. by rewrite ?Ho.
        -- by rewrite !bool_decide_eq_false_2 by congruence.
    + rewrite bool_decide_eq_true_2 by done. cbn [orb].
      by destruct (zread now slotKey d !! slotID slotIndex).
Qed.

Lemma joinWrites_owner (ownerKey slotKey : string) (ttl slotIndex now : Z)
  (d : db) (o : string) (n : Z) :
  owner (hread now ownerKey d) = Some o ->
  default 0 (count (hread now ownerKey d)) = n ->
  hashes (joinWrites ownerKey slotKey ttl slotIndex now d) !! ownerKey =
    Some (Keyed {| owner := Some o; count := Some (n + 1);
                   expire := Some (now + ttl) |} (Some (now + ttl))).
Proof.
  intros Ho Hn. unfold joinWrites, EXPIRE_zset, ZADD, EXPIRE_hash, HSET_expire,
    HINCRBY_count.
  cbv beta iota zeta delta [fst snd].
  rewrite hashes_zwrite, hread_kset. cbn [owner count expire].
  rewrite Ho, Hn. apply hashes_set_expire.
Qed.

Lemma joinWrites_zset (ownerKey slotKey : string) (ttl slotIndex now : Z) (d : db) :
  zsets (joinWrites ownerKey slotKey ttl slotIndex now d) !! slotKey =
    Some (Keyed (<[slotID slotIndex := now]> (zread now slotKey d))
            (Some (now + ttl))).
Proof.
  unfold joinWrites, EXPIRE_zset, ZADD, EXPIRE_hash, HSET_expire, HINCRBY_count.
  cbv beta iota zeta delta [fst snd].
  rewrite !zread_with_hashes. apply zsets_zadd_expire.
Qed.

Lemma claimWrites_owner (ownerKey slotKey : string) (ttl slotIndex : Z)
  (sessionHash : string) (now : Z) (d : db) :
  hashes (claimWrites ownerKey slotKey ttl slotIndex sessionHash now d)
    !! ownerKey =
    Some (Keyed {| owner := Some sessionHash; count := Some 1;
                   expire := Some (now + ttl) |} (Some (now + ttl))).
Proof.
  unfold claimWrites, EXPIRE_zset, ZADD, EXPIRE_hash, HSET_owner_count_expire.
  cbv beta iota zeta delta [fst snd].
  rewrite hashes_zwrite. apply hashes_set_expire.
Qed.

Lemma claimWrites_zset (ownerKey slotKey : string) (ttl slotIndex : Z)
  (sessionHash : string) (now : Z) (d : db) :
  zsets (claimWrites ownerKey slotKey ttl slotIndex sessionHash now d)
    !! slotKey =
    Some (Keyed (<[slotID slotIndex := now]> (zread now slotKey d))
            (Some (now + ttl))).
Proof.
  unfold claimWrites, EXPIRE_zset, ZADD, EXPIRE_hash, HSET_owner_count_expire.
  cbv beta iota zeta delta [fst snd].
  rewrite !zread_with_hashes. apply zsets_zadd_expire.
Qed.

(** An owner record written at [now] is still the owner record before
    [now + ttl]. *)
Lemma ownedBy_later (later now ttl : Z) (key : string) (d : db) (o : string) (n : Z) :
  hashes d !! key =
    Some (Keyed {| owner := Some o; count := Some n; expire := Some (now + ttl) |}
            (Some (now + ttl))) ->
  later < now + ttl -> n <> 0 ->
  ownedBy later (hread later key d) = Some (o, n).
Proof.
  intros Hentry Hlater Hn. unfold hread, kget.
  erewrite kfind_later; [|exact Hentry|done]. simpl.
  unfold ownedBy, ownerExpired. simpl.
  destruct (Z.ltb_spec (now + ttl) later); [lia|]. rewrite andb_false_r.
  by destruct (Z.eqb_spec n 0).
Qed.

(** A refused acquire leaves the store as it was. *)
Lemma session_script_refused (ownerKey slotKey : string) (ttl slotIndex : Z)
  (sessionHash : string) (maxParallel : Z) (requestID : string) (now : Z)
  (d : db) :
  let res := acquireSlotWithSessionScript ownerKey slotKey ttl slotIndex
               sessionHash maxParallel requestID now d in
  (res.1 = 0 \/ res.1 = 1) /\ (res.1 = 0 -> res.2 = d).
Proof.
  intros res. subst res. rewrite session_script_cases. cbv zeta.
  destruct (ownedBy now (hread now ownerKey d)) as [[o n]|].
  - destruct (bool_decide (o = sessionHash) && (n <? maxParallel));
      simpl; split; auto; done.
  - destruct (ownerExpired now (hread now ownerKey d)).
    + unfold expiryCleanup, ZREM, DEL_hash. cbv beta iota zeta delta [fst snd].
      rewrite zread_zwrite, lookup_delete_eq. simpl. split; auto; done.
    + destruct (zread now slotKey d !! slotID slotIndex); simpl; split; auto; done.
Qed.

(** ** Same-session sharing of a slot *)

(** A session bound to a slot it holds with n requests is admitted once
    more through AcquireSessionSlot with the category "haiku", at every
    n below 9999. *)
Lemma haiku_bound_join (c : redisCache) (sv : server) (requestID : string)
  (accountID maxConcurrency : Z) (sessionHash : string) (b n later : Z) :
  0 < maxConcurrency ->
  let T := CalculateTotalSlots maxConcurrency in
  let now := sclock sv in
  let run := AcquireSessionSlotOn c requestID accountID maxConcurrency
               sessionHash "haiku" sv in
  boundSlotOf now accountID sessionHash (sdb sv) = Some b -> 0 <= b < T ->
  ownedBy now (slotOwner now accountID b (sdb sv)) = Some (sessionHash, n) ->
  1 <= n < 9999 ->
  later < now + slotTTLSeconds (cfg c) ->
  run.1 = Ok (acquired accountID sessionHash "haiku" b) /\
  ownedBy later (slotOwner later accountID b (sdb run.2))
  = Some (sessionHash, n + 1).
Proof.
  intros Hconc T now run Hbound Hb Hown Hn Hlater. subst run.
  assert (HT : inRange T) by apply CalculateTotalSlots_inRange.
  assert (Hsub : sub T 0 = T).
  { unfold sub. rewrite Z.sub_0_r. by apply wrap_small. }
  assert (Hrun :
    AcquireSessionSlotOn c requestID accountID maxConcurrency sessionHash
      "haiku" sv
    = (Ok (acquired accountID sessionHash "haiku" b),
       {| sdb := with_ints
                   (kexpire now (sessionSlotKey accountID sessionHash)
                      (sessionSlotTTLSeconds c))
                   (joinWrites (slotOwnerKey accountID b)
                      (accountSlotKey accountID) (slotTTLSeconds (cfg c)) b now
                      (sdb sv));
          sclock := now |})).
  { unfold AcquireSessionSlotOn, AcquireSessionSlot.
    destruct (Z.leb_spec maxConcurrency 0); [lia|]. fold T.
    change (categoryRange "haiku" T) with (0, T).
    change (categoryMaxParallel "haiku") with 9999.
    cbv beta iota zeta. rewrite Hsub.
    destruct (Z.leb_spec T 0); [lia|].
    unfold tryBound, mbind, M_bind, mret, M_ret.
    cbn [GetSessionSlot cacheOf].
    unfold RedisCache.run, GetSessionSlot_redis, mbind, Lua_bind, mret,
      Lua_ret, M_bind, M_ret, GET_int.
    unfold boundSlotOf in Hbound. fold now. rewrite Hbound.
    change (default (-1) (Some b)) with b.
    destruct (Z.leb_spec 0 b); [|lia].
    destruct (Z.ltb_spec b T); [|lia]. cbn [andb]. cbv beta.
    cbn [Service.AcquireSlotWithSession cacheOf].
    unfold RedisCache.run, AcquireSlotWithSession_redis, mbind, Lua_bind,
      mret, Lua_ret, M_bind, M_ret.
    cbn [sdb sclock]. fold now.
    rewrite session_script_cases. cbv zeta.
    unfold slotOwner in Hown. rewrite Hown.
    rewrite bool_decide_eq_true_2 by done.
    destruct (Z.ltb_spec n 9999); [|lia]. cbn [andb].
    replace (1 =? 1) with true by done.
    cbn [RefreshSessionSlotTTL cacheOf].
    unfold RedisCache.run, RefreshSessionSlotTTL_redis, EXPIRE_int.
    cbn [fst snd sdb sclock]. done. }
  rewrite Hrun. cbn [fst snd sdb]. split; [done|].
  unfold slotOwner. eapply ownedBy_later; [|exact Hlater|lia].
  cbn [hashes with_ints].
  apply ownedBy_Some in Hown as (_ & Hown & Hcount & _).
  by apply joinWrites_owner.
Qed.

(** C2, as amended: the limit of three requests of one session on a slot
    is that of the cache's AcquireSlotWithSession, which runs the script
    with haikuMaxParallel = 3: a slot owned by a session with n requests
    admits one more request exactly when the request carries the owner's
    sessionHash and n < 3, the count then becoming n + 1 under the same
    owner; with three holders a fourth request of the session is refused;
    a request of any other session is refused; a refusal changes nothing;
    and a free slot is claimed with the caller as owner and count 1.
    AcquireSessionSlot does not apply that limit to a light model: for
    "haiku" it passes maxParallel = 9999, with which the script admits a
    request of the owner's session at every count n < 9999 and still
    refuses every other session; so a session bound to a slot it holds
    with n requests, 1 <= n < 9999, is admitted to it once more, also as
    the fourth. *)
Theorem light_same_session_sharing (c : concurrencyCache)
  (accountID slotIndex : Z) (sessionHash requestID : string)
  (now later : Z) (d : db) (o : string) (n : Z) :
  let ttl := slotTTLSeconds c in
  let try := AcquireSlotWithSession c accountID slotIndex sessionHash
               requestID now d in
  let h := slotOwner now accountID slotIndex d in
  let viaService :=
    acquireSlotWithSessionScript (slotOwnerKey accountID slotIndex)
      (accountSlotKey accountID) ttl slotIndex sessionHash
      (categoryMaxParallel "haiku") requestID now d in
  later < now + ttl ->
  (ownedBy now h = Some (o, n) -> 0 < n ->
   (try.1 = true <-> o = sessionHash /\ n < haikuMaxParallel) /\
   (o <> sessionHash -> try = (false, d)) /\
   (n = haikuMaxParallel -> try = (false, d)) /\
   (try.1 = false -> try.2 = d) /\
   (try.1 = true ->
    ownedBy later (slotOwner later accountID slotIndex try.2) = Some (o, n + 1)
    /\ n + 1 <= haikuMaxParallel)) /\
  (ownedBy now h = None -> try.1 = true ->
   ownedBy later (slotOwner later accountID slotIndex try.2)
   = Some (sessionHash, 1)) /\
  (categoryMaxParallel "haiku" = 9999 /\
   (ownedBy now h = Some (o, n) -> 0 < n ->
    (viaService.1 = 1 <-> o = sessionHash /\ n < 9999) /\
    (o <> sessionHash -> viaService = (0, d)) /\
    (viaService.1 <> 1 -> viaService = (0, d)) /\
    (viaService.1 = 1 ->
     ownedBy later (slotOwner later accountID slotIndex viaService.2)
     = Some (o, n + 1)))) /\
  (forall (rc : redisCache) (sv : server) (maxConcurrency b m : Z),
     cfg rc = c -> sclock sv = now -> 0 < maxConcurrency ->
     boundSlotOf now accountID sessionHash (sdb sv) = Some b ->
     0 <= b < CalculateTotalSlots maxConcurrency ->
     ownedBy now (slotOwner now accountID b (sdb sv)) = Some (sessionHash, m) ->
     1 <= m < 9999 ->
     let run := AcquireSessionSlotOn rc requestID accountID maxConcurrency
                  sessionHash "haiku" sv in
     run.1 = Ok (acquired accountID sessionHash "haiku" b) /\
     ownedBy later (slotOwner later accountID b (sdb run.2))
     = Some (sessionHash, m + 1)).
Proof.
  intros ttl try h viaService Hlater. subst try h viaService ttl.
  split; [|split; [|split]].
  - unfold AcquireSlotWithSession, mbind, Lua_bind, mret, Lua_ret, slotOwner.
    rewrite session_script_cases. cbv zeta.
    intros Hown Hpos. rewrite Hown.
    apply ownedBy_Some in Hown as (Hexp & Ho & Hn & Hn0).
    destruct (decide (o = sessionHash)) as [->|Hne].
    + rewrite bool_decide_eq_true_2 by done. cbn [andb].
      destruct (Z.ltb_spec n haikuMaxParallel) as [Hlt|Hge]; cbn [fst snd].
      * split; [done|]. split; [done|]. split; [intros ->; lia|].
        split; [done|]. intros _. split; [|lia].
        eapply ownedBy_later; [by apply joinWrites_owner|done|lia].
      * split; [split; [done|lia]|]. split; [done|]. split; [done|].
        split; [done|]. done.
    + rewrite bool_decide_eq_false_2 by done. cbn [andb fst snd].
      split; [split; [done|intros [? _]; done]|]. split; [done|].
      split; [done|]. split; [done|]. done.
  - unfold AcquireSlotWithSession, mbind, Lua_bind, mret, Lua_ret, slotOwner.
    rewrite session_script_cases. cbv zeta.
    intros Hown. rewrite Hown.
    destruct (zread now _ _ !! slotID slotIndex); cbn [fst snd]; [done|].
    intros _. eapply ownedBy_later; [apply claimWrites_owner|done|done].
  - split; [reflexivity|].
    change (categoryMaxParallel "haiku") with 9999.
    unfold slotOwner. rewrite session_script_cases. cbv zeta.
    intros Hown Hpos. rewrite Hown.
    apply ownedBy_Some in Hown as (Hexp & Ho & Hn & Hn0).
    destruct (decide (o = sessionHash)) as [->|Hne].
    + rewrite bool_decide_eq_true_2 by done. cbn [andb].
      destruct (Z.ltb_spec n 9999) as [Hlt|Hge]; cbn [fst snd].
      * split; [done|]. split; [done|]. split; [done|]. intros _.
        eapply ownedBy_later; [by apply joinWrites_owner|done|lia].
      * split; [split; [done|lia]|]. split; [done|]. split; [done|]. done.
    + rewrite bool_decide_eq_false_2 by done. cbn [andb fst snd].
      split; [split; [done|intros [? _]; done]|]. split; [done|].
      split; [done|]. done.
  - intros rc sv maxConcurrency b m Hcfg Hclock Hconc Hbound Hb Hown Hm run.
    subst run c now.
    by apply haiku_bound_join.
Qed.

Lemma light_same_session_sharing_witness :
  let c := NewConcurrencyCache 15 0 in
  let d1 := (AcquireSlotWithSession c 7 2 "S" "r1" 100 emptyDb).2 in
  let d2 := (AcquireSlotWithSession c 7 2 "S" "r2" 100 d1).2 in
  let d3 := (AcquireSlotWithSession c 7 2 "S" "r3" 101 d2).2 in
  ownedBy 101 (slotOwner 101 7 2 d2) = Some ("S", 2) /\
  ownedBy 102 (slotOwner 102 7 2 d3) = Some ("S", 3) /\
  AcquireSlotWithSession c 7 2 "S" "r4" 102 d3 = (false, d3) /\
  AcquireSlotWithSession c 7 2 "T" "r5" 102 d3 = (false, d3).
Proof.
  intros c d1 d2 d3.
  assert (Hl : 102 < 101 + slotTTLSeconds c) by (vm_compute; reflexivity).
  assert (H2 : ownedBy 101 (slotOwner 101 7 2 d2) = Some ("S", 2))
    by (vm_compute; reflexivity).
  destruct (light_same_session_sharing c 7 2 "S" "r3" 101 102 d2 "S" 2 Hl)
    as [Hshare _].
  destruct (Hshare H2 ltac:(lia)) as (Hiff & _ & _ & _ & Hnext).
  assert (H3 : ownedBy 102 (slotOwner 102 7 2 d3) = Some ("S", 3)).
  { apply Hnext. apply Hiff. split; [done|]. vm_compute. reflexivity. }
  assert (Hl' : 102 < 102 + slotTTLSeconds c) by (vm_compute; reflexivity).
  split; [exact H2|]. split; [exact H3|]. split.
  - destruct (light_same_session_sharing c 7 2 "S" "r4" 102 102 d3 "S" 3 Hl')
      as [Hfull _].
    destruct (Hfull H3 ltac:(lia)) as (_ & _ & Hfourth & _).
    apply Hfourth. reflexivity.
  - destruct (light_same_session_sharing c 7 2 "T" "r5" 102 102 d3 "S" 3 Hl')
      as [Hother _].
    destruct (Hother H3 ltac:(lia)) as (_ & Hdiff & _).
    apply Hdiff. discriminate.
Defined.

(** C2 as stated fails on AcquireSessionSlot: a session that sends four
    haiku requests is admitted four times to the slot it hashes to, which
    then holds four requests of that session, one more than
    haikuMaxParallel; the cache's own AcquireSlotWithSession refuses the
    fourth on the same store. *)
Lemma haiku_fourth_request_admitted :
  let c := {| cfg := NewConcurrencyCache 15 0; sessionSlotTTLSeconds := 900 |} in
  let s0 := {| sdb := emptyDb; sclock := 1000 |} in
  let r1 := AcquireSessionSlotOn c "req-1" 1 3 "S" "haiku" s0 in
  let r2 := AcquireSessionSlotOn c "req-2" 1 3 "S" "haiku" r1.2 in
  let r3 := AcquireSessionSlotOn c "req-3" 1 3 "S" "haiku" r2.2 in
  let r4 := AcquireSessionSlotOn c "req-4" 1 3 "S" "haiku" r3.2 in
  admitted r1.1 = Some 3 /\ admitted r2.1 = Some 3 /\
  admitted r3.1 = Some 3 /\ admitted r4.1 = Some 3 /\
  ownedBy 1000 (slotOwner 1000 1 3 (sdb r3.2)) = Some ("S", 3) /\
  ownedBy 1000 (slotOwner 1000 1 3 (sdb r4.2)) = Some ("S", 4) /\
  haikuMaxParallel = 3 /\
  (AcquireSlotWithSession (cfg c) 1 3 "S" "req-4" 1000 (sdb r3.2)).1 = false.
Proof. vm_compute. repeat split; reflexivity. Qed.

(** ** Over-admission through the session-aware path *)

(** C1 fails on the code: with concurrency limit 3 the pool has 4 slots
    (heavy = [0, 2), medium = [2, 4)); two heavy and two medium sessions
    that hash to different slots are all admitted by AcquireSessionSlot,
    and the account's slot set then has 4 members. *)
Theorem over_admission_at_limit_3 :
  let c := {| cfg := NewConcurrencyCache 15 0; sessionSlotTTLSeconds := 900 |} in
  let s0 := {| sdb := emptyDb; sclock := 1000 |} in
  let r1 := AcquireSessionSlotOn c "req-1" 1 3 "b" "opus" s0 in
  let r2 := AcquireSessionSlotOn c "req-2" 1 3 "a" "opus" r1.2 in
  let r3 := AcquireSessionSlotOn c "req-3" 1 3 "d" "sonnet" r2.2 in
  let r4 := AcquireSessionSlotOn c "req-4" 1 3 "c" "sonnet" r3.2 in
  CalculateTotalSlots 3 = 4 /\
  admitted r1.1 = Some 0 /\ admitted r2.1 = Some 1 /\
  admitted r3.1 = Some 2 /\ admitted r4.1 = Some 3 /\
  occupied 1 r4.2 = 4 /\
  ~ (occupied 1 r4.2 <= 3).
Proof. vm_compute. repeat split; try reflexivity. intros H. apply H. reflexivity. Qed.

(** ** The session hash *)

Lemma byte_bound (c : ascii) : 0 <= Z.of_N (N_of_ascii c) <= 255.
Proof. pose proof (N_ascii_bounded c). lia. Qed.

Lemma byteTotal_bound (s : string) :
  0 <= byteTotal s <= 255 * Z.of_nat (String.length s).
Proof.
  unfold byteTotal, bytes. induction s as [|c s IH]; simpl; [lia|].
  pose proof (byte_bound c). lia.
Qed.

Lemma fold_add_small (l : list Z) (acc : Z) :
  Forall (fun b => 0 <= b) l ->
  0 <= acc -> acc + foldr Z.add 0 l <= MaxInt ->
  fold_left (fun sum b => add sum b) l acc = acc + foldr Z.add 0 l.
Proof.
  revert acc. induction l as [|b l IH]; intros acc Hl Hacc Hmax; simpl in *.
  - lia.
  - inversion Hl as [|? ? Hb Hl']; subst.
    assert (0 <= foldr Z.add 0 l).
    { clear -Hl'. induction Hl'; simpl; lia. }
    rewrite add_small by (unfold MinInt, MaxInt, intSize in *; lia).
    rewrite IH; [lia|done|lia|lia].
Qed.

(** While the sum fits an [int] the loop of [hashToSlotIndex] computes
    the sum of the bytes. *)
Lemma byteSum_total (s : string) :
  255 * Z.of_nat (String.length s) <= MaxInt -> byteSum s = byteTotal s.
Proof.
  intros Hlen. pose proof (byteTotal_bound s) as Hb. unfold byteSum.
  rewrite fold_add_small; [done| |lia|unfold byteTotal in Hb; lia].
  unfold bytes. apply Forall_forall. intros b Hin.
  apply list_elem_of_fmap in Hin as (c & -> & _). apply byte_bound.
Qed.

Lemma hashToSlotIndex_mod (s : string) (n : Z) :
  255 * Z.of_nat (String.length s) <= MaxInt -> 0 < n ->
  hashToSlotIndex s n = byteTotal s mod n.
Proof.
  intros Hlen Hn. unfold hashToSlotIndex.
  destruct (Z.leb_spec n 0); [lia|].
  rewrite byteSum_total by done. apply rem_nonneg; [|done].
  apply byteTotal_bound.
Qed.

(** ** The ranges of the model categories *)

Lemma categoryRange_cases (modelCategory : string) (T : Z) :
  - 2 ^ 63 <= T <= 2 ^ 62 ->
  let r := categoryRange modelCategory T in
  0 <= r.1 /\ r.2 <= 2 ^ 62 /\ (r.1 < r.2 -> r.2 <= T) /\
  sub r.2 r.1 = r.2 - r.1.
Proof.
  intros HT r. subst r. unfold categoryRange.
  assert (Hsplit : forall T', 2 <= T' <= 2 ^ 62 ->
            CalculateModelSlotRange T' =
              ({| Start := 0; End := T' / 2 |}, {| Start := T' / 2; End := T' |})).
  { intros T' HT'. apply CalculateModelSlotRange_split.
    unfold MaxInt, intSize. lia. }
  assert (Hhalf : 2 <= T -> 0 <= T / 2 <= T).
  { intros. split; [apply Z.div_pos; lia|].
    apply Z.div_le_upper_bound; lia. }
  assert (Hsmall : forall a b, 0 <= a -> a <= 2 ^ 62 -> - 2 ^ 63 <= b <= 2 ^ 62 ->
            a = 0 \/ 0 <= b -> sub b a = b - a).
  { intros a b ? ? ? ?. apply sub_small. unfold MinInt, MaxInt, intSize in *. lia. }
  assert (Hpair : forall T', T' <= 1 ->
            CalculateModelSlotRange T' =
              if T' <=? 0
              then ({| Start := 0; End := 0 |}, {| Start := 0; End := 0 |})
              else ({| Start := 0; End := 1 |}, {| Start := 0; End := 1 |})).
  { intros T' HT'. unfold CalculateModelSlotRange.
    destruct (Z.leb_spec T' 0); [done|].
    destruct (Z.eqb_spec T' 1); [done|lia]. }
  destruct (String.eqb modelCategory "opus");
    [|destruct (String.eqb modelCategory "sonnet")].
  - destruct (Z.le_gt_cases T 1) as [H1|H1].
    + rewrite Hpair by done. destruct (Z.leb_spec T 0); simpl;
        (split; [lia|split; [lia|split; [lia|vm_compute; reflexivity]]]).
    + rewrite Hsplit by lia. specialize (Hhalf ltac:(lia)). simpl.
      split; [lia|split; [lia|split; [lia|apply Hsmall; lia]]].
  - destruct (Z.le_gt_cases T 1) as [H1|H1].
    + rewrite Hpair by done. destruct (Z.leb_spec T 0); simpl;
        (split; [lia|split; [lia|split; [lia|vm_compute; reflexivity]]]).
    + rewrite Hsplit by lia. specialize (Hhalf ltac:(lia)). simpl.
      split; [lia|split; [lia|split; [lia|apply Hsmall; lia]]].
  - simpl. split; [lia|split; [lia|split; [lia|apply Hsmall; lia]]].
Qed.

(** ** The probes of [AcquireSessionSlot] *)

Section Probes.
Context {S : Type} (I : ConcurrencyCache S).
Variables (accountID : Z) (sessionHash modelCategory requestID : string).
Variables (rangeStart rangeSize maxParallel : Z).
Hypothesis Hstart : 0 <= rangeStart.
Hypothesis Hsize : 0 < rangeSize.
Hypothesis Hend : rangeStart + rangeSize <= 2 ^ 62.
Hypothesis Hlen : 255 * Z.of_nat (String.length sessionHash) <= MaxInt.

Let h : Z := byteTotal sessionHash mod rangeSize.
Let scan : Z -> Z := scanSlot rangeStart rangeSize sessionHash.

Lemma h_bound : 0 <= h < rangeSize.
Proof. apply Z.mod_pos_bound. done. Qed.

Lemma scan_in_range (off : Z) :
  rangeStart <= scan off < rangeStart + rangeSize.
Proof.
  unfold scan, scanSlot.
  pose proof (Z.mod_pos_bound (byteTotal sessionHash mod rangeSize + off)
                rangeSize Hsize). lia.
Qed.

Lemma fallbackSlot_scan (off : Z) :
  0 <= off <= rangeSize ->
  add rangeStart (rem (add h off) rangeSize) = scan off.
Proof.
  intros Hoff. pose proof h_bound.
  rewrite (add_small h off) by (unfold MinInt, MaxInt, intSize; lia).
  rewrite rem_nonneg by lia.
  pose proof (Z.mod_pos_bound (h + off) rangeSize Hsize).
  rewrite add_small by (unfold MinInt, MaxInt, intSize; lia). done.
Qed.

Lemma seqZ_step (off : Z) (k : nat) :
  seqZ off (Z.of_nat (Datatypes.S k)) = off :: seqZ (off + 1) (Z.of_nat k).
Proof. rewrite seqZ_cons by lia. f_equal. f_equal; lia. Qed.

(** The scan: its probes are the slots at the next offsets, in order; an
    admission is to the last slot probed; a scan that ends without one
    has probed every remaining offset and answers with the target. *)
Lemma fallback_probes (remaining : nat) (off : Z) (s : S) (l : list Z) :
  1 <= off -> off + Z.of_nat remaining <= rangeSize ->
  let run := @fallback _ (recording I) accountID sessionHash modelCategory
               requestID rangeStart rangeSize maxParallel h (rangeStart + h)
               remaining off (s, l) in
  exists (k : nat) (res : SessionSlotResult),
    (k <= remaining)%nat /\
    run.2.2 = l ++ (scan <$> seqZ off (Z.of_nat k)) /\
    run.1 = Ok res /\
    (Acquired res = true ->
     list.last run.2.2 = Some (SlotIndex res) /\ (0 < k)%nat) /\
    (Acquired res = false -> SlotIndex res = rangeStart + h /\ k = remaining).
Proof.
  revert off s l. induction remaining as [|n IH]; intros off s l Hoff Hrem run.
  - exists 0%nat, {| Acquired := false; SlotIndex := rangeStart + h;
                     ReleaseFunc := None |}.
    subst run. simpl. rewrite app_nil_r. repeat split; done.
  - subst run. cbn [fallback]. unfold mbind, M_bind, mret, M_ret.
    rewrite fallbackSlot_scan by lia.
    cbn [Service.AcquireSlotWithSession recording fst snd].
    destruct (@Service.AcquireSlotWithSession S I accountID (scan off) sessionHash
                maxParallel requestID modelCategory s) as [x s1] eqn:Ex.
    assert (Hoff1 : add off 1 = off + 1).
    { apply add_small. unfold MinInt, MaxInt, intSize. lia. }
    assert (Hnext : forall s1,
      let run := @fallback _ (recording I) accountID sessionHash modelCategory
               requestID rangeStart rangeSize maxParallel h (rangeStart + h)
               n (add off 1) (s1, l ++ [scan off]) in
      x <> Ok true ->
      exists (k : nat) (res : SessionSlotResult),
        (k <= Datatypes.S n)%nat /\
        run.2.2 = l ++ (scan <$> seqZ off (Z.of_nat k)) /\
        run.1 = Ok res /\
        (Acquired res = true ->
         list.last run.2.2 = Some (SlotIndex res) /\ (0 < k)%nat) /\
        (Acquired res = false ->
         SlotIndex res = rangeStart + h /\ k = Datatypes.S n)).
    { intros s1' run Hx. subst run. rewrite Hoff1.
      destruct (IH (off + 1) s1' (l ++ [scan off]) ltac:(lia) ltac:(lia))
        as (k & res & Hk & Hlog & Hres & Hacq & Hnot).
      exists (Datatypes.S k), res. split; [lia|]. split.
      { rewrite Hlog, seqZ_step, fmap_cons, <- app_assoc. done. }
      split; [done|]. split; [intros Ha; split; [by apply Hacq|lia]|].
      intros Hn. destruct (Hnot Hn) as [? ->]. done. }
    destruct x as [[|]|e].
    + cbn [SetSessionSlot recording fst snd].
      destruct (@SetSessionSlot S I accountID sessionHash (scan off) s1)
        as [u s2].
      exists 1%nat, (acquired accountID sessionHash modelCategory (scan off)).
      cbn [fst snd]. split; [lia|]. split.
      { change (Z.of_nat 1) with 1. rewrite seqZ_cons by lia. done. }
      split; [done|]. split; [intros _; split; [apply last_snoc|lia]|].
      done.
    + apply Hnext. done.
    + apply Hnext. done.
Qed.
Lemma scan_0 : scan 0 = rangeStart + h.
Proof.
  unfold scan, scanSlot. fold h. rewrite Z.add_0_r.
  rewrite Z.mod_small by apply h_bound. done.
Qed.

Lemma selectInRange_probes (s : S) (l : list Z) :
  let run := @selectInRange _ (recording I) accountID sessionHash modelCategory
               requestID rangeStart rangeSize maxParallel (s, l) in
  exists k : nat,
    (1 <= k <= Z.to_nat rangeSize)%nat /\
    run.2.2 = l ++ (scan <$> seqZ 0 (Z.of_nat k)) /\
    (forall res, run.1 = Ok res ->
       (Acquired res = true -> list.last run.2.2 = Some (SlotIndex res)) /\
       (Acquired res = false -> SlotIndex res = scan 0)).
Proof.
  intros run. subst run. unfold selectInRange, mbind, M_bind, mret, M_ret.
  rewrite hashToSlotIndex_mod by done. fold h.
  pose proof h_bound as Hh.
  rewrite (add_small rangeStart h) by (unfold MinInt, MaxInt, intSize; lia).
  rewrite <- scan_0.
  cbn [Service.AcquireSlotWithSession recording fst snd].
  destruct (@Service.AcquireSlotWithSession S I accountID (scan 0) sessionHash
              maxParallel requestID modelCategory s) as [x s1] eqn:Ex.
  assert (Hone : l ++ [scan 0] = l ++ (scan <$> seqZ 0 (Z.of_nat 1))).
  { change (Z.of_nat 1) with 1. rewrite seqZ_cons by lia. done. }
  destruct x as [[|]|e].
  - cbn [SetSessionSlot recording fst snd].
    destruct (@SetSessionSlot S I accountID sessionHash (scan 0) s1) as [u s2].
    exists 1%nat. cbn [fst snd]. split; [lia|]. split; [done|].
    intros res [= <-]. split; [intros _; apply last_snoc|done].
  - rewrite scan_0.
    destruct (fallback_probes (Z.to_nat (rangeSize - 1)) 1 s1 (l ++ [scan 0])
                ltac:(lia) ltac:(lia))
      as (k & res & Hk & Hlog & Hres & Hacq & Hnot).
    rewrite <- scan_0 in *.
    exists (Datatypes.S k). split; [lia|]. split.
    + rewrite Hlog, seqZ_step, fmap_cons, <- app_assoc. done.
    + intros res' Hres'. rewrite Hres in Hres'. injection Hres' as <-.
      split; [intros Ha; by apply Hacq|].
      intros Hn. destruct (Hnot Hn) as [-> _]. by rewrite scan_0.
  - exists 1%nat. cbn [fst snd]. split; [lia|]. split; [done|]. done.
Qed.

Lemma tryBound_probes (s : S) :
  let run := @tryBound _ (recording I) accountID sessionHash modelCategory
               requestID rangeStart rangeSize maxParallel
               (rangeStart + rangeSize) (s, []) in
  exists (bound : list Z) (k : nat),
    (bound = [] \/
     exists b, bound = [b] /\ rangeStart <= b < rangeStart + rangeSize) /\
    (k <= Z.to_nat rangeSize)%nat /\
    run.2.2 = bound ++ (scan <$> seqZ 0 (Z.of_nat k)) /\
    (forall res, run.1 = Ok res ->
       (Acquired res = true -> list.last run.2.2 = Some (SlotIndex res)) /\
       (Acquired res = false -> SlotIndex res = scan 0)).
Proof.
  intros run. subst run. unfold tryBound, mbind, M_bind, mret, M_ret.
  cbn [GetSessionSlot recording fst snd].
  destruct (@GetSessionSlot S I accountID sessionHash s) as [g s0].
  set (boundSlot := match g with Ok slot => slot | Err _ => -1 end).
  assert (Hfresh : forall s',
    let run := @selectInRange _ (recording I) accountID sessionHash
                 modelCategory requestID rangeStart rangeSize maxParallel
                 (s', []) in
    exists (bound : list Z) (k : nat),
      (bound = [] \/
       exists b, bound = [b] /\ rangeStart <= b < rangeStart + rangeSize) /\
      (k <= Z.to_nat rangeSize)%nat /\
      run.2.2 = bound ++ (scan <$> seqZ 0 (Z.of_nat k)) /\
      (forall res, run.1 = Ok res ->
         (Acquired res = true -> list.last run.2.2 = Some (SlotIndex res)) /\
         (Acquired res = false -> SlotIndex res = scan 0))).
  { intros s' run.
    destruct (selectInRange_probes s' []) as (k & Hk & Hlog & Hres).
    exists [], k. split; [by left|]. split; [lia|]. done. }
  destruct (0 <=? boundSlot); [|apply Hfresh].
  destruct (Z.leb_spec rangeStart boundSlot) as [Hlo|]; [|apply Hfresh].
  destruct (Z.ltb_spec boundSlot (rangeStart + rangeSize)) as [Hhi|];
    [|apply Hfresh].
  cbn [andb Service.AcquireSlotWithSession recording fst snd].
  destruct (@Service.AcquireSlotWithSession S I accountID boundSlot sessionHash
              maxParallel requestID modelCategory s0) as [x s1] eqn:Ex.
  destruct x as [[|]|e].
  - cbn [RefreshSessionSlotTTL recording fst snd].
    destruct (@RefreshSessionSlotTTL S I accountID sessionHash s1) as [u s2].
    exists [boundSlot], 0%nat. cbn [fst snd]. split; [right; eauto|].
    split; [lia|]. split; [done|].
    intros res [= <-]. split; [done|done].
  - destruct (selectInRange_probes s1 [boundSlot])
      as (k & Hk & Hlog & Hres).
    exists [boundSlot], k. split; [right; eauto|]. split; [lia|]. done.
  - exists [boundSlot], 0%nat. cbn [fst snd]. split; [right; eauto|].
    split; [lia|]. split; [done|]. done.
Qed.
End Probes.

(** ** A range whose slots are all occupied *)

Lemma busy_refuses (ttl accountID slotIndex : Z) (sessionHash requestID : string)
  (now : Z) (d : db) :
  slotBusy now accountID slotIndex d = true ->
  acquireSlotWithSessionScript (slotOwnerKey accountID slotIndex)
    (accountSlotKey accountID) ttl slotIndex sessionHash 1 requestID now d
  = (0, d).
Proof.
  unfold slotBusy, slotOwner, slotMarked. intros Hbusy.
  rewrite session_script_cases. cbv zeta.
  destruct (ownedBy now (hread now (slotOwnerKey accountID slotIndex) d))
    as [[o n]|].
  - apply Z.leb_le in Hbusy. destruct (Z.ltb_spec n 1); [lia|].
    by rewrite andb_false_r.
  - apply andb_true_iff in Hbusy as [Hexp Hmark].
    apply negb_true_iff in Hexp. rewrite Hexp.
    apply bool_decide_eq_true in Hmark as [sc Hsc]. by rewrite Hsc.
Qed.

Section BusyRange.
Variable c : redisCache.
Variables (accountID : Z) (sessionHash modelCategory requestID : string).
Variables (rangeStart rangeSize : Z).
Variable sv : server.
Hypothesis Hstart : 0 <= rangeStart.
Hypothesis Hsize : 0 < rangeSize.
Hypothesis Hend : rangeStart + rangeSize <= 2 ^ 62.
Hypothesis Hlen : 255 * Z.of_nat (String.length sessionHash) <= MaxInt.
Hypothesis Hbusy :
  forall i, rangeStart <= i < rangeStart + rangeSize ->
    slotBusy (sclock sv) accountID i (sdb sv) = true.

Let h : Z := byteTotal sessionHash mod rangeSize.
Let full : SessionSlotResult :=
  {| Acquired := false; SlotIndex := rangeStart + h; ReleaseFunc := None |}.

Lemma probe_busy (i : Z) :
  rangeStart <= i < rangeStart + rangeSize ->
  @Service.AcquireSlotWithSession server (cacheOf c) accountID i sessionHash 1
    requestID modelCategory sv = (Ok false, sv).
Proof.
  intros Hi. cbn [Service.AcquireSlotWithSession cacheOf].
  unfold run, AcquireSlotWithSession_redis, mbind, Lua_bind, mret, Lua_ret,
    M_bind, M_ret.
  rewrite busy_refuses by auto. by destruct sv.
Qed.

Lemma fallback_busy (remaining : nat) (off : Z) :
  1 <= off -> off + Z.of_nat remaining <= rangeSize ->
  @fallback server (cacheOf c) accountID sessionHash modelCategory requestID
    rangeStart rangeSize 1 h (rangeStart + h) remaining off sv
  = (Ok full, sv).
Proof.
  revert off. induction remaining as [|n IH]; intros off Hoff Hrem; [done|].
  cbn [fallback]. unfold mbind, M_bind, mret, M_ret.
  unfold h at 1. rewrite fallbackSlot_scan by (done || lia).
  rewrite probe_busy by (apply scan_in_range; done).
  rewrite add_small by (unfold MinInt, MaxInt, intSize; lia).
  apply IH; lia.
Qed.

Lemma selectInRange_busy :
  @selectInRange server (cacheOf c) accountID sessionHash modelCategory
    requestID rangeStart rangeSize 1 sv = (Ok full, sv).
Proof.
  unfold selectInRange, mbind, M_bind, mret, M_ret.
  rewrite hashToSlotIndex_mod by done. fold h.
  pose proof (h_bound sessionHash rangeSize Hsize) as Hh. fold h in Hh.
  rewrite (add_small rangeStart h) by (unfold MinInt, MaxInt, intSize; lia).
  rewrite probe_busy by lia.
  apply fallback_busy; lia.
Qed.

Lemma tryBound_busy :
  @tryBound server (cacheOf c) accountID sessionHash modelCategory requestID
    rangeStart rangeSize 1 (rangeStart + rangeSize) sv = (Ok full, sv).
Proof.
  unfold tryBound, mbind, M_bind, mret, M_ret.
  cbn [GetSessionSlot cacheOf].
  unfold run at 1, GetSessionSlot_redis, mbind, Lua_bind, mret, Lua_ret,
    M_bind, M_ret, GET_int.
  replace {| sdb := sdb sv; sclock := sclock sv |} with sv by (by destruct sv).
  set (boundSlot := default (-1) _).
  destruct (0 <=? boundSlot); [|apply selectInRange_busy].
  destruct (Z.leb_spec rangeStart boundSlot) as [Hlo|];
    [|apply selectInRange_busy].
  destruct (Z.ltb_spec boundSlot (rangeStart + rangeSize)) as [Hhi|];
    [|apply selectInRange_busy].
  cbn [andb]. rewrite probe_busy by lia. apply selectInRange_busy.
Qed.
End BusyRange.

(** ** Recording does not change what the service does *)

Section Recording.
Context {S : Type} (I : ConcurrencyCache S).
Variables (accountID : Z) (sessionHash modelCategory requestID : string).
Variables (rangeStart rangeSize maxParallel : Z).

Lemma recording_fallback (h target : Z) (remaining : nat) (off : Z)
  (s : S) (l : list Z) :
  let rec := @fallback _ (recording I) accountID sessionHash modelCategory
               requestID rangeStart rangeSize maxParallel h target remaining
               off (s, l) in
  (rec.1, rec.2.1) =
    @fallback _ I accountID sessionHash modelCategory requestID rangeStart
      rangeSize maxParallel h target remaining off s.
Proof.
  revert off s l. induction remaining as [|n IH]; intros off s l; [done|].
  cbn [fallback]. unfold mbind, M_bind, mret, M_ret.
  cbn [Service.AcquireSlotWithSession recording fst snd].
  destruct (@Service.AcquireSlotWithSession S I accountID _ sessionHash
              maxParallel requestID modelCategory s) as [x s1].
  destruct x as [[|]|e]; [|apply IH|apply IH].
  cbn [SetSessionSlot recording fst snd].
  by destruct (@SetSessionSlot S I accountID sessionHash _ s1).
Qed.

Lemma recording_selectInRange (s : S) (l : list Z) :
  let rec := @selectInRange _ (recording I) accountID sessionHash modelCategory
               requestID rangeStart rangeSize maxParallel (s, l) in
  (rec.1, rec.2.1) =
    @selectInRange _ I accountID sessionHash modelCategory requestID
      rangeStart rangeSize maxParallel s.
Proof.
  unfold selectInRange, mbind, M_bind, mret, M_ret.
  cbn [Service.AcquireSlotWithSession recording fst snd].
  destruct (@Service.AcquireSlotWithSession S I accountID _ sessionHash
              maxParallel requestID modelCategory s) as [x s1].
  destruct x as [[|]|e]; [|apply recording_fallback|done].
  cbn [SetSessionSlot recording fst snd].
  by destruct (@SetSessionSlot S I accountID sessionHash _ s1).
Qed.

Lemma recording_tryBound (rangeEnd : Z) (s : S) (l : list Z) :
  let rec := @tryBound _ (recording I) accountID sessionHash modelCategory
               requestID rangeStart rangeSize maxParallel rangeEnd (s, l) in
  (rec.1, rec.2.1) =
    @tryBound _ I accountID sessionHash modelCategory requestID rangeStart
      rangeSize maxParallel rangeEnd s.
Proof.
  unfold tryBound, mbind, M_bind, mret, M_ret.
  cbn [GetSessionSlot recording fst snd].
  destruct (@GetSessionSlot S I accountID sessionHash s) as [g s0].
  destruct (0 <=? _); [|apply recording_selectInRange].
  destruct (_ && _); [|apply recording_selectInRange].
  cbn [Service.AcquireSlotWithSession recording fst snd].
  destruct (@Service.AcquireSlotWithSession S I accountID _ sessionHash
              maxParallel requestID modelCategory s0) as [x s1].
  destruct x as [[|]|e]; [|apply recording_selectInRange|done].
  cbn [RefreshSessionSlotTTL recording fst snd].
  by destruct (@RefreshSessionSlotTTL S I accountID sessionHash s1).
Qed.
End Recording.

Lemma recording_AcquireSessionSlot {S : Type} (I : ConcurrencyCache S)
  (cacheIsNil : bool) (requestID : string) (accountID maxConcurrency : Z)
  (sessionHash modelCategory : string) (s : S) (l : list Z) :
  let rec := @AcquireSessionSlot _ (recording I) cacheIsNil requestID accountID
               maxConcurrency sessionHash modelCategory (s, l) in
  (rec.1, rec.2.1) =
    @AcquireSessionSlot _ I cacheIsNil requestID accountID maxConcurrency
      sessionHash modelCategory s.
Proof.
  unfold AcquireSessionSlot. destruct cacheIsNil; [done|].
  destruct (maxConcurrency <=? 0); [done|].
  destruct (categoryRange modelCategory (CalculateTotalSlots maxConcurrency))
    as [rangeStart rangeEnd].
  destruct (sub rangeEnd rangeStart <=? 0); [done|].
  apply recording_tryBound.
Qed.

(** ** Model pools *)

(** C4: for an account with a concurrency limit, a sessionHash that fits
    in memory and a category in {opus, sonnet}: the heavy and medium
    ranges are those of CalculateModelSlotRange and do not overlap once
    T >= 2; whatever the cache answers, AcquireSessionSlot probes only
    slots of the category's range, namely an existing binding inside the
    range and then rangeStart + ((sum of bytes mod rangeSize) + offset) mod
    rangeSize for offset 0 (the preferred slot), 1, 2, ... in order; every
    slot it is admitted to lies in the range; and on the store, when all
    slots of the range are occupied, the result is acquired = false with
    the preferred slot. *)
Theorem model_pool_isolation {S : Type} (I : ConcurrencyCache S) (s : S)
  (c : redisCache) (sv : server)
  (requestID : string) (accountID maxConcurrency : Z)
  (sessionHash modelCategory : string) :
  0 < maxConcurrency ->
  255 * Z.of_nat (String.length sessionHash) <= MaxInt ->
  modelCategory = "opus" \/ modelCategory = "sonnet" ->
  let T := CalculateTotalSlots maxConcurrency in
  let rangeStart := (categoryRange modelCategory T).1 in
  let rangeEnd := (categoryRange modelCategory T).2 in
  let scan := scanSlot rangeStart (rangeEnd - rangeStart) sessionHash in
  let probes :=
    (@AcquireSessionSlot _ (recording I) false requestID accountID
       maxConcurrency sessionHash modelCategory (s, [])).2.2 in
  let result :=
    (@AcquireSessionSlot _ I false requestID accountID maxConcurrency
       sessionHash modelCategory s).1 in
  (categoryRange "opus" T =
     (Start (CalculateModelSlotRange T).1, End (CalculateModelSlotRange T).1)
   /\ categoryRange "sonnet" T =
     (Start (CalculateModelSlotRange T).2, End (CalculateModelSlotRange T).2)
   /\ (2 <= T -> (categoryRange "opus" T).2 <= (categoryRange "sonnet" T).1)) /\
  Forall (fun i => rangeStart <= i < rangeEnd) probes /\
  (exists (bound : list Z) (k : nat),
     (bound = [] \/ exists b, bound = [b]) /\
     probes = bound ++ (scan <$> seqZ 0 (Z.of_nat k))) /\
  (forall res, result = Ok res -> Acquired res = true ->
     rangeStart <= SlotIndex res < rangeEnd) /\
  ((forall i, rangeStart <= i < rangeEnd ->
      slotBusy (sclock sv) accountID i (sdb sv) = true) ->
   rangeStart < rangeEnd ->
   AcquireSessionSlotOn c requestID accountID maxConcurrency sessionHash
     modelCategory sv
   = (Ok {| Acquired := false; SlotIndex := scan 0; ReleaseFunc := None |}, sv)).
Proof.
  intros Hconc Hlen Hcat T rangeStart rangeEnd scan probes result.
  assert (HT : - 2 ^ 63 <= T <= 2 ^ 62).
  { split; [|apply CalculateTotalSlots_upper].
    pose proof (CalculateTotalSlots_inRange maxConcurrency) as Hr.
    unfold inRange, MinInt, intSize in Hr. apply Hr. }
  destruct (categoryRange_cases modelCategory T HT) as (Hrs & Hre & Hle & Hsub).
  fold rangeStart rangeEnd in Hrs, Hre, Hle, Hsub.
  assert (Hpar : categoryMaxParallel modelCategory = 1) by (by destruct Hcat as [->| ->]).
  split.
  { split; [done|]. split; [done|]. intros H2.
    unfold categoryRange. simpl.
    rewrite CalculateModelSlotRange_split
      by (unfold MaxInt, intSize; lia). simpl. lia. }
  destruct (Z.le_gt_cases rangeEnd rangeStart) as [Hempty|Hne].
  - (* an empty range: no probe, no admission *)
    assert (Hprobes : probes = []).
    { subst probes. unfold AcquireSessionSlot.
      destruct (Z.leb_spec maxConcurrency 0); [lia|].
      fold T. destruct (categoryRange modelCategory T) as [a b] eqn:E.
      simpl in *. subst rangeStart rangeEnd. rewrite Hsub.
      destruct (Z.leb_spec (b - a) 0); [done|lia]. }
    rewrite Hprobes. split; [constructor|]. split.
    { exists [], 0%nat. split; [by left|done]. }
    split; [|intros; lia].
    intros res Hres Hacq. subst result. unfold AcquireSessionSlot in Hres.
    destruct (Z.leb_spec maxConcurrency 0); [lia|].
    fold T in Hres. destruct (categoryRange modelCategory T) as [a b] eqn:E.
    simpl in *. subst rangeStart rangeEnd. rewrite Hsub in Hres.
    destruct (Z.leb_spec (b - a) 0); [|lia]. injection Hres as <-. done.
  - assert (Hsize : 0 < rangeEnd - rangeStart) by lia.
    assert (Hend : rangeStart + (rangeEnd - rangeStart) <= 2 ^ 62) by lia.
    destruct (tryBound_probes I accountID sessionHash modelCategory requestID
                rangeStart (rangeEnd - rangeStart)
                (categoryMaxParallel modelCategory) Hrs Hsize Hend Hlen s)
      as (bound & k & Hbound & Hk & Hlog & Hres).
    replace (rangeStart + (rangeEnd - rangeStart)) with rangeEnd in * by lia.
    assert (Hunfold : forall (S' : Type) (J : ConcurrencyCache S') (st : S'),
      @AcquireSessionSlot _ J false requestID accountID maxConcurrency
        sessionHash modelCategory st =
      @tryBound _ J accountID sessionHash modelCategory requestID rangeStart
        (rangeEnd - rangeStart) (categoryMaxParallel modelCategory) rangeEnd st).
    { intros S' J st. unfold AcquireSessionSlot.
      destruct (Z.leb_spec maxConcurrency 0); [lia|].
      fold T. subst rangeStart rangeEnd.
      destruct (categoryRange modelCategory T) as [a b] eqn:E.
      simpl in *. rewrite Hsub.
      destruct (Z.leb_spec (b - a) 0); [lia|done]. }
    assert (Hin : Forall (fun i => rangeStart <= i < rangeEnd) probes).
    { subst probes. rewrite Hunfold, Hlog. apply Forall_app. split.
      - destruct Hbound as [->|(b & -> & Hb)]; [constructor|].
        constructor; [done|constructor].
      - apply Forall_fmap, Forall_forall. intros off _. simpl.
        pose proof (scan_in_range sessionHash rangeStart
                      (rangeEnd - rangeStart) Hsize off). lia. }
    split; [done|]. split.
    { exists bound, k. split.
      - destruct Hbound as [->|(b & -> & _)]; [by left|right; eauto].
      - subst probes. by rewrite Hunfold. }
    split.
    + intros res Hr Hacq. subst result.
      pose proof (recording_AcquireSessionSlot I false requestID accountID
                    maxConcurrency sessionHash modelCategory s []) as Hrec.
      cbv zeta in Hrec. apply (f_equal fst) in Hrec. cbn [fst] in Hrec.
      rewrite <- Hrec, Hunfold in Hr.
      destruct (Hres res Hr) as [Hlast _]. specialize (Hlast Hacq).
      apply last_Some_elem_of in Hlast.
      rewrite Forall_forall in Hin. apply Hin. subst probes.
      by rewrite Hunfold.
    + intros Hbusy _. unfold AcquireSessionSlotOn. rewrite Hunfold, Hpar.
      replace rangeEnd with (rangeStart + (rangeEnd - rangeStart)) at 2 by lia.
      rewrite tryBound_busy;
        [|done || lia || (intros i Hi; apply Hbusy; lia)..].
      subst scan. rewrite scan_0 by done. done.
Qed.

Lemma model_pool_isolation_witness :
  let c := {| cfg := NewConcurrencyCache 15 0; sessionSlotTTLSeconds := 900 |} in
  let s0 := {| sdb := emptyDb; sclock := 1000 |} in
  let s1 := (AcquireSessionSlotOn c "req-1" 1 6 "d" "opus" s0).2 in
  let s2 := (AcquireSessionSlotOn c "req-2" 1 6 "e" "opus" s1).2 in
  let s3 := (AcquireSessionSlotOn c "req-3" 1 6 "f" "opus" s2).2 in
  let s4 := (AcquireSessionSlotOn c "req-4" 1 6 "g" "opus" s3).2 in
  categoryRange "opus" (CalculateTotalSlots 6) = (0, 4) /\
  AcquireSessionSlotOn c "req-5" 1 6 "h" "opus" s4
  = (Ok {| Acquired := false; SlotIndex := 0; ReleaseFunc := None |}, s4) /\
  admitted (AcquireSessionSlotOn c "req-6" 1 6 "i" "sonnet" s4).1 = Some 5.
Proof.
  intros c s0 s1 s2 s3 s4.
  split; [vm_compute; reflexivity|]. split; [|vm_compute; reflexivity].
  assert (Hlen : 255 * Z.of_nat (String.length "h") <= MaxInt)
    by (vm_compute; discriminate).
  destruct (model_pool_isolation (cacheOf c) s4 c s4 "req-5" 1 6 "h" "opus"
              ltac:(lia) Hlen (or_introl eq_refl))
    as (_ & _ & _ & _ & Hfull).
  etrans; [apply Hfull|].
  - intros i Hi.
    assert (Hr : categoryRange "opus" (CalculateTotalSlots 6) = (0, 4))
      by (vm_compute; reflexivity).
    rewrite Hr in Hi. simpl in Hi.
    assert (Hcases : i = 0 \/ i = 1 \/ i = 2 \/ i = 3) by lia.
    destruct Hcases as [->|[->|[->| ->]]]; vm_compute; reflexivity.
  - vm_compute. reflexivity.
  - vm_compute. reflexivity.
Defined.

(** ** Model categories *)

Lemma prefixb_spec (p s : list ascii) :
  prefixb p s = true <-> exists post, s = p ++ post.
Proof.
  revert s. induction p as [|a p IH]; intros s; simpl.
  - split; [intros _; by exists s|done].
  - destruct s as [|b s]; [split; [done|by intros [? ?]]|].
    destruct (Ascii.eqb_spec a b) as [->|Hne].
    + rewrite IH. split; intros [post Hp]; exists post; congruence.
    + split; [done|]. intros [post [= ? ?]]. done.
Qed.

Lemma scanWindows_sound (s p : list ascii) (w : nat) :
  scanWindows s p w = true -> exists pre post, s = pre ++ p ++ post.
Proof.
  revert s. induction w as [|w IH]; intros s; simpl; [done|].
  destruct (prefixb p s) eqn:Hp.
  - intros _. apply prefixb_spec in Hp as [post ->].
    exists (@nil ascii), post. reflexivity.
  - destruct s as [|b s]; [done|]. intros Hs.
    destruct (IH s Hs) as (pre & post & ->).
    exists (b :: pre), post. reflexivity.
Qed.

Lemma scanWindows_complete (pre p post : list ascii) (w : nat) :
  (length pre < w)%nat -> scanWindows (pre ++ p ++ post) p w = true.
Proof.
  revert w. induction pre as [|b pre IH]; intros w Hw.
  - destruct w as [|w]; [lia|]. simpl.
    by rewrite (proj2 (prefixb_spec p (p ++ post))) by eauto.
  - destruct w as [|w]; [simpl in Hw; lia|]. simpl.
    destruct (prefixb p (b :: pre ++ p ++ post)); [done|].
    apply IH. simpl in Hw. lia.
Qed.

Lemma containsSubstring_spec (s sub : string) :
  containsSubstring s sub = true <-> occursIn sub s.
Proof.
  unfold containsSubstring, occursIn.
  set (ls := list_ascii_of_string s). set (lp := list_ascii_of_string sub).
  destruct (Nat.ltb_spec (length ls) (length lp)) as [Hshort|Hlong].
  - split; [done|]. intros (pre & post & Heq).
    rewrite Heq, !length_app in Hshort. lia.
  - split; [apply scanWindows_sound|].
    intros (pre & post & Heq). rewrite Heq. apply scanWindows_complete.
    rewrite <- Heq. rewrite Heq at 1. rewrite !length_app. lia.
Qed.

Lemma GetModelCategory_unrecognized (model : string) :
  ~ occursIn "opus" model -> ~ occursIn "sonnet" model ->
  ~ occursIn "haiku" model -> GetModelCategory model = "".
Proof.
  intros Ho Hs Hh. unfold GetModelCategory.
  destruct (containsSubstring model "opus") eqn:E1;
    [by apply containsSubstring_spec in E1|].
  destruct (containsSubstring model "sonnet") eqn:E2;
    [by apply containsSubstring_spec in E2|].
  destruct (containsSubstring model "haiku") eqn:E3;
    [by apply containsSubstring_spec in E3|].
  done.
Qed.

(** C10: a model name containing none of "opus", "sonnet" and "haiku" has
    the empty category; AcquireSessionSlot then takes the whole pool
    [0, T) as its range, with maxParallel = 9999, whatever the cache; and
    on the store a session that already has n requests (1 <= n < 9999) on
    the slot it is bound to is admitted to that slot once more, the count
    becoming n + 1, where a heavy or medium request would find the slot
    occupied. *)
Theorem unrecognized_model_is_light {S : Type} (I : ConcurrencyCache S) (s : S)
  (c : redisCache) (sv : server) (model requestID : string)
  (accountID maxConcurrency : Z) (sessionHash : string)
  (b n later : Z) :
  ~ occursIn "opus" model -> ~ occursIn "sonnet" model ->
  ~ occursIn "haiku" model ->
  0 < maxConcurrency ->
  let T := CalculateTotalSlots maxConcurrency in
  let category := GetModelCategory model in
  let now := sclock sv in
  let run := AcquireSessionSlotOn c requestID accountID maxConcurrency
               sessionHash category sv in
  category = "" /\
  categoryRange category T = (0, T) /\
  categoryMaxParallel category = 9999 /\
  (0 < T ->
   @AcquireSessionSlot _ I false requestID accountID maxConcurrency sessionHash
     category s
   = @tryBound _ I accountID sessionHash "" requestID 0 T 9999 T s) /\
  (boundSlotOf now accountID sessionHash (sdb sv) = Some b -> 0 <= b < T ->
   ownedBy now (slotOwner now accountID b (sdb sv)) = Some (sessionHash, n) ->
   1 <= n < 9999 ->
   later < now + slotTTLSeconds (cfg c) ->
   run.1 = Ok (acquired accountID sessionHash "" b) /\
   ownedBy later (slotOwner later accountID b (sdb run.2))
   = Some (sessionHash, n + 1) /\
   slotBusy now accountID b (sdb sv) = true).
Proof.
  intros Ho Hs Hh Hconc T category now run.
  assert (Hcat : category = "") by (by apply GetModelCategory_unrecognized).
  subst run. rewrite Hcat. clear Hcat category.
  assert (HT : inRange T) by apply CalculateTotalSlots_inRange.
  assert (Hsub : sub T 0 = T).
  { unfold sub. rewrite Z.sub_0_r. by apply wrap_small. }
  assert (Hunfold : forall (S' : Type) (J : ConcurrencyCache S') (st : S'),
    0 < T ->
    @AcquireSessionSlot _ J false requestID accountID maxConcurrency
      sessionHash "" st =
    @tryBound _ J accountID sessionHash "" requestID 0 T 9999 T st).
  { intros S' J st HTpos. unfold AcquireSessionSlot.
    destruct (Z.leb_spec maxConcurrency 0); [lia|]. fold T. simpl.
    rewrite Hsub. destruct (Z.leb_spec T 0); [lia|done]. }
  split; [done|]. split; [done|]. split; [done|]. split; [apply Hunfold|].
  intros Hbound Hb Hown Hn Hlater.
  assert (Hrun :
    AcquireSessionSlotOn c requestID accountID maxConcurrency sessionHash "" sv
    = (Ok (acquired accountID sessionHash "" b),
       {| sdb := with_ints
                   (kexpire now (sessionSlotKey accountID sessionHash)
                      (sessionSlotTTLSeconds c))
                   (joinWrites (slotOwnerKey accountID b)
                      (accountSlotKey accountID) (slotTTLSeconds (cfg c)) b now
                      (sdb sv));
          sclock := now |})).
  { unfold AcquireSessionSlotOn. rewrite Hunfold by lia.
    unfold tryBound, mbind, M_bind, mret, M_ret.
    cbn [GetSessionSlot cacheOf].
    unfold RedisCache.run, GetSessionSlot_redis, mbind, Lua_bind, mret,
      Lua_ret, M_bind, M_ret, GET_int.
    unfold boundSlotOf in Hbound. fold now. rewrite Hbound.
    change (default (-1) (Some b)) with b.
    destruct (Z.leb_spec 0 b); [|lia].
    destruct (Z.ltb_spec b T); [|lia]. cbn [andb]. cbv beta.
    cbn [Service.AcquireSlotWithSession cacheOf].
    unfold RedisCache.run, AcquireSlotWithSession_redis, mbind, Lua_bind,
      mret, Lua_ret, M_bind, M_ret.
    cbn [sdb sclock]. fold now.
    rewrite session_script_cases. cbv zeta.
    unfold slotOwner in Hown. rewrite Hown.
    rewrite bool_decide_eq_true_2 by done.
    destruct (Z.ltb_spec n 9999); [|lia]. cbn [andb].
    replace (1 =? 1) with true by done.
    cbn [RefreshSessionSlotTTL cacheOf].
    unfold RedisCache.run, RefreshSessionSlotTTL_redis, EXPIRE_int.
    cbn [fst snd sdb sclock]. done. }
  rewrite Hrun. cbn [fst snd sdb].
  split; [done|]. split.
  - unfold slotOwner. eapply ownedBy_later; [|exact Hlater|lia].
    cbn [hashes with_ints].
    apply ownedBy_Some in Hown as (_ & Hown & Hcount & _).
    by apply joinWrites_owner.
  - unfold slotBusy. cbv zeta. rewrite Hown. apply Z.leb_le. lia.
Qed.

Lemma unrecognized_model_is_light_witness :
  let c := {| cfg := NewConcurrencyCache 15 0; sessionSlotTTLSeconds := 900 |} in
  let s0 := {| sdb := emptyDb; sclock := 1000 |} in
  let category := GetModelCategory "gpt-4" in
  let s1 := (AcquireSessionSlotOn c "req-1" 1 3 "S" category s0).2 in
  let r2 := AcquireSessionSlotOn c "req-2" 1 3 "S" category s1 in
  category = "" /\
  r2.1 = Ok (acquired 1 "S" "" 3) /\
  ownedBy 1000 (slotOwner 1000 1 3 (sdb r2.2)) = Some ("S", 2).
Proof.
  intros c s0 category s1 r2.
  assert (Hno : forall sub, containsSubstring "gpt-4" sub = false ->
                  ~ occursIn sub "gpt-4").
  { intros sub Hf Hin%containsSubstring_spec. congruence. }
  destruct (unrecognized_model_is_light (cacheOf c) s1 c s1 "gpt-4" "req-2" 1 3
              "S" 3 1 1000
              (Hno "opus" eq_refl) (Hno "sonnet" eq_refl) (Hno "haiku" eq_refl)
              ltac:(lia))
    as (Hcat & _ & _ & _ & Hjoin).
  split; [exact Hcat|].
  destruct Hjoin as (Hres & Hcount & _).
  - vm_compute. reflexivity.
  - vm_compute. split; [discriminate|reflexivity].
  - vm_compute. reflexivity.
  - lia.
  - vm_compute. reflexivity.
  - split; [exact Hres|exact Hcount].
Defined.

(** ** The RPM wait *)

(** C3, as amended: a maxRPM of 0 (or below) does not skip the RPM wait;
    WaitForRPMSlot then applies the default limit defaultAccountMaxRPM = 4:
    it decides exactly as with maxRPM = 4.  It returns at once exactly
    when there is no concurrency service, when the account's RPM cannot
    be read, when the RPM is below 4, or when the RPM is at least 4 but
    the oldest request of the window has already left it (its time plus
    60000 ms is not after now).  In every other case it waits with ping:
    5 s when the time of the oldest request cannot be read or is 0, and
    otherwise until the oldest request leaves the window, capped at 60 s;
    so when it waits the account's RPM is at least 4 and the wait is more
    than 0 and at most 60 s. *)
Theorem rpm_zero_is_default_limit (serviceIsNil : bool) (maxRPM : Z)
  (accountRPM oldestRequestTime : goResult Z) (nowMs : Z) :
  maxRPM <= 0 ->
  let decision :=
    WaitForRPMSlot serviceIsNil maxRPM accountRPM oldestRequestTime nowMs in
  decision =
    WaitForRPMSlot serviceIsNil defaultAccountMaxRPM accountRPM
      oldestRequestTime nowMs /\
  (forall rpm, accountRPM = Ok rpm -> rpm < defaultAccountMaxRPM ->
     decision = returnNow) /\
  (forall ms, decision = waitWithPing ms ->
     serviceIsNil = false /\
     (exists rpm, accountRPM = Ok rpm /\ defaultAccountMaxRPM <= rpm) /\
     0 < ms <= rpmWindowSeconds * 1000) /\
  (decision = returnNow <->
   serviceIsNil = true \/
   (exists e, accountRPM = Err e) \/
   (exists rpm, accountRPM = Ok rpm /\
      (rpm < defaultAccountMaxRPM \/
       exists oldest, oldestRequestTime = Ok oldest /\ oldest <> 0 /\
         sub (add oldest (rpmWindowSeconds * 1000)) nowMs <= 0))) /\
  (decision <> returnNow ->
   exists ms, decision = waitWithPing ms /\ 0 < ms <= 60000) /\
  (forall rpm, serviceIsNil = false -> accountRPM = Ok rpm ->
     defaultAccountMaxRPM <= rpm ->
     ((exists e, oldestRequestTime = Err e) \/ oldestRequestTime = Ok 0 ->
      decision = waitWithPing 5000) /\
     (forall oldest, oldestRequestTime = Ok oldest -> oldest <> 0 ->
        0 <= oldest <= MaxInt - 60000 -> 0 <= nowMs <= MaxInt ->
        (oldest + 60000 <= nowMs -> decision = returnNow) /\
        (nowMs < oldest + 60000 ->
         decision = waitWithPing (Z.min (oldest + 60000 - nowMs) 60000)))).
Proof.
  intros Hmax decision. subst decision. unfold WaitForRPMSlot.
  destruct (Z.leb_spec maxRPM 0); [|lia].
  change (defaultAccountMaxRPM <=? 0) with false. cbv iota.
  split; [done|]. split; [|split; [|split; [|split]]].
  - intros rpm -> Hlt. destruct serviceIsNil; [done|].
    by destruct (Z.ltb_spec rpm defaultAccountMaxRPM); [|lia].
  - intros ms. destruct serviceIsNil; [done|].
    destruct accountRPM as [rpm|e]; [|done].
    destruct (Z.ltb_spec rpm defaultAccountMaxRPM) as [|Hge]; [done|].
    intros Hw. split; [done|]. split; [eauto|].
    unfold rpmWindowSeconds in *.
    destruct oldestRequestTime as [oldest|e].
    + destruct (oldest =? 0); [injection Hw as <-; lia|].
      destruct (Z.leb_spec (sub (add oldest (60 * 1000)) nowMs) 0); [done|].
      destruct (Z.ltb_spec (60 * 1000) (sub (add oldest (60 * 1000)) nowMs));
        injection Hw as <-; lia.
    + injection Hw as <-. lia.
  - destruct serviceIsNil; [split; [by left|done]|].
    destruct accountRPM as [rpm|e]; [|split; [right; left; by eexists|done]].
    destruct (Z.ltb_spec rpm defaultAccountMaxRPM) as [Hlt|Hge].
    { split; [|done]. intros _. right. right. exists rpm. split; [done|by left]. }
    destruct oldestRequestTime as [oldest|e].
    + destruct (Z.eqb_spec oldest 0) as [->|Hne].
      * split; [done|].
        intros [?|[[? ?]|(rpm' & [= <-] & [?|(o & [= <-] & ? & _)])]];
          done || lia.
      * destruct (Z.leb_spec (sub (add oldest (rpmWindowSeconds * 1000)) nowMs) 0)
          as [Hle|Hgt].
        -- split; [|done]. intros _. right. right. exists rpm.
           split; [done|]. right. exists oldest. done.
        -- split; [done|].
           intros [?|[[? ?]|(rpm' & [= <-] & [?|(o & [= <-] & _ & ?)])]];
             done || lia.
    + split; [done|].
      intros [?|[[? ?]|(rpm' & [= <-] & [?|(o & ? & _)])]]; done || lia.
  - destruct serviceIsNil; [done|].
    destruct accountRPM as [rpm|e]; [|done].
    destruct (rpm <? defaultAccountMaxRPM); [done|].
    unfold rpmWindowSeconds.
    destruct oldestRequestTime as [oldest|e].
    + destruct (oldest =? 0); [intros _; exists 5000; split; [done|lia]|].
      destruct (Z.leb_spec (sub (add oldest (60 * 1000)) nowMs) 0); [done|].
      intros _.
      destruct (Z.ltb_spec (60 * 1000) (sub (add oldest (60 * 1000)) nowMs));
        eexists; (split; [reflexivity|lia]).
    + intros _. exists 5000. split; [done|lia].
  - intros rpm -> -> Hge.
    destruct (Z.ltb_spec rpm defaultAccountMaxRPM); [lia|]. split.
    + intros [[e ->]| ->]; done.
    + intros oldest -> Hne Hold Hnow.
      destruct (Z.eqb_spec oldest 0); [done|].
      unfold rpmWindowSeconds. change (60 * 1000) with 60000.
      rewrite (add_small oldest 60000)
        by (unfold MinInt, MaxInt, intSize in *; lia).
      rewrite sub_small by (unfold MinInt, MaxInt, intSize in *; lia).
      destruct (Z.leb_spec (oldest + 60000 - nowMs) 0).
      * split; [done|lia].
      * split; [lia|]. intros _.
        destruct (Z.ltb_spec 60000 (oldest + 60000 - nowMs)).
        -- by rewrite Z.min_r by lia.
        -- by rewrite Z.min_l by lia.
Qed.

Lemma rpm_zero_is_default_limit_witness :
  WaitForRPMSlot false 0 (Ok 3) (Ok 1700000000000) 1700000010000 = returnNow.
Proof.
  destruct (rpm_zero_is_default_limit false 0 (Ok 3) (Ok 1700000000000)
              1700000010000 ltac:(lia)) as (_ & Hbelow & _).
  apply (Hbelow 3 eq_refl). reflexivity.
Defined.

(** C3 as stated fails: with maxRPM = 0 and four requests in the last
    minute, the oldest 10 s ago, WaitForRPMSlot waits 50 s. *)
Lemma rpm_wait_not_skipped_at_zero :
  WaitForRPMSlot false 0 (Ok 4) (Ok 1700000000000) 1700000010000
  = waitWithPing 50000 /\
  WaitForRPMSlot false 0 (Ok 4) (Ok 1700000000000) 1700000010000 <> returnNow.
Proof. split; [vm_compute; reflexivity|vm_compute; discriminate]. Qed.

(** ** The failover loop *)

Lemma chosen_snoc (calls : list (gset Z * selectResult)) (f : gset Z)
  (r : selectResult) :
  chosen (calls ++ [(f, r)]) =
    match r with
    | selected account => {[account]} ∪ chosen calls
    | _ => chosen calls
    end.
Proof.
  unfold chosen. induction calls as [|[f' r'] calls IH]; simpl.
  - destruct r; [done|done|]. by rewrite union_empty_r_L.
  - rewrite IH. destruct r' as [| |a'], r as [| |a]; try done.
    apply set_eq. intros x. rewrite !elem_of_union. tauto.
Qed.

Section FailoverFacts.
Variable u : upstream.
Variable maxSwitches : Z.
Hypothesis Hmax : 0 <= maxSwitches <= MaxInt.

Lemma failoverLoop_trace (fuel n : nat) (switches : Z) (failed : gset Z)
  (lastStatus : Z) (calls : list (gset Z * selectResult)) (o : outcome) :
  failedSoFar u maxSwitches n switches failed calls ->
  failoverLoop u maxSwitches fuel n switches failed lastStatus calls = Some o ->
  failoverTrace u maxSwitches o.
Proof.
  revert n switches failed lastStatus calls.
  induction fuel as [|fuel IH]; intros n switches failed lastStatus calls
    (Hlen & Hsw & Hle & Hfailed & Hcalls) Hrun; [done|].
  cbn [failoverLoop] in Hrun.
  set (selection := SelectAccountWithLoadAwareness u n failed) in *.
  set (calls' := calls ++ [(failed, selection)]) in *.
  assert (Hlen' : length calls' = Datatypes.S n).
  { unfold calls'. rewrite length_app. simpl. lia. }
  assert (Hgiven : forall i f r, calls' !! i = Some (f, r) ->
            f = chosen (take i calls')).
  { intros i f r Hi. unfold calls' in *.
    destruct (decide (i < length calls)%nat) as [Hlt|Hge].
    - rewrite lookup_app_l in Hi by done. rewrite take_app_le by lia.
      by destruct (Hcalls i f r Hi).
    - rewrite lookup_app_r in Hi by lia.
      destruct (i - length calls)%nat as [|k] eqn:Ek; [|by destruct k].
      injection Hi as <- <-. assert (i = length calls) as -> by lia.
      rewrite take_app_length. done. }
  assert (Hbefore : forall i f r, calls' !! i = Some (f, r) ->
            (Datatypes.S i < length calls')%nat ->
            exists account statusCode,
              r = selected account /\
              pass u i account = forwarded (forwardFailover statusCode)).
  { intros i f r Hi Hlt. unfold calls' in Hi.
    rewrite lookup_app_l in Hi by lia. by destruct (Hcalls i f r Hi). }
  assert (Hlast : list.last calls' = Some (failed, selection))
    by apply last_snoc.
  assert (Hn : Z.to_nat switches = n) by lia.
  assert (Hend : forall r lastStatus',
    (forall f sel, list.last calls' = Some (f, sel) ->
       match sel with
       | selectClaudeCodeOnly =>
           r = handleStreamingAwareError StatusForbidden "access_denied"
                 "This group only allows Claude Code clients. Please use the official Claude Code CLI."
                 (streamStarted u n)
       | selectFailed err =>
           r = if (size f =? 0)%nat
               then handleStreamingAwareError StatusServiceUnavailable
                      "api_error" ("No available accounts: " +:+ err)
                      (streamStarted u n)
               else handleFailoverExhausted lastStatus' (streamStarted u n)
       | selected account =>
           match pass u n account with
           | answered r' => r = r'
           | forwarded forwardOk => r = served
           | forwarded forwardOther => r = writtenElsewhere
           | forwarded (forwardFailover statusCode) =>
               switches = maxSwitches /\ lastStatus' = statusCode /\
               r = handleFailoverExhausted statusCode (streamStarted u n)
           end
       end) ->
    forall failed',
    failoverTrace u maxSwitches {| reply := r; switchCount := switches;
                     failedAccountIDs := failed';
                     lastFailoverStatus := lastStatus';
                     selectorCalls := calls' |}).
  { intros r lastStatus' Hr failed'. unfold failoverTrace. cbn.
    split; [lia|]. split; [lia|]. split; [done|]. split; [done|].
    intros f sel Hl. rewrite Hn. by apply Hr. }
  destruct selection as [|err|account] eqn:Esel.
  - injection Hrun as <-. apply Hend. intros f sel. rewrite Hlast.
    by intros [= <- <-].
  - destruct (size failed =? 0)%nat eqn:Esz; injection Hrun as <-;
      apply Hend; intros f sel; rewrite Hlast; intros [= <- <-];
      by rewrite Esz.
  - destruct (pass u n account) as [r'|[|statusCode|]] eqn:Epass.
    + injection Hrun as <-. apply Hend. intros f sel. rewrite Hlast.
      intros [= <- <-]. by rewrite Epass.
    + injection Hrun as <-. apply Hend. intros f sel. rewrite Hlast.
      intros [= <- <-]. by rewrite Epass.
    + destruct (Z.leb_spec maxSwitches switches) as [Hfull|Hroom].
      * injection Hrun as <-. apply Hend. intros f sel. rewrite Hlast.
        intros [= <- <-]. rewrite Epass. split; [lia|done].
      * apply IH in Hrun; [done|].
        assert (Hadd : add switches 1 = switches + 1).
        { apply add_small. unfold MinInt, MaxInt, intSize in *. lia. }
        rewrite Hadd. split; [done|]. split; [lia|]. split; [lia|]. split.
        { unfold calls'. rewrite chosen_snoc, Hfailed. done. }
        intros i f r Hi. split; [by eapply Hgiven|].
        destruct (decide (Datatypes.S i < length calls')%nat) as [Hlt|Hge].
        { by eapply Hbefore. }
        apply lookup_lt_Some in Hi as Hi'.
        assert (i = n) as -> by lia.
        unfold calls' in Hi. rewrite lookup_app_r in Hi by lia.
        rewrite Hlen, Nat.sub_diag in Hi. injection Hi as <- <-. eauto.
    + injection Hrun as <-. apply Hend. intros f sel. rewrite Hlast.
      intros [= <- <-]. by rewrite Epass.
Qed.

(** The loop ends within the budget: with fuel for one pass more than
    there are switches left it returns. *)
Lemma failoverLoop_total (fuel n : nat) (switches : Z) (failed : gset Z)
  (lastStatus : Z) (calls : list (gset Z * selectResult)) :
  0 <= switches <= maxSwitches ->
  maxSwitches - switches < Z.of_nat fuel ->
  is_Some (failoverLoop u maxSwitches fuel n switches failed lastStatus calls).
Proof.
  revert n switches failed lastStatus calls.
  induction fuel as [|fuel IH]; intros n switches failed lastStatus calls
    Hsw Hfuel; [lia|].
  cbn [failoverLoop].
  destruct (SelectAccountWithLoadAwareness u n failed) as [|err|account];
    [done|by destruct (size failed =? 0)%nat|].
  destruct (pass u n account) as [r'|[|statusCode|]]; [done|done| |done].
  destruct (Z.leb_spec maxSwitches switches); [done|].
  assert (Hadd : add switches 1 = switches + 1).
  { apply add_small. unfold MinInt, MaxInt, intSize in *. lia. }
  rewrite Hadd. apply IH; lia.
Qed.
End FailoverFacts.

Lemma mapUpstreamError_table (statusCode : Z) :
  (statusCode = 429 ->
   (mapUpstreamError statusCode).1 = (StatusTooManyRequests, "rate_limit_error")) /\
  (statusCode = 529 ->
   (mapUpstreamError statusCode).1 = (StatusServiceUnavailable, "overloaded_error")) /\
  (statusCode ∈ [401; 403; 500; 502; 503; 504] ->
   (mapUpstreamError statusCode).1 = (StatusBadGateway, "upstream_error")).
Proof.
  split; [by intros ->|]. split; [by intros ->|].
  rewrite !elem_of_cons, elem_of_nil.
  intros [->|[->|[->|[->|[->|[->|[]]]]]]]; reflexivity.
Qed.

(** C9: the handler's budgets default to 10 switches (3 for the secondary
    family); the failover loop always ends, after at most maxAccountSwitches
    switches and one selection more; every selection is given as failed
    set exactly the accounts chosen before it, each of which was answered
    by an UpstreamFailoverError, so a pass that ends otherwise is the last
    one: a forwarder error of another kind ends the request; when the
    pass at the budget's end fails over with upstream status st the
    reply is that of handleFailoverExhausted: status and error type of
    mapUpstreamError(st) as a JSON error, or the error type alone in an SSE
    event once the stream has started; and mapUpstreamError gives
    429/rate_limit_error for 429, 503/overloaded_error for 529 and
    502/upstream_error for 401, 403, 500, 502, 503 and 504. *)
Theorem failover_budget_and_error_mapping (u : upstream)
  (cfg : option gatewayConfig) (secondary : bool) (statusCode : Z) :
  let h := NewGatewayHandler cfg in
  let budget :=
    if secondary then maxAccountSwitchesGemini h else maxAccountSwitches h in
  budget <= MaxInt ->
  (cfg = None -> maxAccountSwitches h = 10 /\ maxAccountSwitchesGemini h = 3) /\
  0 < budget /\
  (exists o, runFailover u budget (Z.to_nat budget + 1) = Some o /\
     let calls := selectorCalls o in
     let n := Z.to_nat (switchCount o) in
     0 <= switchCount o <= budget /\
     length calls = Datatypes.S n /\
     (forall i f r, calls !! i = Some (f, r) -> f = chosen (take i calls)) /\
     (forall i f r, calls !! i = Some (f, r) -> (i < n)%nat ->
        exists account st,
          r = selected account /\
          pass u i account = forwarded (forwardFailover st) /\
          forall j f' r', (i < j)%nat -> calls !! j = Some (f', r') ->
            account ∈ f') /\
     (forall f account, list.last calls = Some (f, selected account) ->
        (pass u n account = forwarded forwardOther ->
         reply o = writtenElsewhere) /\
        (forall st, pass u n account = forwarded (forwardFailover st) ->
           switchCount o = budget /\
           reply o = handleFailoverExhausted st (streamStarted u n)))) /\
  (forall started,
     handleFailoverExhausted statusCode started =
       if started
       then sseError (mapUpstreamError statusCode).1.2
              (mapUpstreamError statusCode).2
       else jsonError (mapUpstreamError statusCode).1.1
              (mapUpstreamError statusCode).1.2 (mapUpstreamError statusCode).2) /\
  (statusCode = 429 ->
   (mapUpstreamError statusCode).1 = (429, "rate_limit_error")) /\
  (statusCode = 529 ->
   (mapUpstreamError statusCode).1 = (503, "overloaded_error")) /\
  (statusCode ∈ [401; 403; 500; 502; 503; 504] ->
   (mapUpstreamError statusCode).1 = (502, "upstream_error")).
Proof.
  intros h budget Hfit.
  assert (Hpos : 0 < budget).
  { subst budget h. unfold NewGatewayHandler.
    destruct cfg as [cfg|], secondary; simpl; try lia.
    - by destruct (Z.ltb_spec 0 (MaxAccountSwitchesGemini cfg)).
    - by destruct (Z.ltb_spec 0 (MaxAccountSwitches cfg)). }
  split; [by intros ->|]. split; [done|]. split.
  - assert (Hmax : 0 <= budget <= MaxInt) by lia.
    destruct (failoverLoop_total u budget Hmax (Z.to_nat budget + 1) 0 0 ∅ 0 [])
      as [o Ho]; [lia|lia|].
    exists o. split; [exact Ho|].
    assert (Hinit : failedSoFar u budget 0 0 ∅ []).
    { split; [done|]. split; [done|]. split; [lia|]. split; [done|].
      intros i f r Hi. by rewrite lookup_nil in Hi. }
    destruct (failoverLoop_trace u budget Hmax _ _ _ _ _ _ o Hinit Ho)
      as (Hsw & Hlen & Hgiven & Hbefore & Hlast).
    cbv zeta. split; [done|].
    assert (Hlen' : length (selectorCalls o)
                    = Datatypes.S (Z.to_nat (switchCount o))) by lia.
    split; [done|]. split; [done|]. split.
    + intros i f r Hi Hlt.
      destruct (Hbefore i f r Hi ltac:(lia)) as (account & st & -> & Hpass).
      exists account, st. split; [done|]. split; [done|].
      intros j f' r' Hij Hj. rewrite (Hgiven j f' r' Hj).
      apply lookup_lt_Some in Hj as Hjlt.
      assert (Hi' : take j (selectorCalls o) !! i = Some (f, selected account))
        by (by rewrite lookup_take_lt).
      clear -Hi'. revert i Hi'.
      induction (take j (selectorCalls o)) as [|[f0 r0] l IH]; intros i Hi;
        [by rewrite lookup_nil in Hi|].
      destruct i as [|i]; simpl in Hi.
      * injection Hi as -> ->. unfold chosen. simpl. set_unfold. by left.
      * specialize (IH i Hi). unfold chosen in *. simpl.
        destruct r0; [done|done|]. set_unfold. by right.
    + intros f account Hl. specialize (Hlast f (selected account) Hl).
      cbv beta iota zeta in Hlast. split.
      * intros Hp. by rewrite Hp in Hlast.
      * intros st Hp. rewrite Hp in Hlast. by destruct Hlast as (? & ? & ?).
  - split.
    { intros started. unfold handleFailoverExhausted, handleStreamingAwareError.
      by destruct (mapUpstreamError statusCode) as [[? ?] ?]. }
    apply mapUpstreamError_table.
Qed.

Lemma failover_budget_and_error_mapping_witness :
  let u := {| SelectAccountWithLoadAwareness :=
                fun n failed => if decide (1 ∈ failed) then selected 2
                                else selected 1;
              pass := fun n account =>
                        if account =? 1 then forwarded (forwardFailover 503)
                        else forwarded forwardOk;
              streamStarted := fun n => false |} in
  exists o, runFailover u 10 11 = Some o /\
    switchCount o = 1 /\ reply o = served /\
    (selectorCalls o).*2 = [selected 1; selected 2].
Proof.
  intros u.
  assert (Hfit : maxAccountSwitches (NewGatewayHandler None) <= MaxInt)
    by (vm_compute; discriminate).
  destruct (failover_budget_and_error_mapping u None false 503 Hfit)
    as (_ & _ & (o & Ho & _) & _).
  exists o. split; [exact Ho|].
  assert (Hrun : runFailover u 10 11 =
                 Some {| reply := served; switchCount := 1;
                         failedAccountIDs := {[1]};
                         lastFailoverStatus := 503;
                         selectorCalls := [(∅, selected 1); ({[1]}, selected 2)] |}).
  { unfold runFailover. cbn [failoverLoop u SelectAccountWithLoadAwareness pass].
    rewrite decide_False by set_solver. simpl.
    rewrite decide_True by set_solver. simpl.
    rewrite !union_empty_r_L. reflexivity. }
  change (runFailover u 10 11 = Some o) in Ho. rewrite Hrun in Ho.
  injection Ho as <-. simpl. done.
Defined.

(** * Further properties of the cache and the service *)

Import Repository.

(** Unfolding the sequencing of a script. *)
Ltac script_steps :=
  unfold mbind, mret, M_bind, M_ret, Lua_bind, Lua_ret,
    ZREMRANGEBYSCORE, ZSCORE, ZADD, ZCARD, ZREM, EXPIRE_zset, GET_int;
  cbv zeta.

(** ** Sorted sets at one instant *)

Lemma zread_zwrite_ne (now : Z) (key other : string) m d :
  key <> other -> zread now other (zwrite now key m d) = zread now other d.
Proof.
  intros Hne. unfold zread, zwrite, kget.
  destruct (size m =? 0)%nat; simpl.
  - unfold kfind, kdel. by rewrite lookup_delete_ne.
  - by rewrite kfind_kset_ne.
Qed.

Lemma zread_kexpire (now ttl : Z) (key : string) d :
  0 < ttl -> zread now key (with_zsets (kexpire now key ttl) d) = zread now key d.
Proof.
  intros Httl. unfold zread, kget, kexpire. simpl.
  destruct (kfind now key (zsets d)) as [k|] eqn:E; [|by rewrite E].
  unfold kfind at 1. rewrite lookup_insert_eq. unfold alive. simpl.
  destruct (Z.ltb_spec now (now + ttl)); [done|lia].
Qed.

Lemma zread_kexpire_ne (now ttl : Z) (key other : string) d :
  key <> other ->
  zread now other (with_zsets (kexpire now key ttl) d) = zread now other d.
Proof.
  intros Hne. unfold zread, kget, kexpire. simpl.
  destruct (kfind now key (zsets d)) as [k|]; [|done].
  unfold kfind. by rewrite lookup_insert_ne.
Qed.

(** Reading a sorted set later: the members are those written, as long as
    the key has not expired, and none afterwards. *)
Lemma zread_entry (later : Z) (key : string) m (deadline : Z) d :
  zsets d !! key = Some (Keyed m (Some deadline)) ->
  zread later key d = if later <? deadline then m else ∅.
Proof.
  intros E. unfold zread, kget, kfind. rewrite E. unfold alive. simpl.
  by destruct (later <? deadline).
Qed.

(** The members that survive the cleanup of a script run at [now]. *)
Lemma cleanup_run (now : Z) (key : string) (max : Z) d :
  ZREMRANGEBYSCORE now key max d =
    (Z.of_nat (size (zread now key d))
     - Z.of_nat (size (filter (scoreAbove max) (zread now key d))),
     zwrite now key (filter (scoreAbove max) (zread now key d)) d).
Proof. reflexivity. Qed.

Lemma filter_scoreAbove_lookup (max : Z) (m : gmap string Z) member s :
  filter (scoreAbove max) m !! member = Some s <->
  m !! member = Some s /\ max < s.
Proof. by rewrite map_lookup_filter_Some. Qed.

Lemma filter_scoreAbove_idem (max : Z) (m : gmap string Z) :
  filter (scoreAbove max) (filter (scoreAbove max) m) = filter (scoreAbove max) m.
Proof.
  apply map_eq. intros k. apply option_eq. intros s.
  rewrite !filter_scoreAbove_lookup. tauto.
Qed.

(** ** A slot by its index *)

Lemma acquireSlotByIndexScript_cases (key : string) (ttl slotIndex now : Z) d :
  let kept := filter (scoreAbove (now - ttl)) (zread now key d) in
  let d1 := zwrite now key kept d in
  acquireSlotByIndexScript key ttl slotIndex now d =
    match kept !! slotID slotIndex with
    | Some _ => (0, d1)
    | None =>
        (1, with_zsets (kexpire now key ttl)
              (zwrite now key (<[slotID slotIndex := now]> kept) d1))
    end.
Proof.
  intros kept d1.
  unfold acquireSlotByIndexScript. script_steps. fold kept. fold d1.
  assert (Hread : zread now key d1 = kept) by apply zread_zwrite.
  rewrite Hread. destruct (kept !! slotID slotIndex); [done|].
  cbv beta. by rewrite Hread.
Qed.

(** The entry left by [ZADD] and [EXPIRE] on a set just written. *)
Lemma claim_entry (now ttl score : Z) (key member : string) (m : gmap string Z) d :
  zsets (with_zsets (kexpire now key ttl)
           (zwrite now key (<[member := score]> m) d)) !! key =
    Some (Keyed (<[member := score]> m) (Some (now + ttl))).
Proof.
  unfold with_zsets. simpl.
  erewrite kexpire_lookup; [|apply zwrite_find, insert_non_empty]. done.
Qed.

Lemma claim_read (now later ttl score : Z) (key member : string)
  (m : gmap string Z) d :
  later < now + ttl ->
  zread later key (with_zsets (kexpire now key ttl)
                     (zwrite now key (<[member := score]> m) d))
  = <[member := score]> m.
Proof.
  intros Hl. erewrite zread_entry by apply claim_entry.
  destruct (Z.ltb_spec later (now + ttl)); [done|lia].
Qed.

(** X1: a slot taken by its index is exclusive until it is released or
    its time to live has passed: the acquire succeeds exactly when the
    slot is not among the members that survive the cleanup; a refused
    acquire leaves the holder's timestamp as it was; and after a success
    every further acquire of the same slot within the time to live is
    refused. *)
Theorem slot_by_index_exclusive (c : concurrencyCache)
  (accountID slotIndex now later : Z) (d : db) :
  0 < slotTTLSeconds c ->
  now <= later < now + slotTTLSeconds c ->
  let key := accountSlotKey accountID in
  let kept := filter (scoreAbove (now - slotTTLSeconds c)) (zread now key d) in
  let try := AcquireAccountSlotByIndex c accountID slotIndex now d in
  (try.1 = true <-> kept !! slotID slotIndex = None) /\
  (try.1 = false -> zread now key try.2 = kept) /\
  (try.1 = true ->
   zread now key try.2 = <[slotID slotIndex := now]> kept /\
   (AcquireAccountSlotByIndex c accountID slotIndex later try.2).1 = false).
Proof.
  intros Httl Hlater key kept try. subst try.
  unfold AcquireAccountSlotByIndex, mbind, M_bind, Lua_bind, mret, M_ret, Lua_ret.
  rewrite acquireSlotByIndexScript_cases. fold key. fold kept.
  destruct (kept !! slotID slotIndex) as [s|] eqn:Hs;
    cbn [fst snd Z.eqb Pos.eqb].
  - split; [done|]. split; [|done]. intros _. apply zread_zwrite.
  - split; [done|]. split; [done|]. intros _.
    split; [apply claim_read; lia|].
    rewrite acquireSlotByIndexScript_cases. fold key.
    rewrite claim_read by lia.
    assert (Hin : filter (scoreAbove (later - slotTTLSeconds c))
                    (<[slotID slotIndex := now]> kept) !! slotID slotIndex
                  = Some now).
    { apply filter_scoreAbove_lookup. rewrite lookup_insert_eq.
      split; [done|lia]. }
    by rewrite Hin.
Qed.

Lemma slot_by_index_exclusive_witness :
  (AcquireAccountSlotByIndex (NewConcurrencyCache 15 0) 7 2 1000 emptyDb).1 = true
  /\ (AcquireAccountSlotByIndex (NewConcurrencyCache 15 0) 7 2 1899
        (AcquireAccountSlotByIndex (NewConcurrencyCache 15 0) 7 2 1000
           emptyDb).2).1 = false.
Proof.
  destruct (slot_by_index_exclusive (NewConcurrencyCache 15 0) 7 2 1000 1899
              emptyDb) as (Hiff & _ & Hok).
  - vm_compute. reflexivity.
  - vm_compute. split; [discriminate|reflexivity].
  - assert (Ht : (AcquireAccountSlotByIndex (NewConcurrencyCache 15 0) 7 2 1000
                    emptyDb).1 = true) by (apply Hiff; vm_compute; reflexivity).
    split; [exact Ht|]. apply (Hok Ht).
Defined.

(** X2: releasing a slot taken by its index gives it back: the members
    are again those that survived the cleanup before the acquire, the
    slot can be taken again at once, and a second release changes no
    member. *)
Theorem slot_by_index_release (c : concurrencyCache)
  (accountID slotIndex now later : Z) (d : db) :
  0 < slotTTLSeconds c ->
  now <= later < now + slotTTLSeconds c ->
  let key := accountSlotKey accountID in
  let kept := filter (scoreAbove (now - slotTTLSeconds c)) (zread now key d) in
  let held := AcquireAccountSlotByIndex c accountID slotIndex now d in
  let freed := (ReleaseAccountSlotByIndex accountID slotIndex later held.2).2 in
  held.1 = true ->
  zread later key freed = kept /\
  (AcquireAccountSlotByIndex c accountID slotIndex later freed).1 = true /\
  zread later key
    (ReleaseAccountSlotByIndex accountID slotIndex later freed).2 = kept.
Proof.
  intros Httl Hlater key kept held freed. subst freed held.
  unfold AcquireAccountSlotByIndex, ReleaseAccountSlotByIndex, ZREM,
    mbind, M_bind, Lua_bind, mret, M_ret, Lua_ret.
  rewrite acquireSlotByIndexScript_cases. fold key. fold kept.
  destruct (kept !! slotID slotIndex) as [s|] eqn:Hs;
    cbn [fst snd Z.eqb Pos.eqb]; [done|]. intros _.
  rewrite claim_read by lia. rewrite delete_insert_id by done.
  assert (Hfreed : forall d0, zread later key (zwrite later key kept d0) = kept)
    by (intros; apply zread_zwrite).
  split; [apply Hfreed|]. split.
  - rewrite acquireSlotByIndexScript_cases. fold key. rewrite Hfreed.
    assert (Hnone : filter (scoreAbove (later - slotTTLSeconds c)) kept
                    !! slotID slotIndex = None).
    { apply eq_None_not_Some. intros [x Hx].
      apply filter_scoreAbove_lookup in Hx as [Hx _]. congruence. }
    by rewrite Hnone.
  - rewrite Hfreed. rewrite delete_id by done. apply Hfreed.
Qed.

Lemma slot_by_index_release_witness :
  let c := NewConcurrencyCache 15 0 in
  let held := AcquireAccountSlotByIndex c 7 2 1000 emptyDb in
  let freed := (ReleaseAccountSlotByIndex 7 2 1005 held.2).2 in
  (AcquireAccountSlotByIndex c 7 2 1005 freed).1 = true.
Proof.
  intros c held freed.
  assert (Httl : 0 < slotTTLSeconds c) by (vm_compute; reflexivity).
  assert (Hlater : 1000 <= 1005 < 1000 + slotTTLSeconds c)
    by (vm_compute; split; [discriminate|reflexivity]).
  assert (Hheld : held.1 = true) by (vm_compute; reflexivity).
  exact (proj1 (proj2 (slot_by_index_release c 7 2 1000 1005 emptyDb
                         Httl Hlater Hheld))).
Defined.

(** ** The fallback scan *)

(** The scan takes the first free slot that is not the target, in the
    order of the loop, or finds none. *)
Lemma scanFreeSlot_spec (key : string) (ttl targetSlot now : Z)
  (remaining : nat) (i : Z) (d : db) :
  let m := zread now key d in
  let r := scanFreeSlot key ttl targetSlot now remaining i d in
  (r = (-1, d) /\
   forall k, i <= k < i + Z.of_nat remaining ->
     k = targetSlot \/ is_Some (m !! slotID k))
  \/
  (exists j, i <= j < i + Z.of_nat remaining /\ j <> targetSlot /\
     m !! slotID j = None /\
     (forall k, i <= k < j -> k = targetSlot \/ is_Some (m !! slotID k)) /\
     r = (j, with_zsets (kexpire now key ttl)
               (zwrite now key (<[slotID j := now]> m) d))).
Proof.
  cbv zeta. revert i. induction remaining as [|n IH]; intros i.
  - left. split; [done|]. intros k Hk. lia.
  - cbn [scanFreeSlot]. destruct (Z.eqb_spec i targetSlot) as [->|Hne].
    + destruct (IH (targetSlot + 1)) as [[Hr Hall]|(j & Hj & Hjt & Hfree & Hlow & Hr)].
      * left. split; [done|]. intros k Hk.
        destruct (decide (k = targetSlot)); [by left|]. apply Hall. lia.
      * right. exists j. split; [lia|]. split; [done|]. split; [done|].
        split; [|done]. intros k Hk.
        destruct (decide (k = targetSlot)); [by left|]. apply Hlow. lia.
    + script_steps.
      destruct (zread now key d !! slotID i) as [s|] eqn:Hs.
      * destruct (IH (i + 1)) as [[Hr Hall]|(j & Hj & Hjt & Hfree & Hlow & Hr)].
        -- left. split; [done|]. intros k Hk.
           destruct (decide (k = i)) as [->|]; [right; by rewrite Hs|].
           apply Hall. lia.
        -- right. exists j. split; [lia|]. split; [done|]. split; [done|].
           split; [|done]. intros k Hk.
           destruct (decide (k = i)) as [->|]; [right; by rewrite Hs|].
           apply Hlow. lia.
      * right. exists i. split; [lia|]. split; [done|]. split; [done|].
        split; [intros k Hk; lia|done].
Qed.

(** X3: the fallback acquire takes the target slot whenever it is free,
    whatever the target is; with the target held it takes the lowest free
    slot among 0 .. maxConcurrency-1, and answers -1, changing no member,
    exactly when all of them are held. *)
Theorem fallback_takes_target_or_lowest_free (c : concurrencyCache)
  (accountID targetSlot maxConcurrency now : Z) (d : db) :
  0 < slotTTLSeconds c ->
  let key := accountSlotKey accountID in
  let kept := filter (scoreAbove (now - slotTTLSeconds c)) (zread now key d) in
  let r := AcquireSlotWithFallback c accountID targetSlot maxConcurrency now d in
  (kept !! slotID targetSlot = None ->
   r.1 = targetSlot /\
   zread now key r.2 = <[slotID targetSlot := now]> kept) /\
  (is_Some (kept !! slotID targetSlot) ->
   (r.1 = -1 /\ zread now key r.2 = kept /\
    forall k, 0 <= k < maxConcurrency ->
      k = targetSlot \/ is_Some (kept !! slotID k))
   \/
   (0 <= r.1 < maxConcurrency /\ r.1 <> targetSlot /\
    kept !! slotID r.1 = None /\
    (forall k, 0 <= k < r.1 -> k = targetSlot \/ is_Some (kept !! slotID k)) /\
    zread now key r.2 = <[slotID r.1 := now]> kept)).
Proof.
  intros Httl key kept r. subst r.
  unfold AcquireSlotWithFallback, acquireSlotWithFallbackScript.
  script_steps. fold key. fold kept.
  set (d1 := zwrite now key kept d).
  assert (Hread : zread now key d1 = kept) by apply zread_zwrite.
  rewrite Hread. split.
  - intros Hfree. rewrite Hfree. cbv beta. rewrite Hread. cbn [fst snd].
    split; [done|]. apply claim_read. lia.
  - intros [s Hs]. rewrite Hs.
    destruct (scanFreeSlot_spec key (slotTTLSeconds c) targetSlot now
                (Z.to_nat maxConcurrency) 0 d1)
      as [[Hr Hall]|(j & Hj & Hjt & Hfree & Hlow & Hr)];
      rewrite Hread in *; rewrite Hr; cbn [fst snd].
    + left. split; [done|]. split; [done|]. intros k Hk. apply Hall. lia.
    + right. split; [lia|]. split; [done|]. split; [done|].
      split; [done|]. apply claim_read. lia.
Qed.

Lemma fallback_takes_target_or_lowest_free_witness :
  let c := NewConcurrencyCache 15 0 in
  let first := AcquireSlotWithFallback c 7 1 3 1000 emptyDb in
  let second := AcquireSlotWithFallback c 7 1 3 1001 first.2 in
  first.1 = 1 /\ second.1 = 0.
Proof.
  intros c first second.
  assert (Httl : 0 < slotTTLSeconds c) by (vm_compute; reflexivity).
  split.
  - apply (fallback_takes_target_or_lowest_free c 7 1 3 1000 emptyDb Httl).
    vm_compute. reflexivity.
  - destruct (fallback_takes_target_or_lowest_free c 7 1 3 1001 first.2 Httl)
      as [_ Hheld].
    vm_compute. reflexivity.
Defined.

Lemma acquireSlotWithFallbackScript_cases (key : string)
  (ttl targetSlot maxConcurrency now : Z) (d : db) :
  let kept := filter (scoreAbove (now - ttl)) (zread now key d) in
  let d1 := zwrite now key kept d in
  acquireSlotWithFallbackScript key ttl targetSlot maxConcurrency now d =
    match kept !! slotID targetSlot with
    | None =>
        (targetSlot,
         with_zsets (kexpire now key ttl)
           (zwrite now key (<[slotID targetSlot := now]> kept) d1))
    | Some _ =>
        scanFreeSlot key ttl targetSlot now (Z.to_nat maxConcurrency) 0 d1
    end.
Proof.
  intros kept d1. unfold acquireSlotWithFallbackScript. script_steps.
  fold kept. fold d1.
  assert (Hread : zread now key d1 = kept) by apply zread_zwrite.
  rewrite Hread. destruct (kept !! slotID targetSlot); [done|].
  cbv beta. by rewrite Hread.
Qed.

Lemma slotID_inj : Inj (=) (=) slotID.
Proof.
  intros i j Hij. unfold slotID in Hij.
  apply String.app_inj in Hij. by apply pretty_Z_inj in Hij.
Qed.

(** A set whose members are slots below [n] has at most [n] members. *)
Lemma slots_below_size (m : gmap string Z) (n : Z) :
  0 <= n ->
  (forall member, is_Some (m !! member) ->
     exists i, 0 <= i < n /\ member = slotID i) ->
  Z.of_nat (size m) <= n.
Proof.
  intros Hn Hm.
  assert (Hsub : dom m ⊆ (list_to_set (slotID <$> seqZ 0 n) : gset string)).
  { intros member Hin. apply elem_of_dom in Hin.
    destruct (Hm member Hin) as (i & Hi & ->).
    apply elem_of_list_to_set, list_elem_of_fmap. exists i.
    split; [done|]. apply elem_of_seqZ. lia. }
  apply subseteq_size in Hsub. rewrite size_dom in Hsub.
  rewrite size_list_to_set in Hsub
    by (apply NoDup_fmap_2; [apply slotID_inj|apply NoDup_seqZ]).
  rewrite length_fmap, length_seqZ in Hsub. lia.
Qed.

Lemma filter_scoreAbove_is_Some (max : Z) (m : gmap string Z) member :
  is_Some (filter (scoreAbove max) m !! member) -> is_Some (m !! member).
Proof. intros [s Hs]. apply filter_scoreAbove_lookup in Hs as [Hs _]. eauto. Qed.

Lemma insert_is_Some_slot (m : gmap string Z) (j score : Z) member :
  is_Some (<[slotID j := score]> m !! member) ->
  member = slotID j \/ is_Some (m !! member).
Proof.
  destruct (decide (member = slotID j)) as [->|Hne]; [by left|].
  rewrite lookup_insert_ne by done. by right.
Qed.

(** X4: the index path never admits beyond the limit.  When the members
    of an account's slot set are slots below maxConcurrency, a call of
    AcquireAccountSlotByIndex returns no error; an acquired slot lies in
    0 .. maxConcurrency-1 and its release function releases that slot; a
    refusal names the session's own slot and means that every slot below
    maxConcurrency is held; and afterwards the members are still slots
    below maxConcurrency, so that at most maxConcurrency are occupied. *)
Theorem index_path_never_over_admits (c : concurrencyCache)
  (accountID maxConcurrency : Z) (sessionHash : string) (sv : server) :
  0 < slotTTLSeconds c ->
  0 < maxConcurrency ->
  255 * Z.of_nat (String.length sessionHash) <= MaxInt ->
  let key := accountSlotKey accountID in
  let now := sclock sv in
  let kept :=
    filter (scoreAbove (now - slotTTLSeconds c)) (zread now key (sdb sv)) in
  (forall member, is_Some (zread now key (sdb sv) !! member) ->
     exists i, 0 <= i < maxConcurrency /\ member = slotID i) ->
  let run :=
    @SlotService.AcquireAccountSlotByIndex _ (SlotService.redis c) accountID
      maxConcurrency sessionHash sv in
  exists res, run.1 = Ok res /\
    (SlotService.Acquired res = true ->
     0 <= SlotService.SlotIndex res < maxConcurrency /\
     kept !! slotID (SlotService.SlotIndex res) = None /\
     SlotService.ReleaseFunc res =
       Some (SlotService.releaseSlotByIndex accountID
               (SlotService.SlotIndex res))) /\
    (SlotService.Acquired res = false ->
     SlotService.SlotIndex res = hashToSlotIndex sessionHash maxConcurrency /\
     SlotService.ReleaseFunc res = None /\
     forall k, 0 <= k < maxConcurrency -> is_Some (kept !! slotID k)) /\
    (forall member, is_Some (zread now key (sdb run.2) !! member) ->
       exists i, 0 <= i < maxConcurrency /\ member = slotID i) /\
    occupied accountID run.2 <= maxConcurrency.
Proof.
  intros Httl Hmax Hlen key now kept Hinv run.
  assert (Hkept : forall member, is_Some (kept !! member) ->
            exists i, 0 <= i < maxConcurrency /\ member = slotID i).
  { intros member Hm. apply Hinv. by eapply filter_scoreAbove_is_Some. }
  set (target := hashToSlotIndex sessionHash maxConcurrency).
  assert (Htarget : 0 <= target < maxConcurrency).
  { unfold target. rewrite hashToSlotIndex_mod by lia.
    apply Z.mod_pos_bound. lia. }
  assert (Hbound : forall (_ : unit) (s' : server),
    (forall member, is_Some (zread now key (sdb s') !! member) ->
       exists i, 0 <= i < maxConcurrency /\ member = slotID i) ->
    sclock s' = now ->
    occupied accountID s' <= maxConcurrency).
  { intros _ s' Hs' Hclock. unfold occupied. rewrite Hclock.
    apply slots_below_size; [lia|done]. }
  subst run. unfold SlotService.AcquireAccountSlotByIndex.
  destruct (Z.leb_spec maxConcurrency 0); [lia|].
  unfold mbind, mret, M_bind, M_ret. cbn [SlotService.Cache.AcquireSlotWithFallback SlotService.redis].
  unfold RedisCache.run, AcquireSlotWithFallback. fold now. fold target.
  rewrite acquireSlotWithFallbackScript_cases. fold key. fold kept.
  set (d1 := zwrite now key kept (sdb sv)).
  assert (Hread : zread now key d1 = kept) by apply zread_zwrite.
  destruct (kept !! slotID target) as [s|] eqn:Hs.
  - destruct (scanFreeSlot_spec key (slotTTLSeconds c) target now
                (Z.to_nat maxConcurrency) 0 d1)
      as [[Hr Hall]|(j & Hj & Hjt & Hfree & Hlow & Hr)];
      rewrite Hread in *; rewrite Hr.
    + cbn [fst snd]. eexists. split; [reflexivity|]. cbn.
      split; [done|]. split.
      { intros _. split; [done|]. split; [done|]. intros k Hk.
        destruct (Hall k ltac:(lia)) as [->|Hk']; [by rewrite Hs|done]. }
      assert (Hafter : forall member, is_Some (zread now key d1 !! member) ->
                exists i, 0 <= i < maxConcurrency /\ member = slotID i)
        by (rewrite Hread; exact Hkept).
      split; [exact Hafter|].
      apply (Hbound tt {| sdb := d1; sclock := now |}); done.
    + destruct (Z.leb_spec 0 j); [|lia].
      cbn [fst snd]. eexists. split; [reflexivity|]. cbn.
      split; [intros _; split; [lia|done]|]. split; [done|].
      assert (Hafter : forall member,
                is_Some (zread now key
                           (with_zsets (kexpire now key (slotTTLSeconds c))
                              (zwrite now key (<[slotID j := now]> kept) d1))
                         !! member) ->
                exists i, 0 <= i < maxConcurrency /\ member = slotID i).
      { rewrite claim_read by lia. intros member Hm.
        apply insert_is_Some_slot in Hm as [->|Hm];
          [exists j; split; [lia|done]|by apply Hkept]. }
      split; [exact Hafter|].
      apply (Hbound tt {| sdb := _; sclock := now |}); done.
  - destruct (Z.leb_spec 0 target); [|lia].
    cbn [fst snd]. eexists. split; [reflexivity|]. cbn.
    split; [intros _; split; [lia|done]|]. split; [done|].
    assert (Hafter : forall member,
              is_Some (zread now key
                         (with_zsets (kexpire now key (slotTTLSeconds c))
                            (zwrite now key (<[slotID target := now]> kept) d1))
                       !! member) ->
              exists i, 0 <= i < maxConcurrency /\ member = slotID i).
    { rewrite claim_read by lia. intros member Hm.
      apply insert_is_Some_slot in Hm as [->|Hm];
        [exists target; split; [lia|done]|by apply Hkept]. }
    split; [exact Hafter|].
    apply (Hbound tt {| sdb := _; sclock := now |}); done.
Qed.

Lemma zread_emptyDb (now : Z) (key : string) : zread now key emptyDb = ∅.
Proof. unfold zread, kget, kfind. simpl. by rewrite lookup_empty. Qed.

Lemma index_path_never_over_admits_witness :
  let c := NewConcurrencyCache 15 0 in
  let sv := {| sdb := emptyDb; sclock := 1000 |} in
  occupied 7
    (@SlotService.AcquireAccountSlotByIndex _ (SlotService.redis c) 7 2 "a" sv).2
  <= 2.
Proof.
  intros c sv.
  assert (Httl : 0 < slotTTLSeconds c) by (vm_compute; reflexivity).
  assert (Hmax : 0 < 2) by lia.
  assert (Hlen : 255 * Z.of_nat (String.length "a") <= MaxInt)
    by (vm_compute; discriminate).
  assert (Hinv : forall member,
            is_Some (zread (sclock sv) (accountSlotKey 7) (sdb sv) !! member) ->
            exists i, 0 <= i < 2 /\ member = slotID i).
  { intros member [x Hx]. simpl in Hx. rewrite zread_emptyDb in Hx.
    by rewrite lookup_empty in Hx. }
  destruct (index_path_never_over_admits c 7 2 "a" sv Httl Hmax Hlen Hinv)
    as (res & _ & _ & _ & _ & Hocc).
  exact Hocc.
Defined.

(** ** The model pools of the slot service *)

Lemma acquireSlotInRangeScript_cases (key : string)
  (ttl targetSlot rangeStart rangeEnd now : Z) (d : db) :
  let kept := filter (scoreAbove (now - ttl)) (zread now key d) in
  let d1 := zwrite now key kept d in
  let scan :=
    scanFreeSlot key ttl targetSlot now (Z.to_nat (rangeEnd - rangeStart))
      rangeStart d1 in
  acquireSlotInRangeScript key ttl targetSlot rangeStart rangeEnd now d =
    if (rangeStart <=? targetSlot) && (targetSlot <? rangeEnd) then
      match kept !! slotID targetSlot with
      | None =>
          (targetSlot,
           with_zsets (kexpire now key ttl)
             (zwrite now key (<[slotID targetSlot := now]> kept) d1))
      | Some _ => scan
      end
    else scan.
Proof.
  intros kept d1 scan. unfold acquireSlotInRangeScript. script_steps.
  fold kept. fold d1. fold scan.
  assert (Hread : zread now key d1 = kept) by apply zread_zwrite.
  destruct ((rangeStart <=? targetSlot) && (targetSlot <? rangeEnd)); [|done].
  rewrite Hread. destruct (kept !! slotID targetSlot); [done|].
  cbv beta. by rewrite Hread.
Qed.

(** The outcome of the acquire in a range, on the members kept by the
    cleanup. *)
Lemma acquireSlotInRange_outcome (key : string)
  (ttl targetSlot rangeStart rangeEnd now : Z) (d : db) :
  0 < ttl ->
  let kept := filter (scoreAbove (now - ttl)) (zread now key d) in
  let r := acquireSlotInRangeScript key ttl targetSlot rangeStart rangeEnd
             now d in
  (r.1 = -1 /\ zread now key r.2 = kept /\
   forall k, rangeStart <= k < rangeEnd -> is_Some (kept !! slotID k))
  \/
  (rangeStart <= r.1 < rangeEnd /\ kept !! slotID r.1 = None /\
   zread now key r.2 = <[slotID r.1 := now]> kept /\
   (rangeStart <= targetSlot < rangeEnd ->
    kept !! slotID targetSlot = None -> r.1 = targetSlot)).
Proof.
  intros Httl kept r. subst r.
  rewrite acquireSlotInRangeScript_cases. fold kept.
  set (d1 := zwrite now key kept d).
  assert (Hread : zread now key d1 = kept) by apply zread_zwrite.
  assert (Hscan : forall (P : Prop),
    (rangeStart <= targetSlot < rangeEnd -> is_Some (kept !! slotID targetSlot)) ->
    let r := scanFreeSlot key ttl targetSlot now
               (Z.to_nat (rangeEnd - rangeStart)) rangeStart d1 in
    (r.1 = -1 /\ zread now key r.2 = kept /\
     forall k, rangeStart <= k < rangeEnd -> is_Some (kept !! slotID k))
    \/
    (rangeStart <= r.1 < rangeEnd /\ kept !! slotID r.1 = None /\
     zread now key r.2 = <[slotID r.1 := now]> kept /\
     (rangeStart <= targetSlot < rangeEnd ->
      kept !! slotID targetSlot = None -> r.1 = targetSlot))).
  { intros _ Htarget. cbv zeta.
    destruct (scanFreeSlot_spec key ttl targetSlot now
                (Z.to_nat (rangeEnd - rangeStart)) rangeStart d1)
      as [[Hr Hall]|(j & Hj & Hjt & Hfree & Hlow & Hr)];
      rewrite Hread in *; rewrite Hr; cbn [fst snd].
    - left. split; [done|]. split; [done|]. intros k Hk.
      destruct (Hall k ltac:(lia)) as [->|Hk']; [by apply Htarget|done].
    - right. split; [lia|]. split; [done|].
      split; [apply claim_read; lia|]. intros Hin Hnone.
      destruct (Htarget Hin) as [x Hx]. congruence. }
  destruct (Z.leb_spec rangeStart targetSlot);
    destruct (Z.ltb_spec targetSlot rangeEnd); cbn [andb];
    try (apply (Hscan True); intros; lia).
  destruct (kept !! slotID targetSlot) as [s|] eqn:Hs.
  - apply (Hscan True). by intros _.
  - right. cbn [fst snd]. split; [lia|]. split; [done|].
    split; [apply claim_read; lia|done].
Qed.

(** X5: the acquire in a range never leaves the range: it answers a slot
    of [rangeStart, rangeEnd) that was free, the target itself when that
    lies in the range and is free, or -1, changing no member, when every
    slot of the range is held; a target outside the range is never
    taken. *)
Theorem range_acquire_stays_in_range (c : concurrencyCache)
  (accountID targetSlot rangeStart rangeEnd now : Z) (d : db) :
  0 < slotTTLSeconds c ->
  0 <= rangeStart ->
  let key := accountSlotKey accountID in
  let kept := filter (scoreAbove (now - slotTTLSeconds c)) (zread now key d) in
  let r := AcquireSlotInRange c accountID targetSlot rangeStart rangeEnd now d in
  (r.1 = -1 <->
   forall k, rangeStart <= k < rangeEnd -> is_Some (kept !! slotID k)) /\
  (r.1 = -1 -> zread now key r.2 = kept) /\
  (r.1 <> -1 ->
   rangeStart <= r.1 < rangeEnd /\ kept !! slotID r.1 = None /\
   zread now key r.2 = <[slotID r.1 := now]> kept) /\
  (rangeStart <= targetSlot < rangeEnd ->
   kept !! slotID targetSlot = None -> r.1 = targetSlot).
Proof.
  intros Httl Hstart key kept r. subst r kept key. unfold AcquireSlotInRange.
  destruct (acquireSlotInRange_outcome (accountSlotKey accountID)
              (slotTTLSeconds c) targetSlot rangeStart rangeEnd now d Httl)
    as [(Hr & Hsame & Hall)|(Hin & Hfree & Hnew & Htarget)].
  - split; [done|]. split; [done|]. split; [done|].
    intros Hin Hnone. destruct (Hall targetSlot Hin) as [x Hx]. congruence.
  - split.
    { split; [intros Heq; rewrite Heq in Hin; lia|].
      intros Hall. destruct (Hall _ Hin) as [x Hx]. congruence. }
    split; [intros Heq; rewrite Heq in Hin; lia|]. split; [done|]. done.
Qed.

Lemma range_acquire_stays_in_range_witness :
  let c := NewConcurrencyCache 15 0 in
  (AcquireSlotInRange c 7 0 2 4 1000 emptyDb).1 = 2.
Proof.
  intros c.
  assert (Httl : 0 < slotTTLSeconds c) by (vm_compute; reflexivity).
  assert (Hstart : 0 <= 2) by lia.
  destruct (range_acquire_stays_in_range c 7 0 2 4 1000 emptyDb Httl Hstart)
    as (_ & _ & Hin & _).
  assert (Hne : (AcquireSlotInRange c 7 0 2 4 1000 emptyDb).1 <> -1)
    by (vm_compute; discriminate).
  destruct (Hin Hne) as (Hrange & _ & _).
  vm_compute. reflexivity.
Defined.

Lemma service_ranges_split (T : Z) :
  2 <= T -> 2 * T <= MaxInt ->
  SlotService.CalculateModelSlotRange T =
    ({| Start := 0; End := Z.max 1 (2 * T / 5) |},
     {| Start := Z.max 1 (2 * T / 5); End := T |})
  /\ 1 <= Z.max 1 (2 * T / 5) < T.
Proof.
  intros HT Hfit. unfold SlotService.CalculateModelSlotRange.
  destruct (Z.leb_spec T 0); [lia|]. destruct (Z.eqb_spec T 1); [lia|].
  unfold mul. rewrite (wrap_small (T * 2))
    by (unfold MinInt, MaxInt, intSize in *; lia).
  rewrite div_nonneg by lia.
  replace (T * 2) with (2 * T) by lia.
  assert (Hk : 2 * T / 5 < T) by (apply Z.div_lt_upper_bound; lia).
  assert (H0 : 0 <= 2 * T / 5) by (apply Z.div_pos; lia).
  destruct (Z.ltb_spec (2 * T / 5) 1).
  - rewrite Z.max_l by lia. destruct (Z.leb_spec T 1); [lia|]. split; [done|lia].
  - rewrite Z.max_r by lia. destruct (Z.leb_spec T (2 * T / 5)); [lia|].
    split; [done|lia].
Qed.

(** X6: the model pools of AcquireAccountSlotByModel, for a limit with
    2 * maxConcurrency <= MaxInt, a session hash whose byte sum fits an
    int and a positive slot TTL.  Without a limit every category is
    admitted without a slot; with a limit a category other than opus and
    sonnet is an error that leaves the store as it is.  With the limit 1
    opus and sonnet share the single pool [0, 1); from 2 on the pools are
    [0, k) for opus and [k, maxConcurrency) for sonnet with
    k = max(1, floor(2*maxConcurrency/5)), disjoint and both non-empty.
    An acquired slot lies in the category's pool and was free, and a
    refusal means that every slot of the pool is held. *)
Theorem model_pool_service (c : concurrencyCache)
  (accountID maxConcurrency : Z) (sessionHash modelCategory : string)
  (sv : server) :
  0 < slotTTLSeconds c ->
  2 * maxConcurrency <= MaxInt ->
  255 * Z.of_nat (String.length sessionHash) <= MaxInt ->
  let key := accountSlotKey accountID in
  let now := sclock sv in
  let kept :=
    filter (scoreAbove (now - slotTTLSeconds c)) (zread now key (sdb sv)) in
  let k := Z.max 1 (2 * maxConcurrency / 5) in
  let opusEnd := if maxConcurrency =? 1 then 1 else k in
  let sonnetStart := if maxConcurrency =? 1 then 0 else k in
  let pool := if String.eqb modelCategory "opus" then (0, opusEnd)
              else (sonnetStart, maxConcurrency) in
  let run :=
    @SlotService.AcquireAccountSlotByModel _ (SlotService.redis c) accountID
      maxConcurrency sessionHash modelCategory sv in
  (maxConcurrency <= 0 -> run = (Ok SlotService.unlimited, sv)) /\
  (0 < maxConcurrency ->
   modelCategory <> "opus" -> modelCategory <> "sonnet" ->
   run = (Err ("unsupported model category for slot pool: " +:+ modelCategory),
          sv)) /\
  (1 <= maxConcurrency ->
   SlotService.CalculateModelSlotRange maxConcurrency =
     ({| Start := 0; End := opusEnd |},
      {| Start := sonnetStart; End := maxConcurrency |}) /\
   (maxConcurrency = 1 -> opusEnd = 1 /\ sonnetStart = 0) /\
   (2 <= maxConcurrency ->
    opusEnd = k /\ sonnetStart = k /\ 1 <= k < maxConcurrency)) /\
  (1 <= maxConcurrency ->
   modelCategory = "opus" \/ modelCategory = "sonnet" ->
   0 <= pool.1 < pool.2 /\ pool.2 <= maxConcurrency /\
   exists res, run.1 = Ok res /\
     (SlotService.Acquired res = true ->
      pool.1 <= SlotService.SlotIndex res < pool.2 /\
      kept !! slotID (SlotService.SlotIndex res) = None /\
      SlotService.ReleaseFunc res =
        Some (SlotService.releaseSlotByIndex accountID
                (SlotService.SlotIndex res))) /\
     (SlotService.Acquired res = false ->
      SlotService.ReleaseFunc res = None /\
      SlotService.SlotIndex res =
        pool.1 + hashToSlotIndex sessionHash (pool.2 - pool.1) /\
      forall i, pool.1 <= i < pool.2 -> is_Some (kept !! slotID i))).
Proof.
  intros Httl Hfit Hlen key now kept k opusEnd sonnetStart pool run.
  subst run key.
  assert (Hsplit : 1 <= maxConcurrency ->
    SlotService.CalculateModelSlotRange maxConcurrency =
      ({| Start := 0; End := opusEnd |},
       {| Start := sonnetStart; End := maxConcurrency |}) /\
    (maxConcurrency = 1 -> opusEnd = 1 /\ sonnetStart = 0) /\
    (2 <= maxConcurrency ->
     opusEnd = k /\ sonnetStart = k /\ 1 <= k < maxConcurrency)).
  { intros Hmax. subst opusEnd sonnetStart.
    destruct (Z.eqb_spec maxConcurrency 1) as [->|Hne].
    - split; [reflexivity|]. split; [done|lia].
    - destruct (service_ranges_split maxConcurrency ltac:(lia) Hfit)
        as [-> Hk].
      fold k in Hk |- *. split; [done|]. split; [lia|done]. }
  unfold SlotService.AcquireAccountSlotByModel.
  split; [|split; [|split; [exact Hsplit|]]].
  - intros Hle. by destruct (Z.leb_spec maxConcurrency 0); [|lia].
  - intros Hpos Hopus Hsonnet. destruct (Z.leb_spec maxConcurrency 0); [lia|].
    destruct (SlotService.CalculateModelSlotRange maxConcurrency) as [o s].
    destruct (String.eqb_spec modelCategory "opus"); [done|].
    destruct (String.eqb_spec modelCategory "sonnet"); [done|]. done.
  - intros Hmax Hcat. destruct (Z.leb_spec maxConcurrency 0); [lia|].
    destruct (Hsplit Hmax) as (-> & Hone & Htwo).
    assert (Hpool : (if String.eqb modelCategory "opus"
                     then Some {| Start := 0; End := opusEnd |}
                     else if String.eqb modelCategory "sonnet"
                          then Some {| Start := sonnetStart;
                                       End := maxConcurrency |}
                          else None)
                    = Some {| Start := pool.1; End := pool.2 |}).
    { subst pool. destruct Hcat as [-> | ->]; reflexivity. }
    rewrite Hpool. cbn [Start End].
    assert (Hsize : 0 < pool.2 - pool.1 /\ 0 <= pool.1 /\
                    pool.2 <= maxConcurrency).
    { subst pool.
      destruct (Z.eq_dec maxConcurrency 1) as [H1|H1].
      - destruct (Hone H1) as [-> ->].
        destruct (String.eqb modelCategory "opus"); simpl; lia.
      - destruct (Htwo ltac:(lia)) as (-> & -> & Hk).
        destruct (String.eqb modelCategory "opus"); simpl; lia. }
    split; [lia|]. split; [lia|].
    rewrite sub_small by (unfold MinInt, MaxInt, intSize in *; lia).
    destruct (Z.leb_spec (pool.2 - pool.1) 0); [lia|].
    assert (Hhash : 0 <= hashToSlotIndex sessionHash (pool.2 - pool.1)
                    < pool.2 - pool.1).
    { rewrite hashToSlotIndex_mod by lia. apply Z.mod_pos_bound. lia. }
    rewrite add_small by (unfold MinInt, MaxInt, intSize in *; lia).
    unfold mbind, mret, M_bind, M_ret.
    cbn [SlotService.Cache.AcquireSlotInRange SlotService.redis].
    unfold RedisCache.run, AcquireSlotInRange. fold now.
    set (target := pool.1 + hashToSlotIndex sessionHash (pool.2 - pool.1)).
    destruct (acquireSlotInRange_outcome (accountSlotKey accountID)
                (slotTTLSeconds c) target
                pool.1 pool.2 now (sdb sv) Httl)
      as [(Hr & Hsame & Hall)|(Hin & Hfree & Hnew & Htarget)].
    + destruct (acquireSlotInRangeScript (accountSlotKey accountID)
                  (slotTTLSeconds c) target pool.1 pool.2 now (sdb sv))
        as [r d'].
      cbn [fst snd] in *. subst r. cbn [Z.leb Z.compare fst].
      eexists. split; [reflexivity|]. cbn. split; [done|]. intros _. done.
    + destruct (acquireSlotInRangeScript (accountSlotKey accountID)
                  (slotTTLSeconds c) target pool.1 pool.2 now (sdb sv))
        as [r d'].
      cbn [fst snd] in *. destruct (Z.leb_spec 0 r); [|lia].
      cbn [fst]. eexists. split; [reflexivity|]. cbn. split; [|done].
      intros _. done.
Qed.

Lemma model_pool_service_witness :
  let c := NewConcurrencyCache 15 0 in
  let sv := {| sdb := emptyDb; sclock := 1000 |} in
  let sonnet5 := @SlotService.AcquireAccountSlotByModel _ (SlotService.redis c)
                   7 5 "a" "sonnet" sv in
  let sonnet1 := @SlotService.AcquireAccountSlotByModel _ (SlotService.redis c)
                   7 1 "a" "sonnet" sv in
  (exists res, sonnet5.1 = Ok res /\
     (SlotService.Acquired res = true -> 2 <= SlotService.SlotIndex res < 5)) /\
  (exists res, sonnet1.1 = Ok res /\
     (SlotService.Acquired res = true -> SlotService.SlotIndex res = 0)).
Proof.
  intros c sv sonnet5 sonnet1.
  assert (Httl : 0 < slotTTLSeconds c) by (vm_compute; reflexivity).
  assert (Hlen : 255 * Z.of_nat (String.length "a") <= MaxInt)
    by (vm_compute; discriminate).
  split.
  - assert (Hfit : 2 * 5 <= MaxInt) by (vm_compute; discriminate).
    destruct (model_pool_service c 7 5 "a" "sonnet" sv Httl Hfit Hlen)
      as (_ & _ & _ & Hpool).
    destruct (Hpool ltac:(lia) (or_intror eq_refl))
      as (_ & _ & res & Hres & Hacq & _).
    exists res. split; [exact Hres|]. intros Ha.
    destruct (Hacq Ha) as (Hin & _). exact Hin.
  - assert (Hfit : 2 * 1 <= MaxInt) by (vm_compute; discriminate).
    destruct (model_pool_service c 7 1 "a" "sonnet" sv Httl Hfit Hlen)
      as (_ & _ & _ & Hpool).
    destruct (Hpool ltac:(lia) (or_intror eq_refl))
      as (_ & _ & res & Hres & Hacq & _).
    exists res. split; [exact Hres|]. intros Ha.
    destruct (Hacq Ha) as (Hin & _).
    change (0 <= SlotService.SlotIndex res < 1) in Hin. lia.
Defined.

(** ** Slots by request *)

(** X7: the request path never admits beyond the limit.  Without a
    limit AcquireAccountSlot admits the request and does not touch the
    store; with a limit it is admitted exactly when it already holds a
    slot or fewer than maxConcurrency requests hold one; a refusal
    changes no member; and when at most maxConcurrency requests held a
    slot before, at most maxConcurrency hold one afterwards. *)
Theorem request_path_never_over_admits (c : concurrencyCache)
  (requestID : string) (accountID maxConcurrency : Z) (sv : server) :
  0 < slotTTLSeconds c ->
  let key := accountSlotKey accountID in
  let now := sclock sv in
  let kept :=
    filter (scoreAbove (now - slotTTLSeconds c)) (zread now key (sdb sv)) in
  let run :=
    @SlotService.AcquireAccountSlot _ (SlotService.redis c) requestID
      accountID maxConcurrency sv in
  (maxConcurrency <= 0 -> run = (Ok SlotService.unlimited, sv)) /\
  (0 < maxConcurrency ->
   exists res, run.1 = Ok res /\ SlotService.SlotIndex res = -1 /\
     (SlotService.Acquired res = true <->
      is_Some (kept !! requestID) \/ Z.of_nat (size kept) < maxConcurrency) /\
     (SlotService.Acquired res = true ->
      SlotService.ReleaseFunc res =
        Some (SlotService.releaseAccountSlot accountID requestID) /\
      zread now key (sdb run.2) = <[requestID := now]> kept) /\
     (SlotService.Acquired res = false ->
      SlotService.ReleaseFunc res = None /\
      zread now key (sdb run.2) = kept) /\
     (Z.of_nat (size kept) <= maxConcurrency ->
      occupied accountID run.2 <= maxConcurrency)).
Proof.
  intros Httl key now kept run. subst run key.
  unfold SlotService.AcquireAccountSlot. split.
  - intros Hle. by destruct (Z.leb_spec maxConcurrency 0); [|lia].
  - intros Hpos. destruct (Z.leb_spec maxConcurrency 0); [lia|].
    unfold mbind, mret, M_bind, M_ret.
    cbn [SlotService.Cache.AcquireAccountSlot SlotService.redis].
    unfold RedisCache.run, AcquireAccountSlot, mbind, mret, M_bind, M_ret,
      Lua_bind, Lua_ret. fold now.
    rewrite acquireScript_cases. fold kept.
    set (d1 := zwrite now (accountSlotKey accountID) kept (sdb sv)).
    destruct (kept !! requestID) as [s|] eqn:Hmem.
    + rewrite bool_decide_eq_true_2 by eauto.
      cbn [orb fst snd Z.eqb Pos.eqb]. eexists. split; [reflexivity|]. cbn.
      split; [done|]. split; [split; [eauto|done]|].
      split; [intros _; split; [done|apply claim_read; lia]|].
      split; [done|]. intros Hsize. unfold occupied. cbn [sclock sdb].
      rewrite claim_read by lia.
      rewrite map_size_insert_Some by eauto. done.
    + rewrite bool_decide_eq_false_2 by (by intros [? [=]]). cbn [orb].
      destruct (Z.ltb_spec (Z.of_nat (size kept)) maxConcurrency) as [Hlt|Hge];
        cbn [fst snd Z.eqb Pos.eqb]; (eexists; split; [reflexivity|]); cbn.
      * split; [done|]. split; [split; [by right|done]|].
        split; [intros _; split; [done|apply claim_read; lia]|].
        split; [done|]. intros Hsize. unfold occupied. cbn [sclock sdb].
        rewrite claim_read by lia.
        rewrite map_size_insert_None by done. lia.
      * split; [done|].
        split; [split; [done|intros [[? [=]]|?]; lia]|].
        split; [done|]. split; [intros _; split; [done|apply zread_zwrite]|].
        intros Hsize. unfold occupied. cbn [sclock sdb].
        unfold d1. rewrite zread_zwrite. done.
Qed.

Lemma request_path_never_over_admits_witness :
  let c := NewConcurrencyCache 15 0 in
  let sv := {| sdb := emptyDb; sclock := 1000 |} in
  exists res,
    (@SlotService.AcquireAccountSlot _ (SlotService.redis c) "r1" 7 1 sv).1
    = Ok res.
Proof.
  intros c sv.
  assert (Httl : 0 < slotTTLSeconds c) by (vm_compute; reflexivity).
  destruct (request_path_never_over_admits c "r1" 7 1 sv Httl) as [_ Hlim].
  destruct (Hlim ltac:(lia)) as (res & Hres & _).
  exists res. exact Hres.
Defined.

(** X8: the release function of an admitted request gives the slot
    back: within the time to live the members are again those that
    survived the cleanup before the acquire, and calling the release a
    second time changes no member. *)
Theorem request_slot_release_round_trip (c : concurrencyCache)
  (requestID : string) (accountID maxConcurrency dt : Z) (sv : server) :
  0 < maxConcurrency ->
  0 <= dt < slotTTLSeconds c ->
  let key := accountSlotKey accountID in
  let now := sclock sv in
  let kept :=
    filter (scoreAbove (now - slotTTLSeconds c)) (zread now key (sdb sv)) in
  kept !! requestID = None ->
  Z.of_nat (size kept) < maxConcurrency ->
  let run :=
    @SlotService.AcquireAccountSlot _ (SlotService.redis c) requestID
      accountID maxConcurrency sv in
  let release :=
    @SlotService.callRelease _ (SlotService.redis c)
      (SlotService.releaseAccountSlot accountID requestID) in
  let once := (release (tick dt run.2)).2 in
  let twice := (release once).2 in
  run.1 = Ok {| SlotService.Acquired := true; SlotService.SlotIndex := -1;
                SlotService.ReleaseFunc :=
                  Some (SlotService.releaseAccountSlot accountID requestID) |}
  /\ zread (now + dt) key (sdb once) = kept
  /\ zread (now + dt) key (sdb twice) = kept
  /\ occupied accountID once = Z.of_nat (size kept).
Proof.
  intros Hpos Hdt key now kept Hfresh Hroom run release once twice.
  subst twice once release run key.
  unfold SlotService.AcquireAccountSlot, SlotService.callRelease.
  destruct (Z.leb_spec maxConcurrency 0); [lia|].
  unfold mbind, mret, M_bind, M_ret.
  cbn [SlotService.Cache.AcquireAccountSlot SlotService.Cache.ReleaseAccountSlot
       SlotService.redis].
  unfold RedisCache.run, AcquireAccountSlot, ReleaseAccountSlot, ZREM,
    mbind, mret, M_bind, M_ret, Lua_bind, Lua_ret. fold now.
  rewrite acquireScript_cases. fold kept. rewrite Hfresh.
  rewrite bool_decide_eq_false_2 by (by intros [? [=]]). cbn [orb].
  destruct (Z.ltb_spec (Z.of_nat (size kept)) maxConcurrency); [|lia].
  cbn [fst snd Z.eqb Pos.eqb tick sdb sclock]. split; [done|].
  rewrite claim_read by lia. rewrite delete_insert_id by done.
  rewrite !zread_zwrite. rewrite delete_id by done.
  split; [done|]. split; [done|]. unfold occupied. cbn [sdb sclock].
  by rewrite zread_zwrite.
Qed.

Lemma request_slot_release_round_trip_witness :
  let c := NewConcurrencyCache 15 0 in
  let sv := {| sdb := emptyDb; sclock := 1000 |} in
  let run := @SlotService.AcquireAccountSlot _ (SlotService.redis c) "r1" 7 2 sv in
  occupied 7
    (@SlotService.callRelease _ (SlotService.redis c)
       (SlotService.releaseAccountSlot 7 "r1") (tick 5 run.2)).2 = 0.
Proof.
  intros c sv run.
  assert (Hpos : 0 < 2) by lia.
  assert (Hdt : 0 <= 5 < slotTTLSeconds c)
    by (vm_compute; split; [discriminate|reflexivity]).
  assert (Hfresh : filter (scoreAbove (sclock sv - slotTTLSeconds c))
                     (zread (sclock sv) (accountSlotKey 7) (sdb sv)) !! "r1"
                   = None) by (vm_compute; reflexivity).
  assert (Hroom : Z.of_nat (size (filter (scoreAbove (sclock sv - slotTTLSeconds c))
                     (zread (sclock sv) (accountSlotKey 7) (sdb sv)))) < 2)
    by (vm_compute; reflexivity).
  destruct (request_slot_release_round_trip c "r1" 7 2 5 sv Hpos Hdt Hfresh
              Hroom) as (_ & _ & _ & Hocc).
  etransitivity; [exact Hocc|]. vm_compute. reflexivity.
Defined.

(** ** Releasing a session's slot *)

Lemma releaseSlotWithSessionScript_cases (ownerKey slotKey : string)
  (slotIndex : Z) (sessionHash : string) (now : Z) (d : db) :
  let h := hread now ownerKey d in
  let left := default 0 (count h) + -1 in
  let d1 := with_hashes
              (kset now ownerKey
                 {| owner := owner h; count := Some left; expire := expire h |})
              d in
  releaseSlotWithSessionScript ownerKey slotKey slotIndex sessionHash now d =
    if bool_decide (owner h = Some sessionHash) then
      if left <=? 0 then
        (1, zwrite now slotKey
              (delete (slotID slotIndex) (zread now slotKey d))
              (with_hashes (kdel ownerKey) d1))
      else (1, d1)
    else (0, d).
Proof.
  intros h left d1.
  unfold releaseSlotWithSessionScript, mbind, mret, M_bind, M_ret, Lua_bind,
    Lua_ret, HGET_owner, HINCRBY_count, DEL_hash, ZREM.
  cbv zeta. subst d1 left h.
  destruct (bool_decide (owner (hread now ownerKey d) = Some sessionHash));
    [|done].
  destruct (default 0 (count (hread now ownerKey d)) + -1 <=? 0); [|done].
  cbv beta iota. by rewrite zread_with_hashes.
Qed.

Lemma release_by_other (accountID slotIndex : Z) (sessionHash : string)
  (now : Z) (d : db) :
  owner (slotOwner now accountID slotIndex d) <> Some sessionHash ->
  (ReleaseSlotWithSession accountID slotIndex sessionHash now d).2 = d.
Proof.
  intros Hne.
  unfold ReleaseSlotWithSession, mbind, mret, M_bind, M_ret, Lua_bind, Lua_ret.
  rewrite releaseSlotWithSessionScript_cases. cbv zeta.
  fold (slotOwner now accountID slotIndex d).
  by rewrite bool_decide_eq_false_2.
Qed.

Lemma release_keeps_rest (accountID slotIndex : Z) (sessionHash : string)
  (now : Z) (d : db) :
  let h := slotOwner now accountID slotIndex d in
  let n := default 0 (count h) in
  let d' := (ReleaseSlotWithSession accountID slotIndex sessionHash now d).2 in
  owner h = Some sessionHash -> 1 < n ->
  slotOwner now accountID slotIndex d' =
    {| owner := Some sessionHash; count := Some (n - 1); expire := expire h |}
  /\ zsets d' = zsets d.
Proof.
  intros h n d' Ho Hn. subst d'.
  unfold ReleaseSlotWithSession, mbind, mret, M_bind, M_ret, Lua_bind, Lua_ret.
  rewrite releaseSlotWithSessionScript_cases. cbv zeta.
  fold (slotOwner now accountID slotIndex d). fold h. fold n.
  rewrite bool_decide_eq_true_2 by done.
  destruct (Z.leb_spec (n + -1) 0); [lia|]. cbn [snd]. split; [|done].
  unfold slotOwner. rewrite hread_kset. rewrite Ho. reflexivity.
Qed.

Lemma release_last_frees (accountID slotIndex : Z) (sessionHash : string)
  (now : Z) (d : db) :
  let h := slotOwner now accountID slotIndex d in
  let d' := (ReleaseSlotWithSession accountID slotIndex sessionHash now d).2 in
  owner h = Some sessionHash -> default 0 (count h) <= 1 ->
  slotOwner now accountID slotIndex d' = noHash /\
  slotMarked now accountID slotIndex d' = false /\
  slotBusy now accountID slotIndex d' = false.
Proof.
  intros h d' Ho Hn. subst d'.
  unfold ReleaseSlotWithSession, mbind, mret, M_bind, M_ret, Lua_bind, Lua_ret.
  rewrite releaseSlotWithSessionScript_cases. cbv zeta.
  fold (slotOwner now accountID slotIndex d). fold h.
  rewrite bool_decide_eq_true_2 by done.
  destruct (Z.leb_spec (default 0 (count h) + -1) 0); [|lia]. cbn [snd].
  set (d1 := with_hashes (kdel (slotOwnerKey accountID slotIndex)) _).
  assert (Hgone : slotOwner now accountID slotIndex
                    (zwrite now (accountSlotKey accountID)
                       (delete (slotID slotIndex)
                          (zread now (accountSlotKey accountID) d)) d1)
                  = noHash).
  { unfold slotOwner, hread, kget.
    destruct (zwrite_other now (accountSlotKey accountID)
                (delete (slotID slotIndex)
                   (zread now (accountSlotKey accountID) d)) d1) as [-> _].
    unfold d1. simpl. by rewrite kfind_kdel_eq. }
  assert (Hmark : slotMarked now accountID slotIndex
                    (zwrite now (accountSlotKey accountID)
                       (delete (slotID slotIndex)
                          (zread now (accountSlotKey accountID) d)) d1)
                  = false).
  { unfold slotMarked. rewrite zread_zwrite, lookup_delete_eq.
    apply bool_decide_eq_false_2. by intros [? [=]]. }
  split; [done|]. split; [done|].
  unfold slotBusy. rewrite Hgone, Hmark. reflexivity.
Qed.

(** X9: releasing a session's slot.  A release by a session that does not
    own the slot (or of a free slot) changes nothing; a release by the
    owner lowers the count by one and keeps owner, expiry and slot mark
    while requests remain; the release of the last request deletes the
    owner record and the slot's mark, so that the slot is free for any
    session. *)
Theorem session_slot_release (accountID slotIndex : Z) (sessionHash : string)
  (now : Z) (d : db) :
  let h := slotOwner now accountID slotIndex d in
  let n := default 0 (count h) in
  let d' := (ReleaseSlotWithSession accountID slotIndex sessionHash now d).2 in
  (owner h <> Some sessionHash -> d' = d) /\
  (owner h = Some sessionHash -> 1 < n ->
   slotOwner now accountID slotIndex d' =
     {| owner := Some sessionHash; count := Some (n - 1); expire := expire h |}
   /\ zsets d' = zsets d) /\
  (owner h = Some sessionHash -> n <= 1 ->
   slotOwner now accountID slotIndex d' = noHash /\
   slotMarked now accountID slotIndex d' = false /\
   slotBusy now accountID slotIndex d' = false).
Proof.
  intros h n d'. split; [|split].
  - apply release_by_other.
  - apply release_keeps_rest.
  - apply release_last_frees.
Qed.

(** ** The light models' slot, through the service *)

Lemma AcquireSlotForHaiku_run (c : concurrencyCache) (requestID : string)
  (accountID maxConcurrency : Z) (sessionHash : string) (sv : server) :
  0 < maxConcurrency ->
  let target := hashToSlotIndex sessionHash maxConcurrency in
  let script :=
    acquireSlotWithSessionScript (slotOwnerKey accountID target)
      (accountSlotKey accountID) (slotTTLSeconds c) target sessionHash
      haikuMaxParallel requestID (sclock sv) (sdb sv) in
  @SlotService.AcquireSlotForHaiku _ (SlotService.redis c) false requestID
    accountID maxConcurrency sessionHash sv =
  (Ok {| SlotService.Acquired := script.1 =? 1;
         SlotService.SlotIndex := target;
         SlotService.ReleaseFunc :=
           if script.1 =? 1
           then Some (SlotService.releaseSessionSlot accountID target sessionHash)
           else None |},
   {| sdb := script.2; sclock := sclock sv |}).
Proof.
  intros Hpos target script. subst script.
  unfold SlotService.AcquireSlotForHaiku.
  destruct (Z.leb_spec maxConcurrency 0); [lia|].
  unfold mbind, mret, M_bind, M_ret.
  cbn [SlotService.Cache.AcquireSlotWithSession SlotService.redis].
  unfold RedisCache.run, AcquireSlotWithSession, mbind, mret, M_bind, M_ret,
    Lua_bind, Lua_ret. fold target.
  destruct (acquireSlotWithSessionScript _ _ _ _ _ _ _ _ _) as [r d'].
  cbn [fst snd]. by destruct (r =? 1).
Qed.

(** X10: the light models' slot through the service.  Without a cache or
    without a limit AcquireSlotForHaiku admits without a slot; otherwise
    it only ever tries the session's hash slot (sum of bytes mod
    maxConcurrency) and reports that slot whether admitted or not; a
    refusal changes nothing; on a slot its session holds with n live
    requests it is admitted exactly when n < 3, the count becoming
    n + 1; on a slot another session holds it is refused. *)
Theorem light_slot_through_service (c : concurrencyCache) (requestID : string)
  (accountID maxConcurrency : Z) (sessionHash : string) (sv : server)
  (later : Z) :
  255 * Z.of_nat (String.length sessionHash) <= MaxInt ->
  later < sclock sv + slotTTLSeconds c ->
  let now := sclock sv in
  let target := byteTotal sessionHash mod maxConcurrency in
  let h := slotOwner now accountID target (sdb sv) in
  let run :=
    @SlotService.AcquireSlotForHaiku _ (SlotService.redis c) false requestID
      accountID maxConcurrency sessionHash sv in
  (@SlotService.AcquireSlotForHaiku _ (SlotService.redis c) true requestID
     accountID maxConcurrency sessionHash sv = (Ok SlotService.unlimited, sv)) /\
  (maxConcurrency <= 0 -> run = (Ok SlotService.unlimited, sv)) /\
  (0 < maxConcurrency ->
   0 <= target < maxConcurrency /\
   exists res, run.1 = Ok res /\ SlotService.SlotIndex res = target /\
     (SlotService.Acquired res = true ->
      SlotService.ReleaseFunc res =
        Some (SlotService.releaseSessionSlot accountID target sessionHash)) /\
     (SlotService.Acquired res = false ->
      SlotService.ReleaseFunc res = None /\ run.2 = sv) /\
     (forall o n, ownedBy now h = Some (o, n) -> 0 < n ->
        (SlotService.Acquired res = true <->
         o = sessionHash /\ n < haikuMaxParallel) /\
        (SlotService.Acquired res = true ->
         ownedBy later (slotOwner later accountID target (sdb run.2))
         = Some (o, n + 1)))).
Proof.
  intros Hlen Hlater now target h run. subst run.
  split; [done|]. split.
  { intros Hle. unfold SlotService.AcquireSlotForHaiku.
    by destruct (Z.leb_spec maxConcurrency 0); [|lia]. }
  intros Hpos. split; [apply Z.mod_pos_bound; lia|].
  rewrite AcquireSlotForHaiku_run by done.
  rewrite hashToSlotIndex_mod by lia. fold target. fold now.
  pose proof (session_script_refused (slotOwnerKey accountID target)
                (accountSlotKey accountID) (slotTTLSeconds c) target
                sessionHash haikuMaxParallel requestID now (sdb sv))
    as [H01 Hsame].
  pose proof (session_script_cases (slotOwnerKey accountID target)
                (accountSlotKey accountID) (slotTTLSeconds c) target
                sessionHash haikuMaxParallel requestID now (sdb sv)) as Hcases.
  cbv zeta in H01, Hsame, Hcases.
  destruct (acquireSlotWithSessionScript _ _ _ _ _ _ _ _ _) as [r d'].
  cbn [fst snd] in *. eexists. split; [reflexivity|]. cbn.
  split; [done|]. split; [by destruct (r =? 1)|]. split.
  { destruct (Z.eqb_spec r 1) as [->|Hne]; [done|]. intros _.
    split; [done|]. destruct H01 as [->|]; [|done].
    rewrite Hsame by done. by destruct sv. }
  intros o n Hown Hn. fold (slotOwner now accountID target (sdb sv)) in Hcases.
  fold h in Hcases. rewrite Hown in Hcases.
  apply ownedBy_Some in Hown as (Hexp & Ho & Hcount & Hn0).
  destruct (decide (o = sessionHash)) as [->|Hne].
  - rewrite bool_decide_eq_true_2 in Hcases by done. cbn [andb] in Hcases.
    destruct (Z.ltb_spec n haikuMaxParallel) as [Hlt|Hge].
    + injection Hcases as -> ->. cbn. split; [done|]. intros _.
      eapply ownedBy_later; [by apply joinWrites_owner|done|lia].
    + injection Hcases as -> ->. cbn. split; [|done].
      split; [done|]. intros [_ ?]. lia.
  - rewrite bool_decide_eq_false_2 in Hcases by done. cbn [andb] in Hcases.
    injection Hcases as -> ->. cbn. split; [|done].
    split; [done|]. by intros [? _].
Qed.

Lemma light_slot_through_service_witness :
  let c := NewConcurrencyCache 15 0 in
  let sv := {| sdb := emptyDb; sclock := 1000 |} in
  exists res,
    (@SlotService.AcquireSlotForHaiku _ (SlotService.redis c) false "r1" 7 3
       "ab" sv).1 = Ok res
    /\ SlotService.SlotIndex res = 0.
Proof.
  intros c sv.
  assert (Hlen : 255 * Z.of_nat (String.length "ab") <= MaxInt)
    by (vm_compute; discriminate).
  assert (Hlater : 1001 < sclock sv + slotTTLSeconds c)
    by (vm_compute; reflexivity).
  destruct (light_slot_through_service c "r1" 7 3 "ab" sv 1001 Hlen Hlater)
    as (_ & _ & Hlim).
  destruct (Hlim ltac:(lia)) as (_ & res & Hres & Hslot & _).
  exists res. split; [exact Hres|]. rewrite Hslot. vm_compute. reflexivity.
Defined.

(** X11: the release function of the light models' slot undoes the
    acquire: after a session joined its own slot at count n the release
    brings the count back to n under the same owner, and after a session
    claimed a free slot the release leaves the slot free again, without
    owner record and without mark. *)
Theorem light_slot_release_round_trip (c : concurrencyCache)
  (requestID : string) (accountID maxConcurrency dt : Z)
  (sessionHash : string) (sv : server) :
  0 < maxConcurrency ->
  255 * Z.of_nat (String.length sessionHash) <= MaxInt ->
  0 <= dt < slotTTLSeconds c ->
  let now := sclock sv in
  let target := byteTotal sessionHash mod maxConcurrency in
  let h := slotOwner now accountID target (sdb sv) in
  let run :=
    @SlotService.AcquireSlotForHaiku _ (SlotService.redis c) false requestID
      accountID maxConcurrency sessionHash sv in
  let after :=
    (@SlotService.callRelease _ (SlotService.redis c)
       (SlotService.releaseSessionSlot accountID target sessionHash)
       (tick dt run.2)).2 in
  (forall n, ownedBy now h = Some (sessionHash, n) ->
     0 < n < haikuMaxParallel ->
     ownedBy (now + dt) (slotOwner (now + dt) accountID target (sdb after))
     = Some (sessionHash, n)) /\
  (ownedBy now h = None -> ownerExpired now h = false ->
   slotMarked now accountID target (sdb sv) = false ->
   slotOwner (now + dt) accountID target (sdb after) = noHash /\
   slotMarked (now + dt) accountID target (sdb after) = false /\
   slotBusy (now + dt) accountID target (sdb after) = false).
Proof.
  intros Hpos Hlen Hdt now target h run after. subst after run.
  rewrite AcquireSlotForHaiku_run by done.
  rewrite hashToSlotIndex_mod by lia. fold target. fold now.
  rewrite session_script_cases. cbv zeta.
  fold (slotOwner now accountID target (sdb sv)). fold h.
  unfold SlotService.callRelease, mbind, mret, M_bind, M_ret.
  cbn [SlotService.Cache.ReleaseSlotWithSession SlotService.redis].
  unfold RedisCache.run.
  split.
  - intros n Hown Hn. rewrite Hown.
    rewrite bool_decide_eq_true_2 by done. cbn [andb].
    destruct (Z.ltb_spec n haikuMaxParallel); [|lia].
    cbn [fst snd tick sdb sclock]. fold now.
    apply ownedBy_Some in Hown as (Hexp & Ho & Hcount & Hn0).
    set (d' := joinWrites (slotOwnerKey accountID target)
                 (accountSlotKey accountID) (slotTTLSeconds c) target now
                 (sdb sv)).
    assert (Hrec : slotOwner (now + dt) accountID target d' =
                   {| owner := Some sessionHash; count := Some (n + 1);
                      expire := Some (now + slotTTLSeconds c) |}).
    { unfold slotOwner, hread, kget. erewrite kfind_later;
        [|by apply joinWrites_owner|lia]. done. }
    destruct (release_keeps_rest accountID target sessionHash (now + dt) d')
      as [Hafter _]; [by rewrite Hrec|rewrite Hrec; simpl; lia|].
    destruct (ReleaseSlotWithSession accountID target sessionHash (now + dt) d')
      as [u d''].
    cbn [fst snd sdb] in *. rewrite Hafter, Hrec.
    unfold ownedBy, ownerExpired. cbn [owner count expire default from_option id].
    destruct (Z.ltb_spec (now + slotTTLSeconds c) (now + dt)); [lia|].
    rewrite andb_false_r.
    destruct (Z.eqb_spec (n + 1 - 1) 0); [lia|]. do 2 f_equal. lia.
  - intros Hfree Hexp Hmark. rewrite Hfree, Hexp.
    unfold slotMarked in Hmark. apply bool_decide_eq_false in Hmark.
    destruct (zread now (accountSlotKey accountID) (sdb sv) !! slotID target)
      as [x|] eqn:Hz; [by destruct Hmark; eauto|].
    cbn [fst snd tick sdb sclock]. fold now.
    set (d' := claimWrites (slotOwnerKey accountID target)
                 (accountSlotKey accountID) (slotTTLSeconds c) target
                 sessionHash now (sdb sv)).
    assert (Hrec : slotOwner (now + dt) accountID target d' =
                   {| owner := Some sessionHash; count := Some 1;
                      expire := Some (now + slotTTLSeconds c) |}).
    { unfold slotOwner, hread, kget. erewrite kfind_later;
        [|by apply claimWrites_owner|lia]. done. }
    destruct (release_last_frees accountID target sessionHash (now + dt) d')
      as (Hgone & Hunmarked & Hidle); [by rewrite Hrec|by rewrite Hrec|].
    destruct (ReleaseSlotWithSession accountID target sessionHash (now + dt) d')
      as [u d''].
    cbn [fst snd sdb] in *. done.
Qed.

Lemma light_slot_release_round_trip_witness :
  let c := NewConcurrencyCache 15 0 in
  let sv := {| sdb := emptyDb; sclock := 1000 |} in
  let run :=
    @SlotService.AcquireSlotForHaiku _ (SlotService.redis c) false "r1" 7 3
      "ab" sv in
  slotBusy 1005 7 0
    (sdb (@SlotService.callRelease _ (SlotService.redis c)
            (SlotService.releaseSessionSlot 7 0 "ab") (tick 5 run.2)).2)
  = false.
Proof.
  intros c sv run.
  assert (Hpos : 0 < 3) by lia.
  assert (Hlen : 255 * Z.of_nat (String.length "ab") <= MaxInt)
    by (vm_compute; discriminate).
  assert (Hdt : 0 <= 5 < slotTTLSeconds c)
    by (vm_compute; split; [discriminate|reflexivity]).
  destruct (light_slot_release_round_trip c "r1" 7 3 5 "ab" sv Hpos Hlen Hdt)
    as [_ Hfree].
  destruct Hfree as (_ & _ & Hidle); [vm_compute; reflexivity..|].
  exact Hidle.
Defined.

(** ** Counting and cleaning *)

(** X12: counting and cleaning agree.  A member written with score s is
    counted by GetAccountConcurrency at time now exactly when
    now < s + ttl; the count is the number of such members; the cleanup
    script returns how many members it removed, leaves the count as it
    is, and removes nothing when run again at the same instant. *)
Theorem count_and_cleanup_agree (c : concurrencyCache) (accountID now : Z)
  (d : db) :
  let key := accountSlotKey accountID in
  let ttl := slotTTLSeconds c in
  let live := zread now key d in
  let kept := filter (scoreAbove (now - ttl)) live in
  let cleaned := cleanupExpiredSlotsScript key ttl now d in
  (forall member s, live !! member = Some s ->
     (kept !! member = Some s <-> now < s + ttl)) /\
  (GetAccountConcurrency c accountID now d).1 = Z.of_nat (size kept) /\
  cleaned.1 = Z.of_nat (size live) - Z.of_nat (size kept) /\
  0 <= cleaned.1 /\
  (CleanupExpiredAccountSlots c accountID now d).2 = cleaned.2 /\
  (GetAccountConcurrency c accountID now cleaned.2).1 = Z.of_nat (size kept) /\
  (cleanupExpiredSlotsScript key ttl now cleaned.2).1 = 0.
Proof.
  intros key ttl live kept cleaned. subst cleaned.
  assert (Hread : forall d0, zread now key (zwrite now key kept d0) = kept)
    by (intros; apply zread_zwrite).
  split.
  { intros member s Hs. unfold kept. rewrite filter_scoreAbove_lookup.
    split; [intros [_ ?]; lia|intros; split; [done|lia]]. }
  unfold GetAccountConcurrency, CleanupExpiredAccountSlots, getCountScript,
    cleanupExpiredSlotsScript.
  script_steps. fold key. fold ttl. fold live. fold kept. cbn [fst snd].
  assert (Hidem : filter (scoreAbove (now - ttl)) kept = kept)
    by apply filter_scoreAbove_idem.
  rewrite !Hread, !Hidem, !Hread.
  split; [done|]. split; [done|]. split.
  { assert (size kept <= size live)%nat; [|lia].
    apply map_subseteq_size, map_filter_subseteq. }
  split; [done|]. split; [done|]. lia.
Qed.

(** ** The session hash and the pools *)

Lemma byte_sum_permutation (l1 l2 : list Z) :
  l1 ≡ₚ l2 -> foldr Z.add 0 l1 = foldr Z.add 0 l2.
Proof. induction 1; simpl; lia. Qed.

Lemma bytes_length (s : string) : length (bytes s) = String.length s.
Proof.
  unfold bytes. rewrite length_map.
  induction s as [|a s IH]; simpl; [done|]. by rewrite IH.
Qed.

(** X13: the session hash is the sum of the bytes modulo the number of
    slots: it lies in 0 .. n-1, it is 0 when n is not positive, and it
    does not depend on the order of the bytes, so that two session
    hashes with the same bytes in another order always share their
    preferred slot. *)
Theorem session_hash_ignores_byte_order (s1 s2 : string) (n : Z) :
  255 * Z.of_nat (String.length s1) <= MaxInt ->
  bytes s1 ≡ₚ bytes s2 ->
  hashToSlotIndex s1 n = hashToSlotIndex s2 n /\
  (0 < n -> 0 <= hashToSlotIndex s1 n < n) /\
  (n <= 0 -> hashToSlotIndex s1 n = 0).
Proof.
  intros Hlen Hperm.
  assert (Hlen2 : 255 * Z.of_nat (String.length s2) <= MaxInt).
  { rewrite <- bytes_length, <- Hperm, bytes_length. done. }
  destruct (Z.leb_spec n 0) as [Hn|Hn].
  - unfold hashToSlotIndex. destruct (Z.leb_spec n 0); [|lia].
    split; [done|]. split; [lia|done].
  - rewrite !hashToSlotIndex_mod by lia. unfold byteTotal.
    rewrite (byte_sum_permutation _ _ Hperm). split; [done|].
    split; [|lia]. intros _. apply Z.mod_pos_bound. lia.
Qed.

Lemma session_hash_ignores_byte_order_witness :
  hashToSlotIndex "ab" 3 = hashToSlotIndex "ba" 3.
Proof.
  assert (Hlen : 255 * Z.of_nat (String.length "ab") <= MaxInt)
    by (vm_compute; discriminate).
  assert (Hperm : bytes "ab" ≡ₚ bytes "ba") by apply perm_swap.
  exact (proj1 (session_hash_ignores_byte_order "ab" "ba" 3 Hlen Hperm)).
Defined.

(** X14: the pools AcquireSessionSlot works with never share a slot.
    For every concurrency limit C with 1 <= C <= 2305843009213693951 the
    pool has T = CalculateTotalSlots(C) > C positions and T >= 2, so the
    shared single-slot case of CalculateModelSlotRange is never reached:
    opus gets [0, T/2), sonnet [T/2, T), both non-empty, and every
    position of the pool belongs to exactly one of them. *)
Theorem session_pools_never_shared (C : Z) :
  1 <= C <= maxSizedConcurrency ->
  let T := CalculateTotalSlots C in
  C < T /\ 2 <= T /\
  categoryRange "opus" T = (0, T / 2) /\
  categoryRange "sonnet" T = (T / 2, T) /\
  0 < T / 2 < T /\
  (forall i, 0 <= i < T ->
     ((categoryRange "opus" T).1 <= i < (categoryRange "opus" T).2 /\
      ~ (categoryRange "sonnet" T).1 <= i < (categoryRange "sonnet" T).2)
     \/
     ((categoryRange "sonnet" T).1 <= i < (categoryRange "sonnet" T).2 /\
      ~ (categoryRange "opus" T).1 <= i < (categoryRange "opus" T).2)).
Proof.
  intros HC T. subst T. rewrite CalculateTotalSlots_sized by done.
  unfold maxSizedConcurrency in HC.
  set (T := (4 * C + 2) / 3).
  assert (HT : C + 1 <= T /\ 2 <= T /\ T <= MaxInt).
  { unfold T, MaxInt, intSize. split; [|split].
    - apply Z.div_le_lower_bound; lia.
    - apply Z.div_le_lower_bound; lia.
    - apply Z.div_le_upper_bound; lia. }
  assert (Hhalf : 0 < T / 2 < T).
  { split; [apply Z.div_str_pos; lia|apply Z.div_lt; lia]. }
  assert (Hopus : categoryRange "opus" T = (0, T / 2)).
  { unfold categoryRange. cbn [String.eqb Ascii.eqb Bool.eqb].
    by rewrite CalculateModelSlotRange_split by lia. }
  assert (Hsonnet : categoryRange "sonnet" T = (T / 2, T)).
  { unfold categoryRange. cbn [String.eqb Ascii.eqb Bool.eqb].
    by rewrite CalculateModelSlotRange_split by lia. }
  split; [lia|]. split; [lia|]. split; [done|]. split; [done|].
  split; [done|]. intros i Hi. rewrite Hopus, Hsonnet. cbn [fst snd].
  destruct (Z.lt_ge_cases i (T / 2)); [left|right]; lia.
Qed.

Lemma session_pools_never_shared_witness :
  categoryRange "opus" (CalculateTotalSlots 1) = (0, 1) /\
  categoryRange "sonnet" (CalculateTotalSlots 1) = (1, 2).
Proof.
  assert (HC : 1 <= 1 <= maxSizedConcurrency)
    by (vm_compute; split; discriminate).
  destruct (session_pools_never_shared 1 HC) as (_ & _ & Ho & Hs & _).
  split; [exact Ho|exact Hs].
Defined.

(** X15: the model predicates follow the order of the tests in
    GetModelCategory: a name is an Opus model when it contains "opus", a
    Sonnet model when it contains "sonnet" but not "opus", a Haiku model
    when it contains "haiku" but neither of the others; so no name
    satisfies two of the three predicates. *)
Theorem model_predicates_exclusive (model : string) :
  (Helper.IsOpusModel model = true <-> occursIn "opus" model) /\
  (Helper.IsSonnetModel model = true <->
   occursIn "sonnet" model /\ ~ occursIn "opus" model) /\
  (IsHaikuModel model = true <->
   occursIn "haiku" model /\ ~ occursIn "sonnet" model
   /\ ~ occursIn "opus" model) /\
  (Helper.IsOpusModel model && Helper.IsSonnetModel model = false) /\
  (Helper.IsOpusModel model && IsHaikuModel model = false) /\
  (Helper.IsSonnetModel model && IsHaikuModel model = false).
Proof.
  unfold Helper.IsOpusModel, Helper.IsSonnetModel, IsHaikuModel,
    GetModelCategory.
  pose proof (containsSubstring_spec model "opus") as Ho.
  pose proof (containsSubstring_spec model "sonnet") as Hs.
  pose proof (containsSubstring_spec model "haiku") as Hh.
  destruct (containsSubstring model "opus");
    destruct (containsSubstring model "sonnet");
    destruct (containsSubstring model "haiku");
    vm_compute String.eqb; cbn [andb];
    repeat split; try done; try tauto;
    try (intros; exfalso; intuition congruence);
    try (intros Hin; apply Ho in Hin; discriminate);
    try (intros Hin; apply Hs in Hin; discriminate).
Qed.

(** ** The request windows *)

Lemma lowestScore_list (l : list (string * Z)) :
  match foldr (fun ms acc =>
                 Some (match acc with
                       | None => ms.2
                       | Some low => Z.min ms.2 low
                       end)) None l with
  | None => l = []
  | Some v => (exists k, (k, v) ∈ l) /\ forall k s, (k, s) ∈ l -> v <= s
  end.
Proof.
  induction l as [|[k s] l IH]; [done|]. cbn [foldr snd].
  destruct (foldr _ None l) as [low|].
  - destruct IH as [[k' Hk'] Hlow]. split.
    + destruct (Z.min_spec s low) as [[_ ->]|[_ ->]].
      * exists k. apply elem_of_cons. by left.
      * exists k'. apply elem_of_cons. by right.
    + intros k0 s0 [[= -> ->]|Hin]%elem_of_cons; [lia|].
      specialize (Hlow _ _ Hin). lia.
  - subst l. split.
    + exists k. apply elem_of_cons. by left.
    + intros k0 s0 [[= -> ->]|Hin]%elem_of_cons; [lia|].
      by apply elem_of_nil in Hin.
Qed.

Lemma lowestScore_None (m : gmap string Z) :
  Windows.lowestScore m = None <-> m = ∅.
Proof.
  unfold Windows.lowestScore. pose proof (lowestScore_list (map_to_list m)) as H.
  split.
  - intros E. rewrite E in H. by apply map_to_list_empty_iff.
  - intros ->. by rewrite map_to_list_empty.
Qed.

Lemma lowestScore_Some (m : gmap string Z) (v : Z) :
  Windows.lowestScore m = Some v ->
  (exists k, m !! k = Some v) /\ forall k s, m !! k = Some s -> v <= s.
Proof.
  unfold Windows.lowestScore. pose proof (lowestScore_list (map_to_list m)) as H.
  intros E. rewrite E in H. destruct H as [[k Hk] Hlow]. split.
  - exists k. by apply elem_of_map_to_list.
  - intros k0 s Hs. apply (Hlow k0). by apply elem_of_map_to_list.
Qed.

(** Dropping a member makes a set strictly smaller. *)
Lemma filter_drops_size (max : Z) (m : gmap string Z) (k : string) (s : Z) :
  m !! k = Some s -> s <= max ->
  (size (filter (scoreAbove max) m) < size m)%nat.
Proof.
  intros Hk Hs. apply map_subset_size. split.
  - apply map_filter_subseteq.
  - intros Hsub.
    assert (Hin : filter (scoreAbove max) m !! k = Some s).
    { eapply lookup_weaken; [exact Hk|exact Hsub]. }
    apply filter_scoreAbove_lookup in Hin as [_ ?]. lia.
Qed.

Lemma filter_scoreAbove_mono (lo hi : Z) (m : gmap string Z) :
  lo <= hi ->
  filter (scoreAbove hi) (filter (scoreAbove lo) m) = filter (scoreAbove hi) m.
Proof.
  intros Hle. apply map_eq. intros k. apply option_eq. intros s.
  rewrite !filter_scoreAbove_lookup. split; [tauto|]. intros [? ?].
  split; [split; [done|lia]|done].
Qed.

Lemma window_cutoff (nowMs windowSeconds : Z) :
  0 <= nowMs <= MaxInt -> 0 <= windowSeconds * 1000 <= MaxInt ->
  sub nowMs (windowSeconds * 1000) = nowMs - windowSeconds * 1000.
Proof.
  intros Hn Hw. apply sub_small. unfold MinInt, MaxInt, intSize in *. lia.
Qed.

(** What the window methods leave and answer, on the members read. *)
Lemma recordInWindow_read (key : string) (windowSeconds ttl nowMs now later : Z)
  (d : db) :
  later < now + ttl ->
  zread later key (Windows.recordInWindow key windowSeconds ttl nowMs now d).2 =
    <[pretty nowMs := nowMs]>
      (filter (scoreAbove (sub nowMs (windowSeconds * 1000)))
         (zread now key d)).
Proof.
  intros Hl. unfold Windows.recordInWindow. script_steps. cbn [snd].
  rewrite zread_zwrite. by apply claim_read.
Qed.

Lemma countInWindow_run (key : string) (windowSeconds nowMs now : Z) (d : db) :
  let kept := filter (scoreAbove (sub nowMs (windowSeconds * 1000)))
                (zread now key d) in
  Windows.countInWindow key windowSeconds nowMs now d =
    (Z.of_nat (size kept), zwrite now key kept d).
Proof.
  intros kept. unfold Windows.countInWindow. script_steps. fold kept.
  by rewrite zread_zwrite.
Qed.

Lemma size_pos_lookup (m : gmap string Z) (k : string) (v : Z) :
  m !! k = Some v -> 1 <= Z.of_nat (size m).
Proof.
  intros Hk. destruct (size m) eqn:E; [|lia].
  apply map_size_empty_iff in E. subst m. by rewrite lookup_empty in Hk.
Qed.

(** X16: the RPM window.  A request recorded at millisecond t is counted
    by GetAccountRPM at every later instant before t + 60000 ms (while the
    key, kept for 120 s, is alive) and is no longer a member once
    GetAccountRPM has run at t + 60000 ms or later; recording a second
    request in the same millisecond changes no member, so the two are
    counted as one. *)
Theorem rpm_window_counts (accountID nowMs nowMs' now later : Z) (d : db) :
  0 <= nowMs -> nowMs <= nowMs' <= MaxInt ->
  now <= later < now + Windows.rpmLimitTTL ->
  let key := Windows.rpmLimitKey accountID in
  let recorded := (Windows.RecordAccountRequest accountID nowMs now d).2 in
  let asked := Windows.GetAccountRPM accountID nowMs' later recorded in
  let again := (Windows.RecordAccountRequest accountID nowMs now recorded).2 in
  (nowMs' < nowMs + 60000 -> 1 <= asked.1) /\
  (nowMs + 60000 <= nowMs' -> zread later key asked.2 !! pretty nowMs = None) /\
  zread later key again = zread later key recorded /\
  (Windows.GetAccountRPM accountID nowMs' later again).1 = asked.1.
Proof.
  intros Hpos Hms Hlater key recorded asked again.
  subst again asked recorded.
  unfold Windows.RecordAccountRequest, Windows.GetAccountRPM.
  fold key. unfold Windows.rpmLimitTTL in Hlater.
  rewrite !countInWindow_run. cbn [fst snd].
  rewrite !recordInWindow_read by (unfold Windows.rpmLimitTTL; lia).
  rewrite !window_cutoff
    by (unfold Windows.rpmWindowSeconds, MaxInt, intSize in *; lia).
  unfold Windows.rpmWindowSeconds.
  set (kept := filter (scoreAbove (nowMs - 60 * 1000)) (zread now key d)).
  assert (Hsame : filter (scoreAbove (nowMs - 60 * 1000))
                    (<[pretty nowMs := nowMs]> kept)
                  = <[pretty nowMs := nowMs]> kept).
  { apply map_eq. intros k. apply option_eq. intros s.
    rewrite filter_scoreAbove_lookup. split; [tauto|]. intros Hs.
    split; [done|].
    destruct (decide (k = pretty nowMs)) as [->|Hne].
    - rewrite lookup_insert_eq in Hs. injection Hs as <-. lia.
    - rewrite lookup_insert_ne in Hs by done.
      apply filter_scoreAbove_lookup in Hs as [_ ?]. done. }
  rewrite Hsame, insert_insert_eq.
  split; [|split; [|done]].
  - intros Hin. eapply (size_pos_lookup _ (pretty nowMs) nowMs).
    apply filter_scoreAbove_lookup. rewrite lookup_insert_eq. split; [done|lia].
  - intros Hout. rewrite zread_zwrite. apply eq_None_not_Some. intros [s Hs].
    apply filter_scoreAbove_lookup in Hs as [Hs Hgt].
    rewrite lookup_insert_eq in Hs. injection Hs as <-. lia.
Qed.

Lemma rpm_window_counts_witness :
  1 <= (Windows.GetAccountRPM 7 1700000030000 1030
          (Windows.RecordAccountRequest 7 1700000000000 1000 emptyDb).2).1.
Proof.
  assert (Hpos : 0 <= 1700000000000) by lia.
  assert (Hms : 1700000000000 <= 1700000030000 <= MaxInt)
    by (vm_compute; split; discriminate).
  assert (Hlater : 1000 <= 1030 < 1000 + Windows.rpmLimitTTL)
    by (vm_compute; split; [discriminate|reflexivity]).
  destruct (rpm_window_counts 7 1700000000000 1700000030000 1000 1030 emptyDb
              Hpos Hms Hlater) as [Hin _].
  apply Hin. lia.
Defined.

Lemma zread_zwrite_later (now later : Z) (key : string) (m : gmap string Z)
  (d : db) :
  zread later key (zwrite now key m d) = m \/
  zread later key (zwrite now key m d) = ∅.
Proof.
  unfold zread, zwrite, kget. destruct (size m =? 0)%nat eqn:E.
  - right. simpl. by rewrite kfind_kdel_eq.
  - simpl. unfold kfind, kset. rewrite lookup_insert_eq.
    destruct (alive later _); [by left|by right].
Qed.

(** X17: waiting for an RPM slot ends when the oldest request leaves the
    window.  With the answers of GetAccountRPM and
    GetAccountOldestRequestTime (asked in this order, no request recorded
    in between and none recorded with a timestamp in the future): an
    empty window never waits; and when WaitForRPMSlot waits on an oldest
    request at time o, it waits exactly until o + 60000 ms, at most 60 s,
    and GetAccountRPM asked at the end of the wait answers less than it
    did before. *)
Theorem rpm_wait_ends_with_oldest (accountID maxRPM t1 t2 t3 now later : Z)
  (d : db) :
  0 <= t1 <= t2 -> t2 <= t3 <= MaxInt - 60000 ->
  let key := Windows.rpmLimitKey accountID in
  (forall member s, zread now key d !! member = Some s -> s <= t1) ->
  let counted := Windows.GetAccountRPM accountID t1 now d in
  let oldest := Windows.GetAccountOldestRequestTime accountID t2 now counted.2 in
  let decision :=
    WaitForRPMSlot false maxRPM (Ok counted.1) (Ok oldest.1) t3 in
  (counted.1 = 0 -> oldest.1 = 0 /\ decision = returnNow) /\
  (forall ms, decision = waitWithPing ms -> oldest.1 <> 0 ->
     ms = oldest.1 + 60000 - t3 /\ 0 < ms <= 60000 /\
     (Windows.GetAccountRPM accountID (t3 + ms) later oldest.2).1 < counted.1).
Proof.
  intros Ht1 Ht3 key Hpast counted oldest decision.
  subst decision oldest counted.
  unfold Windows.GetAccountRPM, Windows.GetAccountOldestRequestTime.
  fold key. rewrite !countInWindow_run. cbn [fst snd].
  unfold MaxInt, intSize in Ht3.
  rewrite !window_cutoff
    by (unfold Windows.rpmWindowSeconds, MaxInt, intSize in *; lia).
  unfold Windows.rpmWindowSeconds.
  set (m1 := filter (scoreAbove (t1 - 60 * 1000)) (zread now key d)).
  script_steps. unfold Windows.ZRANGE_first_score. cbn [fst snd].
  rewrite !zread_zwrite.
  set (m2 := filter (scoreAbove (t2 - 60 * 1000)) m1).
  assert (Hsize : (size m2 <= size m1)%nat)
    by apply map_subseteq_size, map_filter_subseteq.
  assert (Hm1 : forall k s, m1 !! k = Some s -> s <= t1).
  { intros k s Hs. apply filter_scoreAbove_lookup in Hs as [Hs _]. eauto. }
  split.
  - intros Hzero. assert (Hempty : m1 = ∅) by (apply map_size_empty_iff; lia).
    assert (Hempty2 : m2 = ∅) by (unfold m2; by rewrite Hempty, map_filter_empty).
    rewrite Hempty2. replace (Windows.lowestScore ∅) with (@None Z)
      by (symmetry; by apply lowestScore_None).
    cbn [fst]. split; [done|]. unfold WaitForRPMSlot.
    rewrite Hempty, map_size_empty. unfold defaultAccountMaxRPM.
    destruct (maxRPM <=? 0) eqn:E; [done|].
    apply Z.leb_gt in E. by destruct (Z.ltb_spec (Z.of_nat 0) maxRPM); [|lia].
  - intros ms. destruct (Windows.lowestScore m2) as [v|] eqn:Hlow;
      cbn [fst snd]; [|done].
    apply lowestScore_Some in Hlow as [[k Hk] Hleast].
    assert (Hk1 : m1 !! k = Some v /\ t2 - 60 * 1000 < v)
      by (by apply filter_scoreAbove_lookup).
    assert (Hv : v <= t1) by (eapply Hm1, Hk1).
    unfold WaitForRPMSlot, rpmWindowSeconds.
    destruct (Z.of_nat (size m1) <? _); [done|].
    destruct (Z.eqb_spec v 0) as [->|Hv0]; [done|]. intros Hw _.
    rewrite add_small in Hw by (unfold MinInt, MaxInt, intSize; lia).
    rewrite sub_small in Hw by (unfold MinInt, MaxInt, intSize; lia).
    destruct (Z.leb_spec (v + 60 * 1000 - t3) 0); [done|].
    destruct (Z.ltb_spec (60 * 1000) (v + 60 * 1000 - t3)); [lia|].
    injection Hw as <-. split; [lia|]. split; [lia|].
    rewrite countInWindow_run. cbn [fst].
    rewrite window_cutoff by (unfold MaxInt, intSize; lia).
    replace (t3 + (v + 60 * 1000 - t3) - 60 * 1000) with v by lia.
    destruct (zread_zwrite_later now later key m2
                (zwrite now key m1 d)) as [-> | ->].
    + pose proof (filter_drops_size v m2 k v Hk ltac:(lia)). lia.
    + rewrite map_filter_empty, map_size_empty.
      pose proof (size_pos_lookup m2 k v Hk). lia.
Qed.

Lemma rpm_wait_ends_with_oldest_witness :
  let d := (Windows.RecordAccountRequest 7 1700000000000 1000 emptyDb).2 in
  let counted := Windows.GetAccountRPM 7 1700000010000 1010 d in
  let oldest :=
    Windows.GetAccountOldestRequestTime 7 1700000010000 1010 counted.2 in
  WaitForRPMSlot false 1 (Ok counted.1) (Ok oldest.1) 1700000010000
  = waitWithPing 50000 /\
  (Windows.GetAccountRPM 7 (1700000010000 + 50000) 1060 oldest.2).1
  < counted.1.
Proof.
  intros d counted oldest.
  assert (Ht1 : 0 <= 1700000010000 <= 1700000010000) by lia.
  assert (Ht3 : 1700000010000 <= 1700000010000 <= MaxInt - 60000)
    by (vm_compute; split; discriminate).
  assert (Hpast : forall member s,
            zread 1010 (Windows.rpmLimitKey 7) d !! member = Some s ->
            s <= 1700000010000).
  { intros member s Hs. unfold d, Windows.RecordAccountRequest in Hs.
    rewrite recordInWindow_read in Hs by (vm_compute; reflexivity).
    rewrite zread_emptyDb, map_filter_empty in Hs.
    destruct (decide (member = pretty 1700000000000)) as [->|Hne].
    - rewrite lookup_insert_eq in Hs. injection Hs as <-. lia.
    - rewrite lookup_insert_ne, lookup_empty in Hs by done. done. }
  destruct (rpm_wait_ends_with_oldest 7 1 1700000010000 1700000010000
              1700000010000 1010 1060 d Ht1 Ht3 Hpast) as [_ Hwait].
  assert (Hdec : WaitForRPMSlot false 1 (Ok counted.1) (Ok oldest.1)
                   1700000010000 = waitWithPing 50000)
    by (vm_compute; reflexivity).
  assert (Hne : oldest.1 <> 0) by (vm_compute; discriminate).
  destruct (Hwait 50000 Hdec Hne) as (_ & _ & Hless).
  split; [exact Hdec|exact Hless].
Defined.

(** ** The session mutex through the service *)

Lemma mutexHolder_put (now later accountID : Z) (sessionHash requestID : string)
  (d : db) :
  later < now + sessionMutexTTLSeconds ->
  mutexHolder later accountID sessionHash
    (with_strs (kput (sessionMutexKey accountID sessionHash) requestID
                  (Some (now + sessionMutexTTLSeconds))) d)
  = Some requestID.
Proof.
  intros Hl. unfold mutexHolder, kget, kfind, kput. simpl.
  rewrite lookup_insert_eq. unfold alive. simpl.
  by destruct (Z.ltb_spec later (now + sessionMutexTTLSeconds)); [|lia].
Qed.

(** X18: the session mutex through the service.  Without a cache or
    with an empty session hash AcquireSessionMutex reports the mutex as
    acquired without touching the store, so such requests exclude nobody;
    otherwise it is acquired exactly when no request holds the mutex (the
    script is a set-if-absent, so even the holder's own request ID is
    refused), a refusal changes nothing and carries no release function,
    and after an acquire the request holds the mutex for 300 s, every
    request is refused meanwhile, calling the release function frees it,
    and the next request is then granted. *)
Theorem service_mutex_round_trip (c : concurrencyCache)
  (requestID other : string) (accountID dt : Z) (sessionHash : string)
  (sv : server) :
  0 <= dt < sessionMutexTTLSeconds ->
  let now := sclock sv in
  let skipped :=
    {| SlotService.MutexAcquired := true; SlotService.RequestID := "";
       SlotService.MutexReleaseFunc := Some SlotService.releaseNothing |} in
  let refused :=
    {| SlotService.MutexAcquired := false; SlotService.RequestID := "";
       SlotService.MutexReleaseFunc := None |} in
  let acquire nil r :=
    @SlotService.AcquireSessionMutex _ (SlotService.redis c) nil r accountID
      sessionHash in
  let run := acquire false requestID sv in
  let released :=
    (@SlotService.callRelease _ (SlotService.redis c)
       (SlotService.releaseMutex accountID sessionHash requestID)
       (tick dt run.2)).2 in
  (acquire true requestID sv = (Ok skipped, sv)) /\
  (sessionHash = "" -> run = (Ok skipped, sv)) /\
  (sessionHash <> "" ->
   exists res, run.1 = Ok res /\
     (SlotService.MutexAcquired res = true <->
      mutexHolder now accountID sessionHash (sdb sv) = None) /\
     (SlotService.MutexAcquired res = false ->
      res = refused /\ run.2 = sv) /\
     (SlotService.MutexAcquired res = true ->
      SlotService.RequestID res = requestID /\
      SlotService.MutexReleaseFunc res =
        Some (SlotService.releaseMutex accountID sessionHash requestID) /\
      mutexHolder (now + dt) accountID sessionHash (sdb run.2)
        = Some requestID /\
      (acquire false other (tick dt run.2)).1 = Ok refused /\
      (acquire false requestID (tick dt run.2)).1 = Ok refused /\
      mutexHolder (now + dt) accountID sessionHash (sdb released) = None /\
      (acquire false other released).1 =
        Ok {| SlotService.MutexAcquired := true;
              SlotService.RequestID := other;
              SlotService.MutexReleaseFunc :=
                Some (SlotService.releaseMutex accountID sessionHash other) |})).
Proof.
  intros Hdt now skipped refused acquire run released.
  subst released run acquire skipped refused.
  unfold SlotService.AcquireSessionMutex. cbn [orb]. split; [done|]. split.
  { intros ->. done. }
  intros Hne. destruct (String.eqb_spec sessionHash ""); [done|].
  unfold SlotService.callRelease, mbind, mret, M_bind, M_ret.
  cbn [SlotService.Cache.AcquireSessionMutex
       SlotService.Cache.ReleaseSessionMutex SlotService.redis].
  unfold RedisCache.run. fold now.
  rewrite AcquireSessionMutex_cases.
  destruct (mutexHolder now accountID sessionHash (sdb sv)) as [holder|] eqn:Hh.
  - eexists. split; [reflexivity|]. cbn. split; [done|].
    split; [intros _; split; [done|by destruct sv]|done].
  - eexists. split; [reflexivity|]. cbn. split; [done|]. split; [done|].
    intros _. split; [done|]. split; [done|].
    set (d' := with_strs _ (sdb sv)).
    assert (Hheld : mutexHolder (now + dt) accountID sessionHash d'
                    = Some requestID) by (apply mutexHolder_put; lia).
    split; [done|].
    assert (Hbusy : forall r : string,
      (let (r0, d0) := AcquireSessionMutex accountID sessionHash r
                         (sclock (tick dt {| sdb := d'; sclock := now |}))
                         (sdb (tick dt {| sdb := d'; sclock := now |})) in
       (Ok r0,
        {| sdb := d0;
           sclock := sclock (tick dt {| sdb := d'; sclock := now |}) |})).1
      = Ok false).
    { intros r. rewrite AcquireSessionMutex_cases. cbn [sdb sclock tick].
      by rewrite Hheld. }
    split.
    { specialize (Hbusy other).
      destruct (AcquireSessionMutex accountID sessionHash other _ _)
        as [r0 d0].
      cbn [fst] in *. by injection Hbusy as ->. }
    split.
    { specialize (Hbusy requestID).
      destruct (AcquireSessionMutex accountID sessionHash requestID _ _)
        as [r0 d0].
      cbn [fst] in *. by injection Hbusy as ->. }
    cbn [sdb sclock tick]. fold now.
    pose proof (ReleaseSessionMutex_cases accountID sessionHash requestID
                  (now + dt) d') as Hrel.
    destruct (ReleaseSessionMutex accountID sessionHash requestID
                (now + dt) d') as [u d''].
    cbn [fst snd sdb sclock] in *. rewrite Hrel, Hheld.
    rewrite bool_decide_eq_true_2 by done.
    set (d3 := with_strs _ d').
    assert (Hfree : mutexHolder (now + dt) accountID sessionHash d3 = None).
    { unfold d3, mutexHolder, kget. simpl. by rewrite kfind_kdel_eq. }
    split; [exact Hfree|].
    rewrite AcquireSessionMutex_cases, Hfree. reflexivity.
Qed.

Lemma service_mutex_round_trip_witness :
  let c := NewConcurrencyCache 15 0 in
  let sv := {| sdb := emptyDb; sclock := 1000 |} in
  let acquire r :=
    @SlotService.AcquireSessionMutex _ (SlotService.redis c) false r 7 "s" in
  let run := acquire "r1" sv in
  let released :=
    (@SlotService.callRelease _ (SlotService.redis c)
       (SlotService.releaseMutex 7 "s" "r1") (tick 5 run.2)).2 in
  (exists res, run.1 = Ok res /\ SlotService.MutexAcquired res = true) /\
  (exists res, (acquire "r2" (tick 5 run.2)).1 = Ok res /\
     SlotService.MutexAcquired res = false) /\
  (exists res, (acquire "r1" (tick 5 run.2)).1 = Ok res /\
     SlotService.MutexAcquired res = false) /\
  (exists res, (acquire "r2" released).1 = Ok res /\
     SlotService.MutexAcquired res = true).
Proof.
  intros c sv acquire run released.
  assert (Hdt : 0 <= 5 < sessionMutexTTLSeconds)
    by (vm_compute; split; [discriminate|reflexivity]).
  destruct (service_mutex_round_trip c "r1" "r2" 7 5 "s" sv Hdt)
    as (_ & _ & Hrun).
  destruct (Hrun ltac:(discriminate)) as (res & Hres & Hiff & _ & Hheld).
  assert (Hacq : SlotService.MutexAcquired res = true)
    by (apply Hiff; vm_compute; reflexivity).
  destruct (Hheld Hacq) as (_ & _ & _ & Hother & Hself & _ & Hnext).
  split; [exists res; split; [exact Hres|exact Hacq]|].
  split; [eexists; split; [exact Hother|reflexivity]|].
  split; [eexists; split; [exact Hself|reflexivity]|].
  eexists. split; [exact Hnext|reflexivity].
Defined.

(** ** The response end time and the pacing of user input *)

(** The decimal print of an integer has no colon, so a key made of two
    prints separated by a colon determines both. *)
Lemma pretty_N_go_no_colon (x : N) (s : string) :
  (forall pre post, s <> pre +:+ String ":" post) ->
  forall pre post, pretty_N_go x s <> pre +:+ String ":" post.
Proof.
  revert s. induction (N.lt_wf_0 x) as [x _ IH]. intros s Hs.
  assert (x = 0 \/ 0 < x)%N as [->|Hpos] by lia.
  - by rewrite pretty_N_go_0.
  - rewrite pretty_N_go_step by done. apply IH; [by apply N.div_lt|].
    intros [|c pre] post; cbn [String.app].
    + intros [= Hc _]. revert Hc. unfold pretty_N_char.
      by repeat case_match.
    + intros [= _ Hrest]. by apply (Hs pre post).
Qed.

Lemma pretty_Z_no_colon (x : Z) (pre post : string) :
  pretty x <> pre +:+ String ":" post.
Proof.
  assert (Hpos : forall (q : positive) pre' post',
            pretty q <> pre' +:+ String ":" post').
  { intros q. unfold pretty, pretty_positive, pretty, pretty_N.
    destruct (decide (N.pos q = 0)%N); [done|].
    apply pretty_N_go_no_colon. by intros [|? ?] ?. }
  unfold pretty, pretty_Z. destruct x as [|q|q].
  - destruct pre as [|c [|c' pre]]; discriminate.
  - apply Hpos.
  - destruct pre as [|c pre]; cbn [String.app]; [discriminate|].
    intros [= _ Hrest]. by apply (Hpos q pre post).
Qed.

Lemma colon_split (a a' b b' : string) :
  (forall pre post, a <> pre +:+ String ":" post) ->
  (forall pre post, a' <> pre +:+ String ":" post) ->
  a +:+ String ":" b = a' +:+ String ":" b' -> a = a' /\ b = b'.
Proof.
  revert a'. induction a as [|c r IH]; intros [|c' r'] Ha Ha';
    cbn [String.app].
  - by intros [= ->].
  - intros [= <- _]. by destruct (Ha' "" r').
  - intros [= -> _]. by destruct (Ha "" r).
  - intros [= -> Hrest]. destruct (IH r') as [-> ->]; [| |exact Hrest|done].
    + intros pre post ->. by apply (Ha (String c' pre) post).
    + intros pre post ->. by apply (Ha' (String c' pre) post).
Qed.

Lemma slotResponseEndKey_inj (accountID slotIndex accountID' slotIndex' : Z) :
  Windows.slotResponseEndKey accountID slotIndex =
  Windows.slotResponseEndKey accountID' slotIndex' ->
  accountID = accountID' /\ slotIndex = slotIndex'.
Proof.
  unfold Windows.slotResponseEndKey. intros Hkey.
  apply String.app_inj in Hkey. cbn [String.app] in Hkey.
  apply colon_split in Hkey as [Ha Hi]; [|apply pretty_Z_no_colon..].
  split; by apply pretty_Z_inj.
Qed.

(** X19: the response end time of a slot is read back as it was set for
    3600 s, and as 0, the value of a slot without record, afterwards;
    reading changes nothing; a later write replaces the earlier one;
    writing one slot does not change what is read for any other slot of
    the account or for any slot of another account; and with the answer 0
    the pacing of user input does not wait. *)
Theorem response_end_round_trip (accountID slotIndex timestamp now later : Z)
  (d : db) :
  let d' := (Windows.SetSlotResponseEndTime accountID slotIndex timestamp
               now d).2 in
  let read := Windows.GetSlotResponseEndTime accountID slotIndex later d' in
  read.2 = d' /\
  (later < now + 3600 -> read.1 = timestamp) /\
  (now + 3600 <= later ->
   read.1 = 0 /\
   forall intn t, Helper.waitForUserInputPacing (Ok read.1) intn t
                  = Helper.noPacing) /\
  (kget now (Windows.slotResponseEndKey accountID slotIndex) (ints d) = None ->
   Windows.GetSlotResponseEndTime accountID slotIndex now d = (0, d)) /\
  (forall earlier first : Z,
     later < now + 3600 ->
     (Windows.GetSlotResponseEndTime accountID slotIndex later
        (Windows.SetSlotResponseEndTime accountID slotIndex timestamp now
           (Windows.SetSlotResponseEndTime accountID slotIndex first earlier
              d).2).2).1 = timestamp) /\
  (forall otherAccount otherSlot t : Z,
     otherAccount <> accountID \/ otherSlot <> slotIndex ->
     (Windows.GetSlotResponseEndTime otherAccount otherSlot t d').1 =
     (Windows.GetSlotResponseEndTime otherAccount otherSlot t d).1).
Proof.
  intros d' read. subst read d'.
  unfold Windows.GetSlotResponseEndTime, Windows.SetSlotResponseEndTime,
    SET_int_EX, Windows.slotResponseEndTTLSeconds.
  script_steps. cbn [fst snd]. split; [done|].
  set (key := Windows.slotResponseEndKey accountID slotIndex).
  assert (Hget : forall d0, kget later key
                   (ints (with_ints (kput key timestamp (Some (now + 3600))) d0))
                 = if later <? now + 3600 then Some timestamp else None).
  { intros d0. unfold kget, kfind, kput. simpl. rewrite lookup_insert_eq.
    unfold alive. simpl. by destruct (later <? now + 3600). }
  rewrite !Hget. split; [|split; [|split; [|split]]].
  - intros Hl. by destruct (Z.ltb_spec later (now + 3600)); [|lia].
  - intros Hl. destruct (Z.ltb_spec later (now + 3600)); [lia|].
    split; [done|]. done.
  - intros Hnone. by rewrite Hnone.
  - intros earlier first Hl. rewrite Hget.
    by destruct (Z.ltb_spec later (now + 3600)); [|lia].
  - intros otherAccount otherSlot t Hother. f_equal.
    unfold kget, kfind, kput. cbn [ints with_ints].
    rewrite lookup_insert_ne; [done|].
    intros Hkey. apply slotResponseEndKey_inj in Hkey as [-> ->].
    by destruct Hother.
Qed.

(** X20: the pacing of user input, for clocks at most 9000000000 s
    apart.  Without a record of the last response (an error, or the
    answer 0) there is no wait.  Otherwise, with r the number drawn from
    0 .. 10 and e = now - lastResponseEnd the seconds since the last
    response, there is no wait exactly when e >= 10 + r, and a wait lasts
    10 + r - e seconds.  When the recorded end is not in the future
    (e >= 0) a wait is at most 20 s and the next request starts between
    10 and 20 s after the last response ended, and there is never a wait
    once 20 s have passed.  The code has no lower bound on e: a recorded
    end in the future (e < 0) always waits, for more than 10 + r seconds,
    and for more than 20 s when it lies more than 10 - r seconds ahead. *)
Theorem pacing_bounds (lastResponseEnd intn now : Z) :
  0 <= intn <= 10 ->
  lastResponseEnd <> 0 ->
  -9000000000 <= now - lastResponseEnd <= 9000000000 ->
  let elapsed := now - lastResponseEnd in
  let decision :=
    Helper.waitForUserInputPacing (Ok lastResponseEnd) intn now in
  (forall e, Helper.waitForUserInputPacing (Err e) intn now = Helper.noPacing) /\
  Helper.waitForUserInputPacing (Ok 0) intn now = Helper.noPacing /\
  (decision = Helper.noPacing <-> 10 + intn <= elapsed) /\
  (20 <= elapsed -> decision = Helper.noPacing) /\
  (forall actualWait, decision = Helper.pacingTimer actualWait ->
     actualWait = (10 + intn - elapsed) * Helper.Second /\
     0 < actualWait /\
     (0 <= elapsed ->
      actualWait <= 20 * Helper.Second /\
      10 * Helper.Second <= elapsed * Helper.Second + actualWait
        <= 20 * Helper.Second)) /\
  (elapsed < 0 ->
   decision = Helper.pacingTimer ((10 + intn - elapsed) * Helper.Second) /\
   (10 + intn) * Helper.Second < (10 + intn - elapsed) * Helper.Second /\
   (elapsed < intn - 10 ->
    20 * Helper.Second < (10 + intn - elapsed) * Helper.Second)).
Proof.
  intros Hintn Hlast Helapsed elapsed decision. subst decision.
  split; [done|]. split; [done|].
  unfold Helper.waitForUserInputPacing.
  destruct (Z.eqb_spec lastResponseEnd 0); [done|].
  unfold Helper.Second in *.
  rewrite (add_small 10 intn) by (unfold MinInt, MaxInt, intSize; lia).
  rewrite (sub_small now lastResponseEnd)
    by (unfold MinInt, MaxInt, intSize; lia).
  fold elapsed. unfold mul.
  rewrite !wrap_small by (unfold MinInt, MaxInt, intSize; lia).
  rewrite sub_small by (unfold MinInt, MaxInt, intSize; lia).
  replace ((10 + intn) * 1000000000 - elapsed * 1000000000)
    with ((10 + intn - elapsed) * 1000000000) by lia.
  destruct (Z.leb_spec ((10 + intn - elapsed) * 1000000000) 0).
  - split; [split; [lia|done]|]. split; [done|]. split; [done|]. lia.
  - split; [split; [done|lia]|]. split; [lia|]. split.
    + intros w [= <-]. lia.
    + intros Hneg. split; [done|]. lia.
Qed.

Lemma pacing_bounds_witness :
  Helper.waitForUserInputPacing (Ok 1700000000) 4 1700000003
  = Helper.pacingTimer 11000000000 /\
  Helper.waitForUserInputPacing (Ok 1700000060) 9 1700000000
  = Helper.pacingTimer 79000000000.
Proof.
  split.
  - assert (Hintn : 0 <= 4 <= 10) by lia.
    assert (Hlast : 1700000000 <> 0) by lia.
    assert (Helapsed : -9000000000 <= 1700000003 - 1700000000 <= 9000000000)
      by lia.
    destruct (pacing_bounds 1700000000 4 1700000003 Hintn Hlast Helapsed)
      as (_ & _ & Hnone & _ & Hwait & _).
    destruct (Helper.waitForUserInputPacing (Ok 1700000000) 4 1700000003)
      as [|w] eqn:E.
    + destruct Hnone as [Hn _]. specialize (Hn eq_refl). lia.
    + destruct (Hwait w eq_refl) as (-> & _). reflexivity.
  - assert (Hintn : 0 <= 9 <= 10) by lia.
    assert (Hlast : 1700000060 <> 0) by lia.
    assert (Helapsed : -9000000000 <= 1700000000 - 1700000060 <= 9000000000)
      by lia.
    destruct (pacing_bounds 1700000060 9 1700000000 Hintn Hlast Helapsed)
      as (_ & _ & _ & _ & _ & Hfuture).
    destruct (Hfuture ltac:(lia)) as (-> & _). reflexivity.
Defined.

(** ** The error policy of [AcquireSessionSlot] *)

Section SessionSlotPolicy.
Context {S : Type} (I : Service.ConcurrencyCache S).
Variables (accountID : Z) (sessionHash modelCategory requestID : string).
Variables (rangeStart rangeSize maxParallel : Z).

(** An admission carries the release of the slot it reports; a refusal
    carries no release. *)
Let settled (res : SessionSlotResult) : Prop :=
  if Acquired res
  then ReleaseFunc res =
         Some (releaseSession accountID (SlotIndex res) sessionHash
                 modelCategory)
  else ReleaseFunc res = None.

Let acquire (slot : Z) : S -> goResult bool * S :=
  Service.AcquireSlotWithSession accountID slot sessionHash maxParallel
    requestID modelCategory.

Let target : Z := add rangeStart (hashToSlotIndex sessionHash rangeSize).

(** The scan never returns an error: an acquire that fails there is
    skipped like a refusal. *)
Lemma fallback_policy (targetSlotInRange targetSlot : Z) (remaining : nat)
  (offset : Z) (s : S) :
  exists res : SessionSlotResult,
    (Service.fallback accountID sessionHash modelCategory requestID
       rangeStart rangeSize maxParallel targetSlotInRange targetSlot
       remaining offset s).1 = Ok res /\ settled res.
Proof.
  revert offset s. induction remaining as [|n IH]; intros offset s.
  - eexists. split; reflexivity.
  - cbn [Service.fallback]. unfold mbind, mret, M_bind, M_ret.
    destruct (Service.AcquireSlotWithSession _ _ _ _ _ _ s) as [[[|]|e] s1].
    + destruct (Service.SetSessionSlot _ _ _ s1) as [u s2].
      eexists. split; reflexivity.
    + apply IH.
    + apply IH.
Qed.

(** Steps 3 to 6 fail only with the error of the acquire on the target
    slot, and stop there. *)
Lemma selectInRange_policy (s : S) :
  let run := Service.selectInRange accountID sessionHash modelCategory
               requestID rangeStart rangeSize maxParallel s in
  match run.1 with
  | Err msg =>
      exists e : string,
        acquire target s = (Err e, run.2) /\
        msg = "acquire target slot failed: " +:+ e
  | Ok res => settled res
  end.
Proof.
  unfold Service.selectInRange, mbind, mret, M_bind, M_ret. cbv zeta.
  fold target. fold (acquire target).
  destruct (acquire target s) as [[[|]|e] s1] eqn:Hcall.
  - destruct (Service.SetSessionSlot _ _ _ s1) as [u s2]. reflexivity.
  - destruct (fallback_policy (hashToSlotIndex sessionHash rangeSize) target
                (Z.to_nat (rangeSize - 1)) 1 s1) as (res & -> & Hres).
    exact Hres.
  - cbn [fst snd]. by exists e.
Qed.

(** The whole selection fails only with the error of the acquire on the
    bound slot, or with that of the acquire on the target slot, made
    either right after the lookup or after the bound slot was refused. *)
Lemma tryBound_policy (rangeEnd : Z) (s : S) :
  let looked := Service.GetSessionSlot accountID sessionHash s in
  let run := Service.tryBound accountID sessionHash modelCategory requestID
               rangeStart rangeSize maxParallel rangeEnd s in
  match run.1 with
  | Err msg =>
      (exists (bound : Z) (e : string),
         looked.1 = Ok bound /\ 0 <= bound /\
         rangeStart <= bound < rangeEnd /\
         acquire bound looked.2 = (Err e, run.2) /\
         msg = "acquire bound slot failed: " +:+ e) \/
      (exists (e : string) (st : S),
         (st = looked.2 \/
          exists bound : Z,
            looked.1 = Ok bound /\ acquire bound looked.2 = (Ok false, st)) /\
         acquire target st = (Err e, run.2) /\
         msg = "acquire target slot failed: " +:+ e)
  | Ok res => settled res
  end.
Proof.
  unfold Service.tryBound, mbind, mret, M_bind, M_ret.
  destruct (Service.GetSessionSlot accountID sessionHash s) as [r s1].
  cbv zeta. cbn [fst snd].
  assert (Hplain :
    match (Service.selectInRange accountID sessionHash modelCategory
             requestID rangeStart rangeSize maxParallel s1).1 with
    | Err msg =>
        (exists (bound : Z) (e : string),
           r = Ok bound /\ 0 <= bound /\ rangeStart <= bound < rangeEnd /\
           acquire bound s1 =
             (Err e,
              (Service.selectInRange accountID sessionHash modelCategory
                 requestID rangeStart rangeSize maxParallel s1).2) /\
           msg = "acquire bound slot failed: " +:+ e) \/
        (exists (e : string) (st : S),
           (st = s1 \/
            exists bound : Z,
              r = Ok bound /\ acquire bound s1 = (Ok false, st)) /\
           acquire target st =
             (Err e,
              (Service.selectInRange accountID sessionHash modelCategory
                 requestID rangeStart rangeSize maxParallel s1).2) /\
           msg = "acquire target slot failed: " +:+ e)
    | Ok res => settled res
    end).
  { pose proof (selectInRange_policy s1) as Hsel. cbv zeta in Hsel.
    destruct (Service.selectInRange _ _ _ _ _ _ _ s1).1 as [res|msg];
      [exact Hsel|].
    destruct Hsel as (e & Hcall & ->). right. exists e, s1.
    split; [by left|done]. }
  destruct (Z.leb_spec 0 (match r with Ok slot => slot | Err _ => -1 end))
    as [Hnonneg|]; [|exact Hplain].
  destruct ((rangeStart <=? _) && (_ <? rangeEnd)) eqn:Hin; [|exact Hplain].
  destruct r as [bound|e0]; [|lia].
  apply andb_true_iff in Hin as [Hlo%Z.leb_le Hhi%Z.ltb_lt].
  fold (acquire bound).
  destruct (acquire bound s1) as [[[|]|e] s2] eqn:Hcall.
  - destruct (Service.RefreshSessionSlotTTL _ _ s2) as [u s3]. reflexivity.
  - pose proof (selectInRange_policy s2) as Hsel. cbv zeta in Hsel.
    destruct (Service.selectInRange _ _ _ _ _ _ _ s2).1 as [res|msg];
      [exact Hsel|].
    destruct Hsel as (e & Htarget & ->). right. exists e, s2.
    split; [right; by exists bound|done].
  - cbn [fst snd]. left. exists bound, e. done.
Qed.

(** A failing lookup of the binding is treated as no binding. *)
Lemma tryBound_lookup_error (rangeEnd : Z) (s s1 : S) (e : string) :
  Service.GetSessionSlot accountID sessionHash s = (Err e, s1) ->
  Service.tryBound accountID sessionHash modelCategory requestID
    rangeStart rangeSize maxParallel rangeEnd s =
  Service.selectInRange accountID sessionHash modelCategory requestID
    rangeStart rangeSize maxParallel s1.
Proof.
  intros Hget. unfold Service.tryBound, mbind, M_bind. rewrite Hget.
  reflexivity.
Qed.

End SessionSlotPolicy.

(** X21: the error policy of [AcquireSessionSlot], over any cache.
    Without a cache or without a limit the request is admitted with slot
    -1 and the cache is not called.  An error is returned in two cases
    only, and the call stops there: the acquire on the bound slot (a
    binding inside the category's range) failed with e, right after the
    lookup, giving "acquire bound slot failed: e"; or the acquire on the
    target slot (range start plus the session hash modulo the range
    size) failed with e, right after the lookup or after the bound slot
    was refused, giving "acquire target slot failed: e".  The scan over
    the other slots never returns an error, and errors of
    [GetSessionSlot], [SetSessionSlot] and [RefreshSessionSlotTTL] never
    surface; a failing [GetSessionSlot] is treated as no binding.  An
    admission carries a release for exactly the slot it reports, under
    the caller's session and category; a refusal carries none. *)
Theorem session_slot_error_policy {S : Type} (I : Service.ConcurrencyCache S)
  (cacheIsNil : bool) (requestID : string) (accountID maxConcurrency : Z)
  (sessionHash modelCategory : string) (s : S) :
  let run := Service.AcquireSessionSlot cacheIsNil requestID accountID
               maxConcurrency sessionHash modelCategory s in
  let range := categoryRange modelCategory (CalculateTotalSlots maxConcurrency) in
  let target :=
    add range.1 (hashToSlotIndex sessionHash (sub range.2 range.1)) in
  let acquire (slot : Z) :=
    Service.AcquireSlotWithSession accountID slot sessionHash
      (categoryMaxParallel modelCategory) requestID modelCategory in
  let looked := Service.GetSessionSlot accountID sessionHash s in
  (cacheIsNil = true \/ maxConcurrency <= 0 -> run = (Ok noLimit, s)) /\
  (forall msg : string, run.1 = Err msg ->
     (exists (bound : Z) (e : string),
        looked.1 = Ok bound /\ 0 <= bound /\ range.1 <= bound < range.2 /\
        acquire bound looked.2 = (Err e, run.2) /\
        msg = "acquire bound slot failed: " +:+ e) \/
     (exists (e : string) (st : S),
        (st = looked.2 \/
         exists bound : Z,
           looked.1 = Ok bound /\ acquire bound looked.2 = (Ok false, st)) /\
        acquire target st = (Err e, run.2) /\
        msg = "acquire target slot failed: " +:+ e)) /\
  (forall res : SessionSlotResult, run.1 = Ok res ->
     if Acquired res
     then res = noLimit \/
          ReleaseFunc res =
            Some (releaseSession accountID (SlotIndex res) sessionHash
                    modelCategory)
     else ReleaseFunc res = None) /\
  (forall (rangeStart rangeSize maxParallel rangeEnd : Z) (e : string)
          (s1 : S),
     Service.GetSessionSlot accountID sessionHash s = (Err e, s1) ->
     Service.tryBound accountID sessionHash modelCategory requestID
       rangeStart rangeSize maxParallel rangeEnd s =
     Service.selectInRange accountID sessionHash modelCategory requestID
       rangeStart rangeSize maxParallel s1) /\
  (forall (rangeStart rangeSize maxParallel targetSlotInRange targetSlot : Z)
          (remaining : nat) (offset : Z) (s' : S),
     exists res : SessionSlotResult,
       (Service.fallback accountID sessionHash modelCategory requestID
          rangeStart rangeSize maxParallel targetSlotInRange targetSlot
          remaining offset s').1 = Ok res).
Proof.
  intros run range target acquire looked.
  assert (Hno : cacheIsNil = true \/ maxConcurrency <= 0 ->
                run = (Ok noLimit, s)).
  { subst run. unfold Service.AcquireSessionSlot.
    intros [->| Hle]; [done|]. destruct cacheIsNil; [done|].
    by rewrite (proj2 (Z.leb_le _ _) Hle). }
  split; [exact Hno|].
  assert (Hpol :
    match run.1 with
    | Err msg =>
        (exists (bound : Z) (e : string),
           looked.1 = Ok bound /\ 0 <= bound /\ range.1 <= bound < range.2 /\
           acquire bound looked.2 = (Err e, run.2) /\
           msg = "acquire bound slot failed: " +:+ e) \/
        (exists (e : string) (st : S),
           (st = looked.2 \/
            exists bound : Z,
              looked.1 = Ok bound /\
              acquire bound looked.2 = (Ok false, st)) /\
           acquire target st = (Err e, run.2) /\
           msg = "acquire target slot failed: " +:+ e)
    | Ok res =>
        if Acquired res
        then res = noLimit \/
             ReleaseFunc res =
               Some (releaseSession accountID (SlotIndex res) sessionHash
                       modelCategory)
        else ReleaseFunc res = None
    end).
  { subst run target acquire looked range.
    unfold Service.AcquireSessionSlot.
    destruct cacheIsNil; [by left|].
    destruct (maxConcurrency <=? 0); [by left|].
    destruct (categoryRange modelCategory _) as [rangeStart rangeEnd].
    cbv zeta. cbn [fst snd].
    destruct (sub rangeEnd rangeStart <=? 0); [done|].
    pose proof (tryBound_policy I accountID sessionHash modelCategory
                  requestID rangeStart (sub rangeEnd rangeStart)
                  (categoryMaxParallel modelCategory) rangeEnd s) as Hp.
    cbv zeta in Hp.
    destruct (Service.tryBound _ _ _ _ _ _ _ _ s).1 as [res|msg];
      [|exact Hp].
    destruct (Acquired res); [by right|exact Hp]. }
  split; [|split; [|split]].
  - intros msg Hmsg. by rewrite Hmsg in Hpol.
  - intros res Hres. by rewrite Hres in Hpol.
  - intros rangeStart rangeSize maxParallel rangeEnd e s1.
    apply tryBound_lookup_error.
  - intros rangeStart rangeSize maxParallel targetSlotInRange targetSlot
      remaining offset s'.
    destruct (fallback_policy I accountID sessionHash modelCategory requestID
                rangeStart rangeSize maxParallel targetSlotInRange targetSlot
                remaining offset s') as (res & Hres & _).
    by exists res.
Qed.

(** ** The batch of counts *)

Lemma getCount_run (c : concurrencyCache) (accountID now : Z) (d : db) :
  let key := accountSlotKey accountID in
  let kept := filter (scoreAbove (now - slotTTLSeconds c)) (zread now key d) in
  GetAccountConcurrency c accountID now d =
    (Z.of_nat (size kept), zwrite now key kept d).
Proof.
  intros key kept. unfold GetAccountConcurrency, getCountScript.
  script_steps. cbn [fst snd].
  fold key. fold kept. by rewrite zread_zwrite.
Qed.

(** A count cleans its own key and no other: what survives the cleanup
    under any key is what survived before. *)
Lemma getCount_frame (c : concurrencyCache) (accountID now : Z) (d : db)
  (key : string) :
  let P := scoreAbove (now - slotTTLSeconds c) in
  filter P (zread now key (GetAccountConcurrency c accountID now d).2) =
  filter P (zread now key d).
Proof.
  intros P. rewrite getCount_run. cbn [snd].
  destruct (decide (accountSlotKey accountID = key)) as [<-|Hne].
  - rewrite zread_zwrite. apply filter_scoreAbove_idem.
  - by rewrite zread_zwrite_ne.
Qed.

Lemma concurrencyBatchLoop_any {S : Type} (I : SlotService.Cache.ConcurrencyCache S)
  (accountIDs : list Z) (result : gmap Z Z) (s : S) :
  let run := SlotService.concurrencyBatchLoop accountIDs result s in
  forall id : Z,
    (id ∈ accountIDs ->
     exists s0 : S,
       run.1 !! id =
       Some (match (SlotService.Cache.GetAccountConcurrency id s0).1 with
             | Ok count => count
             | Err _ => 0
             end)) /\
    (id ∉ accountIDs -> run.1 !! id = result !! id).
Proof.
  revert result s.
  induction accountIDs as [|a rest IH]; intros result s run id.
  - split; [by intros ?%elem_of_nil|done].
  - subst run. cbn [SlotService.concurrencyBatchLoop].
    unfold mbind, M_bind.
    destruct (SlotService.Cache.GetAccountConcurrency a s) as [r s1] eqn:Hq.
    cbv zeta.
    destruct (IH (<[a := match r with Ok count => count | Err _ => 0 end]>
                    result) s1 id) as [Hin Hout].
    destruct (decide (id ∈ rest)) as [Hrest|Hrest].
    + split; [intros _; by apply Hin|].
      intros Hnot. exfalso. apply Hnot. by right.
    + split.
      * intros [->|?]%elem_of_cons; [|done].
        exists s. rewrite Hout by done. rewrite lookup_insert_eq.
        by rewrite Hq.
      * intros Hnot. rewrite Hout by done.
        apply lookup_insert_ne. intros ->. apply Hnot. by left.
Qed.

Lemma concurrencyBatchLoop_redis (c : concurrencyCache) (accountIDs : list Z)
  (result : gmap Z Z) (s : RedisCache.server) :
  let now := RedisCache.sclock s in
  let P := scoreAbove (now - slotTTLSeconds c) in
  let run := @SlotService.concurrencyBatchLoop _ (SlotService.redis c)
               accountIDs result s in
  RedisCache.sclock run.2 = now /\
  (forall key : string,
     filter P (zread now key (RedisCache.sdb run.2)) =
     filter P (zread now key (RedisCache.sdb s))) /\
  (forall id : Z, id ∈ accountIDs ->
     run.1 !! id =
     Some (Z.of_nat (size (filter P (zread now (accountSlotKey id)
                                       (RedisCache.sdb s)))))).
Proof.
  revert result s.
  induction accountIDs as [|a rest IH]; intros result s now P run.
  - split; [done|]. split; [done|]. by intros id ?%elem_of_nil.
  - subst run. cbn [SlotService.concurrencyBatchLoop].
    unfold mbind, M_bind.
    cbn [SlotService.Cache.GetAccountConcurrency SlotService.redis].
    unfold RedisCache.run. fold now.
    pose proof (getCount_frame c a now (RedisCache.sdb s)) as Hframe.
    pose proof (getCount_run c a now (RedisCache.sdb s)) as Hrun.
    destruct (GetAccountConcurrency c a now (RedisCache.sdb s))
      as [count d1].
    cbn [fst snd] in Hframe, Hrun. cbv zeta in Hrun.
    injection Hrun as Hcount _.
    set (s1 := {| RedisCache.sdb := d1; RedisCache.sclock := now |}).
    destruct (IH (<[a := count]> result) s1) as (Hclock & Hkeep & Hval).
    cbn [RedisCache.sclock RedisCache.sdb s1] in Hclock, Hkeep, Hval.
    split; [exact Hclock|]. split.
    + intros key. rewrite Hkeep. apply Hframe.
    + intros id Hid.
      destruct (decide (id ∈ rest)) as [Hrest|Hrest].
      * rewrite Hval by done. by rewrite Hframe.
      * apply elem_of_cons in Hid as [->|?]; [|done].
        destruct (concurrencyBatchLoop_any (SlotService.redis c) rest
                    (<[a := count]> result) s1 a) as [_ Hout].
        rewrite Hout by done. rewrite lookup_insert_eq. by rewrite Hcount.
Qed.

(** X22: [GetAccountConcurrencyBatch] never fails and answers for exactly
    the accounts asked: over any cache the value of an account is the
    cache's answer to its last query, and 0 where that query failed.  On
    the repository cache the value of every account asked is what a
    single [GetAccountConcurrency] answers on the store before the batch
    (the number of members younger than the slot TTL), also for accounts
    listed twice, and the batch changes the count of no account. *)
Theorem concurrency_batch_counts {S : Type}
  (I : SlotService.Cache.ConcurrencyCache S) (accountIDs : list Z) (s : S)
  (c : concurrencyCache) (srv : RedisCache.server) :
  let run := SlotService.GetAccountConcurrencyBatch accountIDs s in
  let now := RedisCache.sclock srv in
  let onRedis := @SlotService.GetAccountConcurrencyBatch _
                   (SlotService.redis c) accountIDs srv in
  (exists m : gmap Z Z,
     run.1 = Ok m /\
     (forall id : Z, is_Some (m !! id) <-> id ∈ accountIDs) /\
     (forall id : Z, id ∈ accountIDs ->
        exists s0 : S,
          m !! id =
          Some (match (SlotService.Cache.GetAccountConcurrency id s0).1 with
                | Ok count => count
                | Err _ => 0
                end))) /\
  (exists m : gmap Z Z,
     onRedis.1 = Ok m /\
     RedisCache.sclock onRedis.2 = now /\
     (forall id : Z, id ∈ accountIDs ->
        m !! id =
        Some (GetAccountConcurrency c id now (RedisCache.sdb srv)).1) /\
     (forall id : Z,
        (GetAccountConcurrency c id now (RedisCache.sdb onRedis.2)).1 =
        (GetAccountConcurrency c id now (RedisCache.sdb srv)).1)).
Proof.
  intros run now onRedis. split.
  - subst run. unfold SlotService.GetAccountConcurrencyBatch.
    unfold mbind, mret, M_bind, M_ret.
    pose proof (concurrencyBatchLoop_any I accountIDs ∅ s) as Hloop.
    cbv zeta in Hloop.
    destruct (SlotService.concurrencyBatchLoop accountIDs ∅ s) as [m s'].
    cbn [fst] in *. exists m. split; [done|]. split.
    + intros id. destruct (Hloop id) as [Hin Hout]. split.
      * intros Hsome. destruct (decide (id ∈ accountIDs)) as [|Hnot]; [done|].
        rewrite (Hout Hnot), lookup_empty in Hsome. by destruct Hsome.
      * intros Hid. destruct (Hin Hid) as [s0 ->]. by eexists.
    + intros id Hid. by apply (Hloop id).
  - subst onRedis. unfold SlotService.GetAccountConcurrencyBatch.
    unfold mbind, mret, M_bind, M_ret.
    pose proof (concurrencyBatchLoop_redis c accountIDs ∅ srv) as Hloop.
    cbv zeta in Hloop. fold now in Hloop.
    destruct (SlotService.concurrencyBatchLoop accountIDs ∅ srv) as [m s'].
    cbn [fst snd] in *. destruct Hloop as (Hclock & Hkeep & Hval).
    exists m. split; [done|]. split; [done|]. split.
    + intros id Hid. rewrite getCount_run. cbn [fst]. by apply Hval.
    + intros id. rewrite !getCount_run. cbn [fst]. by rewrite Hkeep.
Qed.

(** ** The batch of loads *)

Lemma ints_zwrite (now : Z) (key : string) (m : gmap string Z) (d : db) :
  ints (zwrite now key m d) = ints d.
Proof. unfold zwrite. by destruct (size m =? 0)%nat. Qed.

Section LoadBatch.
Variables (c : concurrencyCache) (now : Z).

Let P : string * Z -> Prop := scoreAbove (now - slotTTLSeconds c).

(** The load of one account, from the single queries on a store. *)
Let infoOf (d : db) (acc : AccountWithConcurrency) : AccountLoadInfo :=
  let cur := (GetAccountConcurrency c (ID acc) now d).1 in
  let wait := (GetAccountWaitingCount (ID acc) now d).1 in
  {| AccountID := ID acc; CurrentConcurrency := cur; WaitingCount := wait;
     LoadRate := if 0 <? MaxConcurrency acc
                 then (cur + wait) * 100 / MaxConcurrency acc else 0 |}.

Let quad (i : AccountLoadInfo) : list Z :=
  [AccountID i; CurrentConcurrency i; WaitingCount i; LoadRate i].

Lemma infoOf_ext (d1 d : db) (acc : AccountWithConcurrency) :
  (forall key, filter P (zread now key d1) = filter P (zread now key d)) ->
  ints d1 = ints d ->
  infoOf d1 acc = infoOf d acc.
Proof.
  intros Hkeep Hints. unfold infoOf. rewrite !getCount_run. cbn [fst].
  fold P. rewrite Hkeep.
  unfold GetAccountWaitingCount, GET_int, mbind, mret, Lua_bind, Lua_ret,
    M_bind, M_ret.
  cbn [fst]. by rewrite Hints.
Qed.

Lemma loadScript_run (accounts : list AccountWithConcurrency) (d : db) :
  let run := getAccountsLoadBatchScript (slotTTLSeconds c) accounts now d in
  run.1 = concat (quad <$> (infoOf d <$> accounts)) /\
  ints run.2 = ints d /\
  (forall key, filter P (zread now key run.2) = filter P (zread now key d)).
Proof.
  revert d. induction accounts as [|acc rest IH]; intros d run.
  - done.
  - subst run. cbn [getAccountsLoadBatchScript].
    unfold mbind, mret, M_bind, M_ret, Lua_bind, Lua_ret. cbv zeta.
    rewrite cleanup_run.
    change ("concurrency:account:" +:+ pretty (ID acc))
      with (accountSlotKey (ID acc)).
    change ("wait:account:" +:+ pretty (ID acc))
      with (accountWaitKey (ID acc)).
    fold P.
    set (kept := filter P (zread now (accountSlotKey (ID acc)) d)).
    set (d1 := zwrite now (accountSlotKey (ID acc)) kept d).
    unfold ZCARD, GET_int.
    assert (Hints : ints d1 = ints d) by apply ints_zwrite.
    assert (Hkeep : forall key,
              filter P (zread now key d1) = filter P (zread now key d)).
    { intros key. unfold d1.
      destruct (decide (accountSlotKey (ID acc) = key)) as [<-|Hne].
      - rewrite zread_zwrite. apply filter_scoreAbove_idem.
      - by rewrite zread_zwrite_ne. }
    destruct (IH d1) as (Hrest & Hints' & Hkeep').
    destruct (getAccountsLoadBatchScript (slotTTLSeconds c) rest now d1)
      as [tail d2].
    cbn [fst snd] in *. split; [|split].
    + assert (Hhead :
        quad (infoOf d acc) =
        [ID acc; Z.of_nat (size (zread now (accountSlotKey (ID acc)) d1));
         default 0 (kget now (accountWaitKey (ID acc)) (ints d1));
         if 0 <? MaxConcurrency acc
         then (Z.of_nat (size (zread now (accountSlotKey (ID acc)) d1)) +
               default 0 (kget now (accountWaitKey (ID acc)) (ints d1)))
              * 100 / MaxConcurrency acc
         else 0]).
      { unfold quad, infoOf.
        cbn [AccountID CurrentConcurrency WaitingCount LoadRate].
        rewrite getCount_run. cbn [fst]. fold P. fold kept.
        unfold d1. rewrite zread_zwrite, ints_zwrite.
        unfold GetAccountWaitingCount, GET_int, mbind, mret, Lua_bind,
          Lua_ret, M_bind, M_ret.
        reflexivity. }
      assert (Hsame : infoOf d1 <$> rest = infoOf d <$> rest).
      { apply list_fmap_ext. intros _ acc' _. by apply infoOf_ext. }
      rewrite Hrest, Hsame. cbn [fmap list_fmap concat].
      rewrite Hhead. reflexivity.
    + by rewrite Hints'.
    + intros key. by rewrite Hkeep'.
Qed.

Lemma loadMapOf_entries (infos : list AccountLoadInfo)
  (loadMap : gmap Z AccountLoadInfo) (id : Z) :
  let result := loadMapOf (concat (quad <$> infos)) loadMap in
  (id ∈ AccountID <$> infos ->
   exists i, i ∈ infos /\ AccountID i = id /\ result !! id = Some i) /\
  (id ∉ AccountID <$> infos -> result !! id = loadMap !! id).
Proof.
  revert loadMap. induction infos as [|i rest IH]; intros loadMap result.
  - split; [by intros ?%elem_of_nil|done].
  - subst result. cbn [fmap list_fmap concat quad app loadMapOf].
    destruct i as [a cur wait rate].
    cbn [AccountID CurrentConcurrency WaitingCount LoadRate].
    set (i := {| AccountID := a; CurrentConcurrency := cur;
                 WaitingCount := wait; LoadRate := rate |}).
    destruct (IH (<[a := i]> loadMap)) as [Hin Hout].
    destruct (decide (id ∈ AccountID <$> rest)) as [Hrest|Hrest].
    + split.
      * intros _. destruct (Hin Hrest) as (j & Hj & Hid & Hlook).
        exists j. split; [by right|done].
      * intros Hnot. exfalso. apply Hnot. by right.
    + split.
      * intros [->|?]%elem_of_cons; [|done].
        exists i. split; [by left|]. split; [done|].
        rewrite (Hout Hrest). apply lookup_insert_eq.
      * intros Hnot. rewrite (Hout Hrest).
        apply lookup_insert_ne. intros ->. apply Hnot. by left.
Qed.

End LoadBatch.

Lemma load_rate_full (x m : Z) : 0 < m -> 100 <= x * 100 / m <-> m <= x.
Proof.
  intros Hm. split.
  - intros Hrate. destruct (Z.lt_ge_cases x m) as [Hlt|]; [|done].
    assert (x * 100 / m < 100); [|lia].
    apply Z.div_lt_upper_bound; lia.
  - intros Hle. apply Z.div_le_lower_bound; lia.
Qed.

(** X23: [GetAccountsLoadBatch] agrees with the single queries.  An empty
    list gives an empty map and leaves the store untouched.  Otherwise
    the map has an entry for exactly the accounts listed; the entry's
    CurrentConcurrency and WaitingCount are what GetAccountConcurrency
    and GetAccountWaitingCount answer on the store before the batch; its
    LoadRate is floor((current + waiting) * 100 / MaxConcurrency) for
    some listed entry of that account with MaxConcurrency > 0, where it
    reaches 100 exactly when current + waiting >= MaxConcurrency, and 0
    for MaxConcurrency <= 0; the batch changes no count. *)
Theorem load_batch_agrees_with_single_queries (c : concurrencyCache)
  (accounts : list AccountWithConcurrency) (now : Z) (d : db) :
  let run := GetAccountsLoadBatch c accounts now d in
  let cur (id : Z) := (GetAccountConcurrency c id now d).1 in
  let wait (id : Z) := (GetAccountWaitingCount id now d).1 in
  (accounts = [] -> run = (∅, d)) /\
  (forall id : Z, is_Some (run.1 !! id) <-> id ∈ ID <$> accounts) /\
  (forall id : Z, id ∈ ID <$> accounts ->
     exists acc : AccountWithConcurrency,
       acc ∈ accounts /\ ID acc = id /\
       run.1 !! id =
       Some {| AccountID := id; CurrentConcurrency := cur id;
               WaitingCount := wait id;
               LoadRate := if 0 <? MaxConcurrency acc
                           then (cur id + wait id) * 100 / MaxConcurrency acc
                           else 0 |} /\
       (0 < MaxConcurrency acc ->
        (100 <= (cur id + wait id) * 100 / MaxConcurrency acc <->
         MaxConcurrency acc <= cur id + wait id))) /\
  (forall id : Z,
     (GetAccountConcurrency c id now run.2).1 = cur id /\
     (GetAccountWaitingCount id now run.2).1 = wait id).
Proof.
  intros run cur wait.
  destruct accounts as [|acc0 rest].
  { subst run. cbn. split; [done|]. split.
    - intros id. rewrite lookup_empty. split; [by intros []|].
      by intros ?%elem_of_nil.
    - split; [by intros id ?%elem_of_nil|done]. }
  set (accounts := acc0 :: rest) in *.
  split; [done|].
  subst run. unfold GetAccountsLoadBatch.
  change (length accounts =? 0)%nat with false. cbv iota.
  unfold mbind, mret, M_bind, M_ret, Lua_bind, Lua_ret.
  pose proof (loadScript_run c now accounts d) as Hrun.
  cbv zeta in Hrun. destruct Hrun as (Hreply & Hints & Hkeep).
  destruct (getAccountsLoadBatchScript (slotTTLSeconds c) accounts now d)
    as [reply d'].
  cbn [fst snd] in *.
  match type of Hreply with
  | reply = concat (_ <$> (?f <$> accounts)) => set (infoOf := f) in *
  end.
  assert (Hids : AccountID <$> (infoOf <$> accounts) = ID <$> accounts).
  { rewrite <- list_fmap_compose. by apply list_fmap_ext. }
  assert (Hentry : forall id,
    (id ∈ ID <$> accounts ->
     exists i, i ∈ infoOf <$> accounts /\ AccountID i = id /\
               loadMapOf reply ∅ !! id = Some i) /\
    (id ∉ ID <$> accounts -> loadMapOf reply ∅ !! id = None)).
  { intros id. rewrite Hreply, <- Hids.
    pose proof (loadMapOf_entries (infoOf <$> accounts) ∅ id) as H.
    cbv zeta in H. by rewrite lookup_empty in H. }
  split; [|split].
  - intros id. destruct (Hentry id) as [Hin Hout]. split.
    + intros Hsome. destruct (decide (id ∈ ID <$> accounts)) as [|Hn]; [done|].
      rewrite (Hout Hn) in Hsome. by destruct Hsome.
    + intros Hid. destruct (Hin Hid) as (i & _ & _ & ->). by eexists.
  - intros id Hid. destruct (Hentry id) as [Hin _].
    destruct (Hin Hid) as (i & Hi & Hacc & Hlook).
    apply list_elem_of_fmap in Hi as (acc & -> & Hmem).
    exists acc. split; [done|]. split; [exact Hacc|].
    split; [|apply load_rate_full].
    rewrite Hlook. subst infoOf. cbn [AccountID] in Hacc.
    by rewrite <- Hacc.
  - intros id. split.
    + unfold cur. rewrite !getCount_run. cbn [fst]. by rewrite Hkeep.
    + unfold wait, GetAccountWaitingCount, GET_int, mbind, mret, Lua_bind,
        Lua_ret, M_bind, M_ret.
      cbn [fst]. by rewrite Hints.
Qed.

(** ** The wait queue of a user *)

Lemma NewConcurrencyCache_ttls (slotTTLMinutes waitQueueTTL : Z) :
  slotTTLMinutes <= 153722867280912930 ->
  let c := NewConcurrencyCache slotTTLMinutes waitQueueTTL in
  slotTTLSeconds c = (if slotTTLMinutes <=? 0 then 15 else slotTTLMinutes) * 60 /\
  waitQueueTTLSeconds c =
    (if waitQueueTTL <=? 0 then slotTTLSeconds c else waitQueueTTL) /\
  0 < slotTTLSeconds c /\ 0 < waitQueueTTLSeconds c.
Proof.
  intros Hm c. subst c. unfold NewConcurrencyCache. cbv zeta.
  cbn [slotTTLSeconds waitQueueTTLSeconds].
  assert (Hmul : mul (if slotTTLMinutes <=? 0 then defaultSlotTTLMinutes
                      else slotTTLMinutes) 60 =
                 (if slotTTLMinutes <=? 0 then 15 else slotTTLMinutes) * 60).
  { unfold mul, defaultSlotTTLMinutes. apply wrap_small.
    unfold MinInt, MaxInt, intSize.
    destruct (Z.leb_spec slotTTLMinutes 0); lia. }
  rewrite Hmul. split; [done|]. split; [done|].
  destruct (Z.leb_spec slotTTLMinutes 0), (Z.leb_spec waitQueueTTL 0); lia.
Qed.

Lemma CalculateMaxWait_value (userConcurrency : Z) :
  userConcurrency <= MaxInt - 20 ->
  SlotService.CalculateMaxWait userConcurrency = Z.max userConcurrency 1 + 20.
Proof.
  intros Hc. unfold SlotService.CalculateMaxWait,
    SlotService.defaultExtraWaitSlots. cbv zeta.
  rewrite add_small.
  - destruct (Z.leb_spec userConcurrency 0); lia.
  - unfold MinInt, MaxInt, intSize in *.
    destruct (Z.leb_spec userConcurrency 0); lia.
Qed.

(** X24: the wait queue of a user, on a cache built by
    NewConcurrencyCache (minutes at most 153722867280912930, so that the
    seconds fit an int; non-positive arguments give 900 s and the slot
    TTL).  Both TTLs are positive.  With maxWait =
    CalculateMaxWait(userConcurrency) = max(userConcurrency, 1) + 20,
    IncrementWaitCount admits the request to the queue exactly when the
    counter is below maxWait and then raises it by one; a refusal changes
    nothing; a counter that is at most maxWait stays so; and the deferred
    DecrementWaitCount of an admitted request gives the place back. *)
Theorem wait_queue_of_a_user (slotTTLMinutes waitQueueTTL : Z)
  (userID userConcurrency now : Z) (d : db) :
  slotTTLMinutes <= 153722867280912930 ->
  userConcurrency <= MaxInt - 20 ->
  let c := NewConcurrencyCache slotTTLMinutes waitQueueTTL in
  let key := waitQueueKey userID in
  let maxWait := SlotService.CalculateMaxWait userConcurrency in
  let cur := waitCount now key d in
  let run := IncrementWaitCount c userID maxWait now d in
  (0 < slotTTLSeconds c /\ 0 < waitQueueTTLSeconds c) /\
  maxWait = Z.max userConcurrency 1 + 20 /\
  (run.1 = true <-> cur < maxWait) /\
  (run.1 = false -> run.2 = d) /\
  (run.1 = true -> waitCount now key run.2 = cur + 1) /\
  (cur <= maxWait -> waitCount now key run.2 <= maxWait) /\
  (run.1 = true -> 0 <= cur ->
   waitCount now key (DecrementWaitCount userID now run.2).2 = cur).
Proof.
  intros Hm Hc c key maxWait cur run.
  destruct (NewConcurrencyCache_ttls slotTTLMinutes waitQueueTTL Hm)
    as (_ & _ & Hslot & Hwait).
  fold c in Hslot, Hwait.
  split; [done|]. split; [by apply CalculateMaxWait_value|].
  subst run. unfold IncrementWaitCount, mbind, mret, M_bind, M_ret,
    Lua_bind, Lua_ret.
  rewrite incrementWaitScript_cases. fold key. fold cur. cbv zeta.
  destruct (Z.leb_spec maxWait cur) as [Hfull|Hroom]; cbn [fst snd Z.eqb].
  - split; [split; [done|lia]|]. split; [done|]. split; [done|].
    split; [fold cur; lia|done].
  - assert (Hafter :
      waitCount now key
        (if cur + 1 =? 1
         then with_ints (kexpire now key (waitQueueTTLSeconds c))
                (with_ints (kset now key (cur + 1)) d)
         else with_ints (kset now key (cur + 1)) d) = cur + 1).
    { destruct (cur + 1 =? 1).
      - rewrite waitCount_kexpire by done. apply waitCount_kset.
      - apply waitCount_kset. }
    split; [done|]. split; [done|]. split; [done|].
    split; [rewrite Hafter; lia|].
    intros _ Hcur.
    unfold DecrementWaitCount, mbind, mret, M_bind, M_ret, Lua_bind, Lua_ret.
    rewrite decrementWaitScript_cases. fold key. cbn [snd].
    rewrite Hafter. destruct (Z.ltb_spec 0 (cur + 1)); [|lia].
    rewrite waitCount_kset. lia.
Qed.

Lemma wait_queue_of_a_user_witness :
  let c := NewConcurrencyCache 0 0 in
  let run := IncrementWaitCount c 7 (SlotService.CalculateMaxWait 0) 50 emptyDb in
  SlotService.CalculateMaxWait 0 = 21 /\ waitQueueTTLSeconds c = 900 /\
  run.1 = true /\ waitCount 50 (waitQueueKey 7) run.2 = 1 /\
  waitCount 50 (waitQueueKey 7) (DecrementWaitCount 7 50 run.2).2 = 0.
Proof.
  intros c run.
  destruct (wait_queue_of_a_user 0 0 7 0 50 emptyDb)
    as (_ & Hmax & Hadm & _ & Hup & _ & Hback).
  { lia. }
  { vm_compute. discriminate. }
  assert (Hrun : run.1 = true) by (apply Hadm; vm_compute; reflexivity).
  split; [exact Hmax|]. split; [vm_compute; reflexivity|].
  split; [exact Hrun|]. split; [exact (Hup Hrun)|].
  apply (Hback Hrun). vm_compute. discriminate.
Defined.

(** ** The 30-minute total *)

Lemma window_keys_differ (accountID other : Z) :
  Windows.rpmLimitKey accountID <> Windows.rate30mKey other.
Proof.
  unfold Windows.rpmLimitKey, Windows.rate30mKey, Windows.rpmLimitKeyPrefix,
    Windows.rate30mKeyPrefix.
  cbn [String.app]. intros [=].
Qed.

Lemma zsets_zwrite_ne (now : Z) (key other : string) (m : gmap string Z)
  (d : db) :
  key <> other -> zsets (zwrite now key m d) !! other = zsets d !! other.
Proof.
  intros Hne. unfold zwrite.
  destruct (size m =? 0)%nat; cbn [zsets with_zsets].
  - unfold kdel. by rewrite lookup_delete_ne.
  - unfold kset. by rewrite lookup_insert_ne.
Qed.

Lemma zsets_kexpire_ne (now ttl : Z) (key other : string) (d : db) :
  key <> other ->
  zsets (with_zsets (kexpire now key ttl) d) !! other = zsets d !! other.
Proof.
  intros Hne. cbn [zsets with_zsets]. unfold kexpire.
  destruct (kfind now key (zsets d)); [|done]. by rewrite lookup_insert_ne.
Qed.

Lemma zread_same_entry (later : Z) (key : string) (d1 d2 : db) :
  zsets d1 !! key = zsets d2 !! key -> zread later key d1 = zread later key d2.
Proof. intros E. unfold zread, kget, kfind. by rewrite E. Qed.

(** Recording under one key changes nothing under another. *)
Lemma recordInWindow_frame (key other : string)
  (windowSeconds ttl nowMs now later : Z) (d : db) :
  key <> other ->
  zread later other (Windows.recordInWindow key windowSeconds ttl nowMs now d).2
  = zread later other d.
Proof.
  intros Hne. apply zread_same_entry.
  unfold Windows.recordInWindow. script_steps. cbn [snd].
  rewrite zsets_kexpire_ne, !zsets_zwrite_ne by done. done.
Qed.

(** X25: the 30-minute total of the helper's RecordAccountRequest.  After
    the two recordings (RPM, then 30 minutes, at millisecond t') the count
    asked within the window, while the key (kept 3600 s) is alive,
    includes the request just recorded, is at most one more than the
    requests of the last 30 minutes before, exactly one more when asked
    in the same millisecond with no earlier request in it, and is not
    changed by the RPM recording under the other key.  With a limit
    max > 0 the result reports that count and asks for a pause exactly
    when the count has reached max, so a limit of 1 pauses on every
    request; without a service, with max <= 0 or on a failed count the
    result is the zero value. *)
Theorem thirty_minute_total (accountID t t' t'' now later : Z) (d : db) :
  0 <= t' -> t' <= t'' <= MaxInt -> t'' < t' + 1800000 ->
  later < now + 3600 ->
  let key := Windows.rate30mKey accountID in
  let before := filter (scoreAbove (t' - 1800000)) (zread now key d) in
  let d1 := (Windows.RecordAccountRequest accountID t now d).2 in
  let d2 := (Windows.RecordAccountRequest30m accountID t' now d1).2 in
  let counted := (Windows.GetAccountRequestCount30m accountID t'' later d2).1 in
  let result (max : Z) := Helper.RecordAccountRequest false max (Ok counted) in
  1 <= counted <= Z.of_nat (size before) + 1 /\
  (t'' = t' -> before !! pretty t' = None ->
   counted = Z.of_nat (size before) + 1) /\
  (forall max : Z, 0 < max ->
     Helper.RequestCount (result max) = counted /\
     (Helper.ShouldPause (result max) = true <-> max <= counted)) /\
  Helper.ShouldPause (result 1) = true /\
  (forall (max : Z) (e : string),
     (max <= 0 ->
      result max = {| Helper.ShouldPause := false; Helper.RequestCount := 0 |}) /\
     Helper.RecordAccountRequest true max (Ok counted) =
       {| Helper.ShouldPause := false; Helper.RequestCount := 0 |} /\
     Helper.RecordAccountRequest false max (Err e) =
       {| Helper.ShouldPause := false; Helper.RequestCount := 0 |}).
Proof.
  intros Ht' Ht'' Hwin Hlater key before d1 d2 counted result.
  assert (Hcut : forall ms, 0 <= ms <= MaxInt ->
            sub ms (Windows.rate30mWindowSeconds * 1000) = ms - 1800000).
  { intros ms Hms. rewrite window_cutoff; [done|done|].
    unfold Windows.rate30mWindowSeconds, MaxInt, intSize. lia. }
  assert (Hread : zread later key d2 = <[pretty t' := t']> before).
  { unfold d2, Windows.RecordAccountRequest30m. fold key.
    rewrite recordInWindow_read by exact Hlater.
    rewrite Hcut by lia. unfold before. do 2 f_equal.
    unfold d1, Windows.RecordAccountRequest.
    apply recordInWindow_frame, window_keys_differ. }
  assert (Hcount : counted =
            Z.of_nat (size (filter (scoreAbove (t'' - 1800000))
                              (<[pretty t' := t']> before)))).
  { unfold counted, Windows.GetAccountRequestCount30m. fold key.
    rewrite countInWindow_run. cbn [fst]. rewrite Hcut by lia.
    by rewrite Hread. }
  assert (Hlow : 1 <= counted).
  { rewrite Hcount. apply (size_pos_lookup _ (pretty t') t').
    apply filter_scoreAbove_lookup. split; [apply lookup_insert_eq|lia]. }
  assert (Hhigh : counted <= Z.of_nat (size before) + 1).
  { rewrite Hcount.
    assert (size (filter (scoreAbove (t'' - 1800000))
                    (<[pretty t' := t']> before)) <=
            size (<[pretty t' := t']> before))%nat
      by apply map_subseteq_size, map_filter_subseteq.
    assert (size (<[pretty t' := t']> before) <= Datatypes.S (size before))%nat.
    { destruct (before !! pretty t') as [v|] eqn:E.
      - rewrite map_size_insert_Some by (by rewrite E). lia.
      - rewrite map_size_insert_None by done. lia. }
    lia. }
  split; [done|]. split; [|split; [|split]].
  - intros -> Hfresh. rewrite Hcount.
    assert (Hsame : filter (scoreAbove (t' - 1800000))
                      (<[pretty t' := t']> before) =
                    <[pretty t' := t']> before).
    { apply map_eq. intros k. apply option_eq. intros s.
      rewrite filter_scoreAbove_lookup. split; [tauto|].
      intros Hk. split; [done|].
      destruct (decide (k = pretty t')) as [->|Hne].
      - rewrite lookup_insert_eq in Hk. injection Hk as <-. lia.
      - rewrite lookup_insert_ne in Hk by done.
        by apply filter_scoreAbove_lookup in Hk as [_ ?]. }
    rewrite Hsame, map_size_insert_None by done. lia.
  - intros max Hmax. unfold result, Helper.RecordAccountRequest.
    destruct (Z.leb_spec max 0); [lia|].
    destruct (Z.leb_spec max counted); cbn; split; try done; split;
      try done; lia.
  - unfold result, Helper.RecordAccountRequest. cbn [Z.leb Z.compare].
    destruct (Z.leb_spec 1 counted); [done|lia].
  - intros max e. split; [|split; [done|]].
    + intros Hmax. unfold result, Helper.RecordAccountRequest.
      destruct (Z.leb_spec max 0); [done|lia].
    + unfold Helper.RecordAccountRequest. by destruct (max <=? 0).
Qed.

Lemma thirty_minute_total_witness :
  let d1 := (Windows.RecordAccountRequest 7 1000 0 emptyDb).2 in
  let d2 := (Windows.RecordAccountRequest30m 7 1000 0 d1).2 in
  let counted := (Windows.GetAccountRequestCount30m 7 2000 1 d2).1 in
  counted = 1 /\
  Helper.ShouldPause (Helper.RecordAccountRequest false 1 (Ok counted)) = true.
Proof.
  intros d1 d2 counted.
  destruct (thirty_minute_total 7 1000 1000 2000 0 1 emptyDb)
    as (Hbound & _ & _ & Hpause & _).
  { lia. }
  { vm_compute. split; discriminate. }
  { lia. }
  { lia. }
  split; [|exact Hpause].
  assert (Hsize : Z.of_nat (size (filter (scoreAbove (1000 - 1800000))
                    (zread 0 (Windows.rate30mKey 7) emptyDb))) = 0)
    by (vm_compute; reflexivity).
  cbv zeta in Hbound. rewrite Hsize in Hbound. fold d1 d2 counted in Hbound.
  lia.
Defined.

(** ** The whitelist and the mapping of a group *)

Lemma inWhitelist_elem_of (models : list string) (model : string) :
  Group.inWhitelist models model = true <-> model ∈ models.
Proof.
  induction models as [|m rest IH]; cbn [Group.inWhitelist].
  - split; [done|by intros ?%elem_of_nil].
  - destruct (String.eqb_spec m model) as [->|Hne].
    + split; [intros _; by left|done].
    + rewrite IH. split; [by right|].
      intros [?|?]%elem_of_cons; [congruence|done].
Qed.

(** X26: the model rules of a group.  IsModelAllowed holds exactly when
    the whitelist is empty or contains the name (compared byte for byte).
    MapModel sends a name with a non-empty mapping entry to that entry and
    every other name (no entry, or an empty one) to itself, so a
    non-empty name is never mapped to the empty name. *)
Theorem group_model_rules (g : Group.Group) (model : string) :
  (Group.IsModelAllowed g model = true <->
   Group.AllowedModels g = [] \/ model ∈ Group.AllowedModels g) /\
  (forall mapped : string,
     Group.ModelMapping g !! model = Some mapped -> mapped <> "" ->
     Group.MapModel g model = mapped) /\
  (Group.ModelMapping g !! model = None \/
   Group.ModelMapping g !! model = Some "" ->
   Group.MapModel g model = model) /\
  (model <> "" -> Group.MapModel g model <> "").
Proof.
  assert (Hmapped : forall mapped : string,
    Group.ModelMapping g !! model = Some mapped -> mapped <> "" ->
    Group.MapModel g model = mapped).
  { intros mapped Hlook Hne. unfold Group.MapModel.
    destruct (size (Group.ModelMapping g)) eqn:Hsize.
    - apply map_size_empty_iff in Hsize. rewrite Hsize in Hlook.
      by rewrite lookup_empty in Hlook.
    - cbn [Nat.eqb]. rewrite Hlook.
      by destruct (String.eqb_spec mapped ""). }
  assert (Hkept : Group.ModelMapping g !! model = None \/
                  Group.ModelMapping g !! model = Some "" ->
                  Group.MapModel g model = model).
  { intros Hlook. unfold Group.MapModel.
    destruct (size (Group.ModelMapping g) =? 0)%nat; [done|].
    by destruct Hlook as [->| ->]. }
  split; [|split; [exact Hmapped|split; [exact Hkept|]]].
  - unfold Group.IsModelAllowed.
    destruct (Group.AllowedModels g) as [|m rest] eqn:Hlist.
    + split; [by left|done].
    + cbn [length Nat.eqb]. rewrite inWhitelist_elem_of.
      split; [by right|]. by intros [?|?].
  - intros Hmodel.
    destruct (Group.ModelMapping g !! model) as [mapped|] eqn:Hlook.
    + destruct (decide (mapped = "")) as [->|Hne].
      * rewrite Hkept by (by right). done.
      * by rewrite (Hmapped mapped).
    + rewrite Hkept by (by left). done.
Qed.

(** ** Users and accounts *)

Lemma slot_keys_differ (accountID userID : Z) :
  accountSlotKey accountID <> userSlotKey userID.
Proof.
  unfold accountSlotKey, userSlotKey, accountSlotKeyPrefix, userSlotKeyPrefix.
  cbn [String.app]. intros [=].
Qed.

Lemma accountSlotKey_ne (accountID other : Z) :
  accountID <> other -> accountSlotKey accountID <> accountSlotKey other.
Proof.
  intros Hne Hkey. apply Hne. unfold accountSlotKey in Hkey.
  apply String.app_inj in Hkey. by apply pretty_Z_inj in Hkey.
Qed.

Lemma acquireScript_frame (key other : string) (maxConc ttl : Z)
  (memberID : string) (now later : Z) (d : db) :
  key <> other ->
  zread later other (acquireScript key maxConc ttl memberID now d).2 =
  zread later other d.
Proof.
  intros Hne. apply zread_same_entry. rewrite acquireScript_cases. cbv zeta.
  destruct (_ || _); cbn [snd].
  - by rewrite zsets_kexpire_ne, !zsets_zwrite_ne.
  - by rewrite zsets_zwrite_ne.
Qed.

Lemma ZREM_frame (key other member : string) (now later : Z) (d : db) :
  key <> other ->
  zread later other (ZREM now key member d).2 = zread later other d.
Proof.
  intros Hne. apply zread_same_entry. unfold ZREM. cbn [snd].
  by rewrite zsets_zwrite_ne.
Qed.

(** X27: users and accounts never share a slot set, even when a user and
    an account have the same number.  Acquiring or releasing a user slot
    changes the members of no account's slot set, at any later instant,
    and so no account's count; acquiring or releasing an account slot
    changes no user's slot set and count, and no other account's. *)
Theorem user_and_account_slots_apart (c : concurrencyCache)
  (userID accountID maxConcurrency : Z) (requestID : string)
  (now later : Z) (d : db) :
  let accountKey := accountSlotKey accountID in
  let userKey := userSlotKey userID in
  let userTaken := (AcquireUserSlot c userID maxConcurrency requestID now d).2 in
  let userGiven := (ReleaseUserSlot userID requestID now d).2 in
  let accountTaken :=
    (AcquireAccountSlot c accountID maxConcurrency requestID now d).2 in
  let accountGiven := (ReleaseAccountSlot accountID requestID now d).2 in
  (zread later accountKey userTaken = zread later accountKey d /\
   zread later accountKey userGiven = zread later accountKey d /\
   (GetAccountConcurrency c accountID later userTaken).1 =
     (GetAccountConcurrency c accountID later d).1) /\
  (zread later userKey accountTaken = zread later userKey d /\
   zread later userKey accountGiven = zread later userKey d /\
   (GetUserConcurrency c userID later accountTaken).1 =
     (GetUserConcurrency c userID later d).1) /\
  (forall other : Z, other <> accountID ->
     zread later (accountSlotKey other) accountTaken =
       zread later (accountSlotKey other) d /\
     zread later (accountSlotKey other) accountGiven =
       zread later (accountSlotKey other) d).
Proof.
  intros accountKey userKey userTaken userGiven accountTaken accountGiven.
  assert (Hau : accountKey <> userKey) by apply slot_keys_differ.
  assert (Hut : zread later accountKey userTaken = zread later accountKey d).
  { unfold userTaken, AcquireUserSlot, mbind, mret, M_bind, M_ret, Lua_bind,
      Lua_ret.
    pose proof (acquireScript_frame userKey accountKey maxConcurrency
                  (slotTTLSeconds c) requestID now later d) as Hframe.
    fold userKey.
    destruct (acquireScript userKey _ _ _ now d) as [r d']. cbn [snd] in *.
    by apply Hframe. }
  assert (Hat : forall other, accountKey <> other ->
            zread later other accountTaken = zread later other d).
  { intros other Hne.
    unfold accountTaken, AcquireAccountSlot, mbind, mret, M_bind, M_ret,
      Lua_bind, Lua_ret.
    pose proof (acquireScript_frame accountKey other maxConcurrency
                  (slotTTLSeconds c) requestID now later d) as Hframe.
    fold accountKey.
    destruct (acquireScript accountKey _ _ _ now d) as [r d']. cbn [snd] in *.
    by apply Hframe. }
  split; [|split].
  - split; [exact Hut|]. split; [by apply ZREM_frame|].
    rewrite !getCount_run. cbn [fst]. fold accountKey. by rewrite Hut.
  - split; [by apply Hat|]. split; [by apply ZREM_frame|].
    unfold GetUserConcurrency, getCountScript. script_steps. cbn [fst].
    fold userKey. rewrite !zread_zwrite. by rewrite Hat.
  - intros other Hother. split.
    + apply Hat. apply accountSlotKey_ne. congruence.
    + apply ZREM_frame. apply accountSlotKey_ne. congruence.
Qed.
